(** * A shallow embedding of the emscripten build driver

    The development follows two source files of the repository:

    - [emscripten/1.38.31/tools/system_libs.py], function [calculate]
      (the library dependency resolver);
    - [emscripten/1.37.19/emcc.py] with [tools/response_file.py]
      (the driver: response files, input classification, link step,
      memory initializer, JS optimizer queue, HTML harness).

    Python exceptions, [sys.exit] and assertion failures are values of the
    type [exn]; functions that can raise return a [res].  Recursion that
    Python does not bound is modelled with fuel, and [OutOfFuel] is kept
    apart from the exceptions. *)

From Stdlib Require Import ZArith Ascii String List Bool Lia.
From stdpp Require Import base decidable option list gmap strings pretty.

Open Scope string_scope.
Open Scope nat_scope.
Open Scope list_scope.
Open Scope stdpp_scope.

#[local] Set Warnings "-clear-no-such-hyp".

(** ** Python strings *)

Module Py.

Definition startswith (s p : string) : bool := String.prefix p s.

(** [s.endswith(suf)]: [s] is [suf], or the tail of [s] ends with [suf]. *)
Fixpoint endswith (s suf : string) : bool :=
  String.eqb s suf ||
  match s with
  | EmptyString => false
  | String _ s' => endswith s' suf
  end.

(** [s.endswith(tuple)] *)
Definition endswith_any (s : string) (sufs : list string) : bool :=
  existsb (endswith s) sufs.

(** [s[1:]] *)
Definition tail (s : string) : string :=
  match s with
  | EmptyString => EmptyString
  | String _ s' => s'
  end.

(** [s.split(c)] for a one-character separator: never the empty list. *)
Fixpoint split (c : ascii) (s : string) : list string :=
  match s with
  | EmptyString => [EmptyString]
  | String a s' =>
      if Ascii.eqb a c then EmptyString :: split c s'
      else match split c s' with
           | [] => [String a EmptyString]
           | w :: ws => String a w :: ws
           end
  end.

(** [sep.join(l)] *)
Fixpoint join (sep : string) (l : list string) : string :=
  match l with
  | [] => EmptyString
  | [x] => x
  | x :: xs => x +:+ sep +:+ join sep xs
  end.

(** Truth value of a string, and of [os.environ.get(name)]. *)
Definition truthy (s : string) : bool := negb (String.eqb s "").

Definition env_truthy (v : option string) : bool :=
  match v with
  | None => false
  | Some s => truthy s
  end.

(** [l.sort(key=k)]: Python's sort is stable; insertion after every element
    whose key is not larger keeps equal keys in their original order. *)
Section Sort.
Context {A : Type} (key : A → bool).

Definition key_le (x y : A) : bool := implb (key x) (key y).

Fixpoint insert_sorted (x : A) (l : list A) : list A :=
  match l with
  | [] => [x]
  | y :: l' => if key_le y x then y :: insert_sorted x l' else x :: y :: l'
  end.

Definition sort_by (l : list A) : list A :=
  foldl (λ acc x, insert_sorted x acc) [] l.
End Sort.

End Py.

(** ** Exceptions and results *)

Inductive exn : Type :=
  | ExitWithError (msg : string)      (* shared.exit_with_error, exit(1) *)
  | AssertionError (msg : string)
  | KeyError (key : string)
  | IndexError
  | TypeError
  | AttributeError
  | ValueError (msg : string)
  | Exception (msg : string).

Inductive res (A : Type) : Type :=
  | Ret (a : A)
  | Raise (e : exn)
  | OutOfFuel.
Arguments Ret {A} a.
Arguments Raise {A} e.
Arguments OutOfFuel {A}.

#[global] Instance res_ret : MRet res := λ A a, Ret a.

#[global] Instance res_bind : MBind res := λ A B k m,
  match m with
  | Ret a => k a
  | Raise e => Raise e
  | OutOfFuel => OutOfFuel
  end.

Definition assert (b : bool) (msg : string) : res unit :=
  if b then Ret tt else Raise (AssertionError msg).

(** A [for] loop whose body can raise. *)
Fixpoint for_each {A S} (body : S → A → res S) (st : S) (l : list A) : res S :=
  match l with
  | [] => Ret st
  | x :: l' => st' ← body st x; for_each body st' l'
  end.

Definition returns {A} (m : res A) : Prop := ∃ a, m = Ret a.

(** ** The library dependency resolver: [system_libs.calculate] *)

Module SystemLibs.

(** The fields of [shared.Settings] that [calculate] reads; Python's integer
    flags are modelled by their truth value. *)
Record Settings := {
  WASM_OBJECT_FILES : bool;
  WASM : bool;
  USE_PTHREADS : bool;
  WASM_BACKEND : bool;
  LEGACY_GL_EMULATION : bool;
  USE_WEBGL2 : bool;
  DISABLE_EXCEPTION_CATCHING : bool;
  MALLOC : string;
  DEBUG_LEVEL : nat;
  SUPPORT_ERRNO : bool;
  EMSCRIPTEN_TRACING : bool;
  EXPORTED_FUNCTIONS : list string
}.

Record Environ := {
  EMCC_FORCE_STDLIBS : option string;
  EMCC_ONLY_FORCED_STDLIBS : option string
}.

(** What [read_symbols] returns for each [*.symbols] file, in the order in
    which the resulting collection is iterated. *)
Record SymbolFiles := {
  libc_symbols : list string;
  libcxx_symbols : list string;
  libcxxabi_symbols : list string;
  gl_symbols : list string;
  al_symbols : list string;
  compiler_rt_symbols : list string;
  libc_extras_symbols : list string;
  pthreads_symbols : list string;
  asmjs_pthreads_symbols : list string;
  stub_pthreads_symbols : list string;
  wasm_libc_symbols : list string;
  html5_symbols : list string
}.

(** One entry of [symbolses]: the result of [llvm-nm] on one file. *)
Record Symbols := {
  defs : gset string;
  undefs : gset string
}.

Definition Dummy : Symbols := {| defs := ∅; undefs := ∅ |}.

Inductive builder :=
  | create_libcxx | create_libcxxabi | create_al | create_html5
  | create_compiler_rt | create_malloc | create_gl | create_pthreads
  | create_pthreads_asmjs | create_pthreads_wasm | create_pthreads_stub
  | create_libc | create_wasm_libc | create_libc_extras.

(** [Library = namedtuple('Library', ['shortname', 'suffix', 'create',
    'symbols', 'deps', 'can_noexcept'])] *)
Record Library := {
  shortname : string;
  suffix : string;
  create : builder;
  symbols : list string;
  deps : list string;
  can_noexcept : bool
}.

(** The calls [calculate] makes to the outside, in the order made. *)
Inductive event :=
  | llvm_nm (files : list string)   (* shared.Building.parallel_llvm_nm *)
  | cache_get (name : string).      (* shared.Cache.get(name, do_create) *)

(** [malloc_decision()[1]] *)
Definition malloc_name (s : Settings) : res string :=
  base ← (if String.eqb (MALLOC s) "dlmalloc" then Ret "dlmalloc"
          else if String.eqb (MALLOC s) "emmalloc" then Ret "emmalloc"
          else Raise (Exception "malloc must be one of emmalloc, dlmalloc, see settings.js"));
  let require_dlmalloc (what : string) : res unit :=
    if negb (String.eqb base "dlmalloc")
    then Raise (ExitWithError ("only dlmalloc is possible when using " +:+ what))
    else Ret tt in
  let extra := "" in
  let extra := if (3 <=? DEBUG_LEVEL s)%nat then extra +:+ "_debug" else extra in
  let extra := if negb (SUPPORT_ERRNO s)
               then (if negb (String.eqb base "emmalloc") then extra +:+ "_noerrno" else extra)
               else extra in
  extra ← (if USE_PTHREADS s
           then _ ← require_dlmalloc "pthreads"; Ret (extra +:+ "_threadsafe")
           else Ret extra);
  extra ← (if EMSCRIPTEN_TRACING s
           then _ ← require_dlmalloc "tracing"; Ret (extra +:+ "_tracing")
           else Ret extra);
  Ret ("lib" +:+ base +:+ extra).

(** State of one [add_back_deps] pass over [deps_info.items()]. *)
Record BackDeps := {
  bd_undefs : gset string;      (* need.undefs *)
  bd_added : gset string;       (* added *)
  bd_exports : list string;     (* shared.Settings.EXPORTED_FUNCTIONS *)
  bd_more : bool
}.

Definition add_back_deps_item (st : BackDeps) (item : string * list string) : BackDeps :=
  let '(ident, ds) := item in
  if bool_decide (ident ∈ bd_undefs st) && negb (bool_decide (ident ∈ bd_added st)) then
    foldl (λ st dep,
             {| bd_undefs := {[dep]} ∪ bd_undefs st;
                bd_added := bd_added st;
                bd_exports := bd_exports st ++ ["_" +:+ dep];
                bd_more := bd_more st |})
          {| bd_undefs := bd_undefs st;
             bd_added := {[ident]} ∪ bd_added st;
             bd_exports := bd_exports st;
             bd_more := true |}
          ds
  else st.

Fixpoint add_back_deps (fuel : nat) (deps_info : list (string * list string))
    (st : BackDeps) : res BackDeps :=
  match fuel with
  | 0 => OutOfFuel
  | S fuel' =>
      let st' := foldl add_back_deps_item
                   {| bd_undefs := bd_undefs st; bd_added := bd_added st;
                      bd_exports := bd_exports st; bd_more := false |}
                   deps_info in
      if bd_more st' then add_back_deps fuel' deps_info st'  (* deps of deps *)
      else Ret st'
  end.

(** The body of [for library_symbol in lib.symbols]. *)
Definition scan_symbol (syms : Symbols) (acc : gset string * gset string)
    (library_symbol : string) : gset string * gset string :=
  let '(need_syms, has_syms) := acc in
  let need_syms :=
    if bool_decide (library_symbol ∈ undefs syms)
    then {[library_symbol]} ∪ need_syms else need_syms in
  let has_syms :=
    if bool_decide (library_symbol ∈ defs syms)
    then {[library_symbol]} ∪ has_syms else has_syms in
  (need_syms, has_syms).

(** The symbols of [lib] that some input leaves undefined ([need_syms]) and
    that some input defines ([has_syms]), as the two nested loops build them. *)
Definition scan_syms (lib : Library) (symbolses : list Symbols) : gset string * gset string :=
  foldl (λ acc syms, foldl (scan_symbol syms) acc (symbols lib)) (∅, ∅) symbolses.

(** [need_syms] once the symbols supplied by another of the inputs are removed. *)
Definition residual (lib : Library) (symbolses : list Symbols) : gset string :=
  let '(need_syms, has_syms) := scan_syms lib symbolses in
  foldl (λ need_syms haz,
           if bool_decide (haz ∈ need_syms) then need_syms ∖ {[haz]} else need_syms)
        need_syms (elements has_syms).

(** What [calculate] has done so far: the libraries included, the link line
    being built, the outside calls made, and [Settings.EXPORTED_FUNCTIONS]. *)
Record RState := {
  already_included : gset string;
  libs_to_link : list (string * bool);
  trace : list event;
  exports : list string
}.

(** Outcome of a stateful step: the state is kept when an exception ends it. *)
Inductive run (A : Type) : Type :=
  | Done (a : A) (st : RState)
  | Abort (e : exn) (st : RState)
  | NoFuel.
Arguments Done {A} a st.
Arguments Abort {A} e st.
Arguments NoFuel {A}.

Definition lift {A} (m : res A) (st : RState) : run A :=
  match m with
  | Ret a => Done a st
  | Raise e => Abort e st
  | OutOfFuel => NoFuel
  end.

Fixpoint for_each_run {A} (body : A → RState → run unit) (l : list A)
    (st : RState) : run unit :=
  match l with
  | [] => Done tt st
  | x :: l' =>
      match body x st with
      | Done _ st' => for_each_run body l' st'
      | Abort e st' => Abort e st'
      | NoFuel => NoFuel
      end
  end.

Definition state_of {A} (r : run A) : option RState :=
  match r with
  | Done _ st => Some st
  | Abort _ st => Some st
  | NoFuel => None
  end.

Section Resolver.
(** Collaborators outside of this file. [Cache_get name] is the path that
    [shared.Cache.get(name, do_create)] returns. *)
Variable Cache_get : string → string.
Variable parallel_llvm_nm : list string → list Symbols.
Variable abspath : string → string.

Section Scan.
Variable settings : Settings.
Variable system_libs : list Library.
Variable always_include : gset string.
Variable force_include : gset string.
Variable only_forced : bool.
Variable symbolses : list Symbols.

(** [{l.shortname: l for l in system_libs}]: a later entry replaces an
    earlier one of the same name. *)
Definition system_libs_map : gmap string Library :=
  foldl (λ m l, <[shortname l := l]> m) ∅ system_libs.

Definition maybe_noexcept (name : string) : string :=
  if DISABLE_EXCEPTION_CATCHING settings then name +:+ "_noexcept" else name.

Fixpoint add_library (fuel : nat) (lib : Library) (st : RState) : run unit :=
  match fuel with
  | 0 => NoFuel
  | S fuel' =>
      if bool_decide (shortname lib ∈ already_included st) then Done tt st
      else
        let short := if can_noexcept lib then maybe_noexcept (shortname lib)
                     else shortname lib in
        let name := short +:+ "." +:+ suffix lib in
        let libfile := Cache_get name in
        let need_whole_archive :=
          bool_decide (shortname lib ∈ force_include)
          && negb (String.eqb (suffix lib) "bc") in
        let st := {| already_included := {[shortname lib]} ∪ already_included st;
                     libs_to_link := libs_to_link st ++ [(libfile, need_whole_archive)];
                     trace := trace st ++ [cache_get name];
                     exports := exports st |} in
        (* Recursively add dependencies *)
        for_each_run (λ d st,
                        match system_libs_map !! d with
                        | None => Abort (KeyError d) st
                        | Some l => add_library fuel' l st
                        end)
                     (deps lib) st
  end.

(** Every call that goes on adds a name that was not included, so the
    depth of the recursion is bounded by the number of registered names. *)
Definition fuel : nat := S (S (size system_libs_map)).

(** The body of [for lib in system_libs]. *)
Definition scan_lib (lib : Library) (st : RState) : run unit :=
  if negb (Py.startswith (shortname lib) "lib") then Abort (AssertionError "") st
  else if bool_decide (shortname lib ∈ already_included st) then Done tt st
  else
    let force_this := bool_decide (shortname lib ∈ force_include) in
    if negb force_this && only_forced then Done tt st
    else
      let include_this := force_this || bool_decide (shortname lib ∈ always_include) in
      if negb include_this && (size (residual lib symbolses) =? 0)%nat
      then Done tt st
      else add_library fuel lib st.   (* We need to build and link the library in *)

Definition scan_libs (st : RState) : run unit :=
  for_each_run scan_lib system_libs st.
End Scan.

(** [symbolses[0].undefs.add(x)] *)
Definition add_undef_first (symbolses : list Symbols) (x : string) : list Symbols :=
  match symbolses with
  | [] => []
  | s :: rest => {| defs := defs s; undefs := {[x]} ∪ undefs s |} :: rest
  end.

(** [for symbols in symbolses: add_back_deps(symbols)]; [added] and the
    export list are shared by all the calls. *)
Fixpoint back_deps_all (deps_info : list (string * list string))
    (symbolses : list Symbols) (added : gset string) (exported : list string)
    : res (list Symbols * gset string * list string) :=
  match symbolses with
  | [] => Ret ([], added, exported)
  | s :: rest =>
      bd ← add_back_deps (S (length deps_info)) deps_info
             {| bd_undefs := undefs s; bd_added := added;
                bd_exports := exported; bd_more := false |};
      '(rest', added', exported') ←
        back_deps_all deps_info rest (bd_added bd) (bd_exports bd);
      Ret ({| defs := defs s; undefs := bd_undefs bd |} :: rest', added', exported')
  end.

(** The registered libraries, as [calculate] lists them for the settings. *)
Definition make_system_libs (settings : Settings) (files : SymbolFiles)
    (malloc : string) : list Library :=
  let ext := if WASM_OBJECT_FILES settings then "a" else "bc" in
  let libc_name := if USE_PTHREADS settings then "libc-mt" else "libc" in
  let libc_deps := ["libcompiler_rt"] ++ (if WASM settings then ["libc-wasm"] else []) in
  let L := Build_Library in
  let system_libs :=
    [ L "libc++"         "a" create_libcxx      (libcxx_symbols files)      ["libc++abi"] true;
      L "libc++abi"      ext create_libcxxabi   (libcxxabi_symbols files)   [libc_name]   false;
      L "libal"          ext create_al          (al_symbols files)          [libc_name]   false;
      L "libhtml5"       ext create_html5       (html5_symbols files)       []            false;
      L "libcompiler_rt" "a" create_compiler_rt (compiler_rt_symbols files) [libc_name]   false;
      L malloc           ext create_malloc      []                          []            false ] in
  let gl_name := "libgl" in
  let gl_name := if USE_PTHREADS settings then gl_name +:+ "-mt" else gl_name in
  let gl_name := if LEGACY_GL_EMULATION settings then gl_name +:+ "-emu" else gl_name in
  let gl_name := if USE_WEBGL2 settings then gl_name +:+ "-webgl2" else gl_name in
  let system_libs :=
    system_libs ++ [L gl_name ext create_gl (gl_symbols files) [libc_name] false] in
  let system_libs :=
    if USE_PTHREADS settings then
      let system_libs :=
        system_libs ++ [L "libpthreads" ext create_pthreads (pthreads_symbols files) [libc_name] false] in
      if negb (WASM_BACKEND settings) then
        system_libs ++ [L "libpthreads_asmjs" ext create_pthreads_asmjs (asmjs_pthreads_symbols files) [libc_name] false]
      else
        system_libs ++ [L "libpthreads_wasm" ext create_pthreads_wasm [] [libc_name] false]
    else
      system_libs ++ [L "libpthreads_stub" ext create_pthreads_stub (stub_pthreads_symbols files) [libc_name] false] in
  let system_libs :=
    system_libs ++ [L libc_name ext create_libc (libc_symbols files) libc_deps false] in
  (* if building to wasm, we need more math code, since we have less builtins *)
  let system_libs :=
    if WASM settings
    then system_libs ++ [L "libc-wasm" ext create_wasm_libc (wasm_libc_symbols files) [] false]
    else system_libs in
  (* Add libc-extras at the end, as libc may end up requiring them, and they depend on nothing. *)
  system_libs ++ [L "libc-extras" ext create_libc_extras (libc_extras_symbols files) [] false].

Definition make_always_include (settings : Settings) (malloc : string) : gset string :=
  let always_include : gset string := ∅ in
  let always_include :=
    if USE_PTHREADS settings then
      let always_include := {["libpthreads"]} ∪ always_include in
      if negb (WASM_BACKEND settings) then {["libpthreads_asmjs"]} ∪ always_include
      else {["libpthreads_wasm"]} ∪ always_include
    else {["libpthreads_stub"]} ∪ always_include in
  let always_include := {[malloc]} ∪ always_include in
  if WASM_BACKEND settings then {["libcompiler_rt"]} ∪ always_include else always_include.

(** [force_include], from [EMCC_FORCE_STDLIBS] and the [forced] argument. *)
Definition make_force_include (env : Environ) (registered : gmap string Library)
    (forced : list string) : gset string :=
  let force := EMCC_FORCE_STDLIBS env in
  let force := if bool_decide (force = Some "1")
               then Some (Py.join "," (elements (dom registered))) else force in
  list_to_set ((if Py.env_truthy force then Py.split "," (default "" force) else []) ++ forced).

(** The body of [for name, need_whole_archive in libs_to_link]. *)
Definition whole_archive_step (acc : list string * bool) (lib : string * bool)
    : list string * bool :=
  let '(ret, in_group) := acc in
  let '(name, need_whole_archive) := lib in
  let '(ret, in_group) :=
    if need_whole_archive && negb in_group
    then (ret ++ ["--whole-archive"], true) else (ret, in_group) in
  let '(ret, in_group) :=
    if in_group && negb need_whole_archive
    then (ret ++ ["--no-whole-archive"], false) else (ret, in_group) in
  (ret ++ [name], in_group).

(** Wrap libraries in --whole-archive, as needed. *)
Definition wrap_whole_archive (libs : list (string * bool)) : list string :=
  let '(ret, in_group) := foldl whole_archive_step ([], false) libs in
  if in_group then ret ++ ["--no-whole-archive"] else ret.

Definition is_archive (x : string * bool) : bool := Py.endswith x.1 ".a".
Definition is_libcxxabi_bc (x : string * bool) : bool := Py.endswith x.1 "libc++abi.bc".

Definition push_lib (name : string) (st : RState) : RState :=
  {| already_included := already_included st;
     libs_to_link := libs_to_link st ++ [(Cache_get name, false)];
     trace := trace st ++ [cache_get name];
     exports := exports st |}.

Definition sort_libs (st : RState) : RState :=
  {| already_included := already_included st;
     libs_to_link :=
       Py.sort_by is_libcxxabi_bc (Py.sort_by is_archive (libs_to_link st));
     trace := trace st;
     exports := exports st |}.

Definition only_forced (env : Environ) : bool :=
  Py.env_truthy (EMCC_ONLY_FORCED_STDLIBS env).

(** The files handed to [llvm-nm]. *)
Definition nm_files (env : Environ) (temp_files : list string) : list string :=
  let temp_files := if only_forced env then [] else temp_files in
  abspath <$> temp_files.

(** [symbolses] as the library scan sees it, and the export list: the
    symbols of the inputs, the exported functions added to the first entry
    as undefined, then [add_back_deps] on every entry. *)
Definition input_symbols (settings : Settings) (env : Environ)
    (deps_info : list (string * list string)) (temp_files : list string)
    : res (list Symbols * list string) :=
  let symbolses := parallel_llvm_nm (nm_files env temp_files) in
  let symbolses := if (length symbolses =? 0)%nat then symbolses ++ [Dummy] else symbolses in
  (* depend on exported functions *)
  let symbolses :=
    foldl (λ syms export, add_undef_first syms (Py.tail export))
          symbolses (EXPORTED_FUNCTIONS settings) in
  '(symbolses, _, exported) ←
    back_deps_all deps_info symbolses ∅ (EXPORTED_FUNCTIONS settings);
  let exported :=
    if only_forced env
    then exported ++ flat_map (λ kv, (λ dep, "_" +:+ dep) <$> kv.2) deps_info
    else exported in
  Ret (symbolses, exported).

Definition init_state (settings : Settings) (env : Environ)
    (temp_files : list string) : RState :=
  {| already_included := ∅; libs_to_link := [];
     trace := [llvm_nm (nm_files env temp_files)];
     exports := EXPORTED_FUNCTIONS settings |}.

Definition set_exports (exported : list string) (st : RState) : RState :=
  {| already_included := already_included st; libs_to_link := libs_to_link st;
     trace := trace st; exports := exported |}.

Definition unregistered (registered : gmap string Library) (names : gset string)
    : list string :=
  filter (λ lib, lib ∉ dom registered) (elements names).

Definition calculate (settings : Settings) (env : Environ) (files : SymbolFiles)
    (deps_info : list (string * list string))
    (temp_files : list string) (forced : list string) : run (list string) :=
  let st := init_state settings env temp_files in
  match input_symbols settings env deps_info temp_files with
  | OutOfFuel => NoFuel
  | Raise e => Abort e st
  | Ret (symbolses, exported) =>
      let st := set_exports exported st in
      match malloc_name settings with
      | OutOfFuel => NoFuel
      | Raise e => Abort e st
      | Ret malloc =>
          let always_include := make_always_include settings malloc in
          let system_libs := make_system_libs settings files malloc in
          let registered := system_libs_map system_libs in
          let force_include := make_force_include env registered forced in
          match unregistered registered always_include with
          | _ :: _ => Abort (AssertionError "") st
          | [] =>
              match unregistered registered force_include with
              | lib :: _ => Abort (ExitWithError ("invalid forced library: " +:+ lib)) st
              | [] =>
                  (* Go over libraries to figure out which we must include *)
                  match scan_libs settings system_libs always_include force_include
                          (only_forced env) symbolses st with
                  | NoFuel => NoFuel
                  | Abort e st => Abort e st
                  | Done _ st =>
                      let st :=
                        if WASM_BACKEND settings
                        then push_lib "libc_rt_wasm.a" (push_lib "libcompiler_rt_wasm.a" st)
                        else st in
                      let st := sort_libs st in
                      Done (wrap_whole_archive (libs_to_link st)) st
                  end
              end
          end
      end
  end.
End Resolver.

End SystemLibs.

(** ** Response files: [tools/response_file.py] and the start of [emcc.run] *)

Module ResponseFile.

Section ResponseFiles.
(** [read_file name] is the text of the file when [os.path.exists(name)],
    [shlex_split] is [shlex.split], which raises on an unclosed quote. *)
Variable read_file : string → option string.
Variable shlex_split : string → res (list string).

Definition read_response_file (response_filename : string) : res (list string) :=
  let response_filename :=
    if Py.startswith response_filename "@" then Py.tail response_filename
    else response_filename in
  match read_file response_filename with
  | None => Raise (Exception ("Response file '" +:+ response_filename +:+ "' not found!"))
  | Some args => shlex_split args
  end.

(** [for index in range(1, len(sys.argv)): if sys.argv[index][0] == '@': ... break]:
    the first index whose argument starts with [@]; indexing an empty
    argument raises. [args] is [sys.argv[index:]]. *)
Fixpoint find_response_file (index : nat) (args : list string) : res (option nat) :=
  match args with
  | [] => Ret None
  | EmptyString :: _ => Raise IndexError
  | String c _ :: rest =>
      if Ascii.eqb c "@" then Ret (Some index)
      else find_response_file (S index) rest
  end.

(** [sys.argv[index:index+1] = extra_args] *)
Definition splice (argv : list string) (index : nat) (extra_args : list string)
    : list string :=
  take index argv ++ extra_args ++ drop (S index) argv.

(** [while response_file: ...]: one unit of fuel for each turn of the loop. *)
Fixpoint expand_response_files (fuel : nat) (argv : list string) : res (list string) :=
  match fuel with
  | 0 => OutOfFuel
  | S fuel' =>
      found ← find_response_file 1 (drop 1 argv);
      match found with
      | None => Ret argv
      | Some index =>
          (* found one, loop again next time *)
          extra_args ← read_response_file (default "" (argv !! index));
          (* slice in extra_args in place of the response file arg *)
          expand_response_files fuel' (splice argv index extra_args)
      end
  end.

(** What the rest of [run] reads of its arguments: the [EMCC_CXX] flag and
    [sys.argv] once the response files are read. *)
Record ParsedArgv := {
  EMCC_CXX : bool;
  argv : list string
}.

(** [run()] after [EMCC_CFLAGS] and up to the end of the response-file
    loop. [shared.check_sanity] and the logging in between leave [sys.argv]
    alone and are left out. *)
Definition read_arguments (fuel : nat) (sys_argv : list string) : res ParsedArgv :=
  let emcc_cxx := bool_decide ("--emscripten-cxx" ∈ sys_argv) in
  let sys_argv := filter (λ x, x ≠ "--emscripten-cxx") sys_argv in
  if (length sys_argv =? 1)%nat then Raise (ExitWithError "no input files")
  else
    (* read response files very early on *)
    sys_argv ← expand_response_files fuel sys_argv;
    Ret {| EMCC_CXX := emcc_cxx; argv := sys_argv |}.

(** [run()] from its first line to the end of the response-file loop. *)
Definition run_arguments (fuel : nat) (EMCC_CFLAGS : option string)
    (sys_argv : list string) : res ParsedArgv :=
  sys_argv ← (match EMCC_CFLAGS with
              | Some flags =>
                  if Py.truthy flags
                  then extra ← shlex_split flags; Ret (sys_argv ++ extra)
                  else Ret sys_argv
              | None => Ret sys_argv
              end);
  read_arguments fuel sys_argv.
End ResponseFiles.

(** A small file system and a whitespace tokenizer, used to run the
    definitions above on concrete command lines. *)
Fixpoint words_aux (cur : string) (s : string) : list string :=
  match s with
  | EmptyString => if Py.truthy cur then [cur] else []
  | String c s' =>
      if Ascii.eqb c " "
      then (if Py.truthy cur then cur :: words_aux "" s' else words_aux "" s')
      else words_aux (cur +:+ String c EmptyString) s'
  end.

Definition words (s : string) : res (list string) := Ret (words_aux "" s).

Definition files (l : list (string * string)) (name : string) : option string :=
  snd <$> find (λ kv, String.eqb kv.1 name) l.

End ResponseFile.

(** ** The pass queue: [emcc.JSOptimizer] *)

Module JSOpt.

(** The settings and globals that [flush] and [run_passes] read. *)
Record Env := {
  WASM_BACKEND : bool;
  ASM_JS : nat;
  PRECISE_F32 : nat;
  CYBERDWARF : bool;
  DEBUG : option string          (* EMCC_DEBUG, None when unset or "0" *)
}.

(** One call of [shared.Building.js_optimizer]. *)
Record OptimizerCall := {
  call_input : string;
  call_passes : list string;
  call_source_map : bool;
  call_extra_info : option (gmap string string);
  call_just_split : bool;
  call_just_concat : bool
}.

(** A [JSOptimizer] object together with the module-level [final]. The
    side-table [extra_info] is [None], or a dictionary. *)
Record JSOptimizer := {
  queue : list string;
  extra_info : option (gmap string string);
  queue_history : list string;
  blacklist : list string;
  minify_whitespace : bool;
  cleanup_shell : bool;
  target : string;
  opt_level : nat;
  debug_level : nat;
  emit_symbol_map : bool;
  profiling_funcs : bool;
  use_closure_compiler : nat;
  misc_temp_files : list string;
  js_transform_tempfiles : list string;
  final : string;                                  (* global final *)
  optimizer_calls : list OptimizerCall;
  intermediates : list (string * string * string)  (* save_intermediate *)
}.

Definition set_queue (q : list string) (o : JSOptimizer) : JSOptimizer :=
  {| queue := q; extra_info := extra_info o; queue_history := queue_history o;
     blacklist := blacklist o; minify_whitespace := minify_whitespace o;
     cleanup_shell := cleanup_shell o; target := target o; opt_level := opt_level o;
     debug_level := debug_level o; emit_symbol_map := emit_symbol_map o;
     profiling_funcs := profiling_funcs o; use_closure_compiler := use_closure_compiler o;
     misc_temp_files := misc_temp_files o;
     js_transform_tempfiles := js_transform_tempfiles o; final := final o;
     optimizer_calls := optimizer_calls o; intermediates := intermediates o |}.

Definition set_extra_info (e : option (gmap string string)) (o : JSOptimizer) : JSOptimizer :=
  {| queue := queue o; extra_info := e; queue_history := queue_history o;
     blacklist := blacklist o; minify_whitespace := minify_whitespace o;
     cleanup_shell := cleanup_shell o; target := target o; opt_level := opt_level o;
     debug_level := debug_level o; emit_symbol_map := emit_symbol_map o;
     profiling_funcs := profiling_funcs o; use_closure_compiler := use_closure_compiler o;
     misc_temp_files := misc_temp_files o;
     js_transform_tempfiles := js_transform_tempfiles o; final := final o;
     optimizer_calls := optimizer_calls o; intermediates := intermediates o |}.

Definition set_queue_history (h : list string) (o : JSOptimizer) : JSOptimizer :=
  {| queue := queue o; extra_info := extra_info o; queue_history := h;
     blacklist := blacklist o; minify_whitespace := minify_whitespace o;
     cleanup_shell := cleanup_shell o; target := target o; opt_level := opt_level o;
     debug_level := debug_level o; emit_symbol_map := emit_symbol_map o;
     profiling_funcs := profiling_funcs o; use_closure_compiler := use_closure_compiler o;
     misc_temp_files := misc_temp_files o;
     js_transform_tempfiles := js_transform_tempfiles o; final := final o;
     optimizer_calls := optimizer_calls o; intermediates := intermediates o |}.

Definition is_in (x : string) (l : list string) : bool := existsb (String.eqb x) l.

Section Flush.
Variable env : Env.
(** [shared.js_optimizer.use_native(pass, source_map)] and the file that
    [shared.Building.js_optimizer] returns for a call. *)
Variable use_native : string → bool → bool.
Variable js_optimizer : OptimizerCall → string.

Definition debug_on : bool := Py.env_truthy (DEBUG env).

Definition run_passes (passes : list string) (title : string)
    (just_split just_concat : bool) (self : JSOptimizer) : JSOptimizer :=
  let passes := "asm" :: passes in
  let passes := if (0 <? PRECISE_F32 env)%nat then "asmPreciseF32" :: passes else passes in
  let passes :=
    if (emit_symbol_map self || CYBERDWARF env) && is_in "minifyNames" passes
    then passes ++ ["symbolMap=" +:+ target self +:+ ".symbols"] else passes in
  let passes :=
    if profiling_funcs self && is_in "minifyNames" passes
    then passes ++ ["profilingFuncs"] else passes in
  let passes :=
    if minify_whitespace self && is_in "last" passes
    then passes ++ ["minifyWhitespace"] else passes in
  let passes :=
    if cleanup_shell self && is_in "last" passes
    then passes ++ ["cleanup"] else passes in
  let call := {| call_input := final self; call_passes := passes;
                 call_source_map := (4 <=? debug_level self)%nat;
                 call_extra_info := extra_info self;
                 call_just_split := just_split; call_just_concat := just_concat |} in
  let final' := js_optimizer call in
  {| queue := queue self; extra_info := extra_info self;
     queue_history := queue_history self; blacklist := blacklist self;
     minify_whitespace := minify_whitespace self; cleanup_shell := cleanup_shell self;
     target := target self; opt_level := opt_level self;
     debug_level := debug_level self; emit_symbol_map := emit_symbol_map self;
     profiling_funcs := profiling_funcs self;
     use_closure_compiler := use_closure_compiler self;
     misc_temp_files := misc_temp_files self ++ [final self; final'];
     js_transform_tempfiles := js_transform_tempfiles self ++ [final'];
     final := final';
     optimizer_calls := optimizer_calls self ++ [call];
     intermediates :=
       if debug_on
       then intermediates self ++
              [(final', title, if is_in "emitJSON" passes then "json" else "js")]
       else intermediates self |}.

(** Adjacent passes that run in the same optimizer are batched; a switch
    closes the chunk with [emitJSON] and opens the next with [receiveJSON]. *)
Definition make_chunks (source_map : bool) (passes : list string) : list (list string) :=
  let '(chunks, curr) :=
    foldl (λ '(chunks, curr) p,
             if (length curr =? 0)%nat then (chunks, curr ++ [p])
             else
               let native := use_native p source_map in
               let last_native := use_native (default "" (last curr)) source_map in
               if Bool.eqb native last_native then (chunks, curr ++ [p])
               else (chunks ++ [curr ++ ["emitJSON"]], ["receiveJSON"; p]))
          ([], []) passes in
  if (0 <? length curr)%nat then chunks ++ [curr] else chunks.

Definition run_chunks (title : string) (chunks : list (list string))
    (self : JSOptimizer) : JSOptimizer :=
  match chunks with
  | [chunk] => run_passes chunk title false false self
  | _ =>
      foldl (λ self '(i, chunk),
               run_passes chunk ("js_opts_" +:+ pretty i)
                          (is_in "receiveJSON" chunk) (is_in "emitJSON" chunk) self)
            self (imap (λ (i : nat) chunk, (i, chunk)) chunks)
  end.

(** [flush] calls itself once per pass when [EMCC_DEBUG=2]; the fuel bounds
    the depth of these calls. *)
Fixpoint flush_rec (fuel : nat) (title : string) (self : JSOptimizer) : res JSOptimizer :=
  match fuel with
  | 0 => OutOfFuel
  | S fuel' =>
      let self := set_queue (List.filter (λ p, negb (is_in p (blacklist self))) (queue self)) self in
      _ ← assert (negb (WASM_BACKEND env)) "JSOptimizer should not run with pure wasm output";
      let self :=
        match extra_info self with
        | Some e => if bool_decide (size e = 0) then set_extra_info None self else self
        | None => self
        end in
      self ←
        (if (0 <? length (queue self))%nat
            && negb ((ASM_JS env =? 0)%nat && (length (queue self) =? 1)%nat
                     && String.eqb (default "" (head (queue self))) "last")
         then
           let passes := queue self in
           self ←
             (if negb (bool_decide (DEBUG env = Some "2")) || (length passes <? 2)%nat
              then Ret (run_chunks title
                          (make_chunks (4 <=? debug_level self)%nat passes) self)
              else
                (* DEBUG 2, run each pass separately *)
                let extra_info := extra_info self in
                for_each (λ self p,
                            self ← flush_rec fuel' p (set_queue [p] self);
                            Ret (set_extra_info extra_info self)) (* flush wipes it *)
                         self passes);
           let self := set_queue_history (queue_history self ++ queue self) self in
           Ret (set_queue [] self)
         else Ret self);
      Ret (set_extra_info (Some ∅) self)
  end.

Definition flush (self : JSOptimizer) : res JSOptimizer :=
  flush_rec 2 "js_opts" self.
End Flush.

End JSOpt.

(** ** Input files and precompiled headers: [emcc.run] *)

Module Inputs.

Definition C_ENDINGS := [".c"; ".C"; ".i"].
Definition CXX_ENDINGS := [".cpp"; ".cxx"; ".cc"; ".c++"; ".CPP"; ".CXX"; ".CC"; ".C++"; ".ii"].
Definition OBJC_ENDINGS := [".m"; ".mi"].
Definition OBJCXX_ENDINGS := [".mm"; ".mii"].
Definition SPECIAL_ENDINGLESS_FILENAMES := ["/dev/null"].
Definition SOURCE_ENDINGS :=
  C_ENDINGS ++ CXX_ENDINGS ++ OBJC_ENDINGS ++ OBJCXX_ENDINGS ++ SPECIAL_ENDINGLESS_FILENAMES.
Definition BITCODE_ENDINGS := [".bc"; ".o"; ".obj"; ".lo"].
Definition DYNAMICLIB_ENDINGS := [".dylib"; ".so"].
Definition STATICLIB_ENDINGS := [".a"].
Definition ASSEMBLY_ENDINGS := [".ll"].
Definition HEADER_ENDINGS := [".h"; ".hxx"; ".hpp"; ".hh"; ".H"; ".HXX"; ".HPP"; ".HH"].
Definition SUPPORTED_LINKER_FLAGS := ["--start-group"; "-("; "--end-group"; "-)"].
Definition LIB_PREFIXES := [""; "lib"].
Definition JS_CONTAINING_SUFFIXES := ["js"; "html"].

Definition is_in (x : string) (l : list string) : bool := existsb (String.eqb x) l.

(** [s.isdigit()] *)
Definition is_digit (c : ascii) : bool :=
  let n := nat_of_ascii c in (48 <=? n)%nat && (n <=? 57)%nat.

Fixpoint all_digits (s : string) : bool :=
  match s with
  | EmptyString => true
  | String c s' => is_digit c && all_digits s'
  end.

Definition isdigit (s : string) : bool := Py.truthy s && all_digits s.

(** Parses the essential suffix of a filename, discarding Unix-style version
    numbers in the name. *)
Definition filename_type_suffix (filename : string) : string :=
  default "" (find (λ i, negb (isdigit i)) (rev (drop 1 (Py.split "." filename)))).

Definition filename_type_ending (filename : string) : string :=
  if is_in filename SPECIAL_ENDINGLESS_FILENAMES then filename
  else
    let suffix := filename_type_suffix filename in
    if negb (Py.truthy suffix) then "" else "." +:+ suffix.

(** The arguments that are followed by a value, which is not an input. *)
Definition VALUE_FLAGS :=
  ["-MT"; "-MF"; "-MQ"; "-D"; "-U"; "-o"; "-x"; "-Xpreprocessor"; "-include";
   "-imacros"; "-idirafter"; "-iprefix"; "-iwithprefix"; "-iwithprefixbefore";
   "-isysroot"; "-imultilib"; "-A"; "-isystem"; "-iquote"; "-install_name";
   "-compatibility_version"; "-current_version"; "-I"; "-L"; "-include-pch"].

(** What the scan of the arguments builds. A link flag [-Wl,a,b] at index [i]
    gets the index [i + flag_index / count], kept as the three numbers. *)
Record Found := {
  newargs : list string;
  input_files : list (nat * string);
  libs : list (nat * string);
  link_flags : list ((nat * nat * nat) * string);
  lib_dirs : list string;
  has_source_inputs : bool;
  has_header_inputs : bool
}.

(** The options and settings read between the scan and the header compile. *)
Record Options := {
  has_fixed_language_mode : bool;
  specified_target : option string;
  bind : bool;
  ignore_dynamic_linking : bool;
  STB_IMAGE : bool;
  ASMFS : bool;
  FETCH : bool;
  USE_PTHREADS : bool;
  call : string;                 (* CXX or CC *)
  EMSDK_CXX_OPTS : list string;
  CC_ADDITIONAL_ARGS : list string
}.

(** A run ends with the commands it has executed so far. *)
Inductive ending :=
  | SystemExit (code : nat)
  | Failure (e : exn).

Inductive outcome (A : Type) :=
  | Next (a : A)
  | Stop (e : ending).
Arguments Next {A} a.
Arguments Stop {A} e.

Section Run.
(** The file system and the helpers of [tools.shared]. *)
Variable islink : string → bool.
Variable realpath : string → string.
Variable exists_ : string → bool.
Variable is_ar : string → bool.
Variable is_bitcode : string → bool.
Variable unsuffixed_basename : string → string.
Variable path_join : string → string → string.
Variable path_from_root : list string → string.
Variable process_args : list string → list string.
Variable opts : Options.

Definition set_arg (i : nat) (f : Found) : list string := <[i := ""]> (newargs f).

Definition strip_lib_prefix (l : string) : string :=
  default l
    ((λ prefix, substring (String.length prefix) (String.length l - String.length prefix) l)
       <$> find (λ prefix, Py.truthy prefix && Py.startswith l prefix) LIB_PREFIXES).

Definition INPUT_ENDINGS :=
  SOURCE_ENDINGS ++ BITCODE_ENDINGS ++ DYNAMICLIB_ENDINGS ++ ASSEMBLY_ENDINGS ++ HEADER_ENDINGS.

(** The body of [for i in range(len(newargs))]. *)
Definition find_input (f : Found) (i : nat) : outcome Found :=
  let arg := default "" (newargs f !! i) in
  let prev := default "" (newargs f !! (i - 1)) in
  if (0 <? i)%nat && is_in prev VALUE_FLAGS then Next f   (* ignore this gcc-style argument *)
  else
    let arg := if islink arg && Py.endswith_any (realpath arg) INPUT_ENDINGS
               then realpath arg else arg in
    let with_input (source header : bool) :=
      {| newargs := set_arg i f; input_files := input_files f ++ [(i, arg)];
         libs := libs f; link_flags := link_flags f; lib_dirs := lib_dirs f;
         has_source_inputs := has_source_inputs f || source;
         has_header_inputs := has_header_inputs f || header |} in
    if negb (Py.startswith arg "-") then
      if negb (exists_ arg)
      then Stop (Failure (ExitWithError (arg +:+ ": No such file or directory")))
      else
        let arg_ending := filename_type_ending arg in
        if Py.endswith_any arg_ending INPUT_ENDINGS || is_ar arg then
          (* we already removed -o <target>, so all these should be inputs *)
          if Py.endswith_any arg_ending SOURCE_ENDINGS then Next (with_input true false)
          else if Py.endswith_any arg_ending HEADER_ENDINGS then Next (with_input false true)
          else if Py.endswith_any arg_ending ASSEMBLY_ENDINGS || is_bitcode arg
          then Next (with_input false false)
          else if Py.endswith_any arg_ending (STATICLIB_ENDINGS ++ DYNAMICLIB_ENDINGS) then
            (* if it's not, and it's a library, just add it to libs to find later *)
            Next {| newargs := set_arg i f; input_files := input_files f;
                    libs := libs f ++ [(i, strip_lib_prefix (unsuffixed_basename arg))];
                    link_flags := link_flags f; lib_dirs := lib_dirs f;
                    has_source_inputs := has_source_inputs f;
                    has_header_inputs := has_header_inputs f |}
          else (* warning: not valid LLVM bitcode *)
            Next {| newargs := set_arg i f; input_files := input_files f;
                    libs := libs f; link_flags := link_flags f; lib_dirs := lib_dirs f;
                    has_source_inputs := has_source_inputs f;
                    has_header_inputs := has_header_inputs f |}
        else if Py.endswith_any arg_ending STATICLIB_ENDINGS then
          if negb (is_ar arg)
          then Stop (Failure (ExitWithError (arg +:+ ": not a static library")))
          else Next f
        else if has_fixed_language_mode opts then Next (with_input true false)
        else Stop (Failure (ExitWithError
                   (arg +:+ ": Input file has an unknown suffix, don't know what to do with it!")))
    else if Py.startswith arg "-L" then
      Next {| newargs := set_arg i f; input_files := input_files f; libs := libs f;
              link_flags := link_flags f;
              lib_dirs := lib_dirs f ++ [Py.tail (Py.tail arg)];
              has_source_inputs := has_source_inputs f;
              has_header_inputs := has_header_inputs f |}
    else if Py.startswith arg "-l" then
      Next {| newargs := set_arg i f; input_files := input_files f;
              libs := libs f ++ [(i, Py.tail (Py.tail arg))];
              link_flags := link_flags f; lib_dirs := lib_dirs f;
              has_source_inputs := has_source_inputs f;
              has_header_inputs := has_header_inputs f |}
    else if Py.startswith arg "-Wl," then
      let link_flags_to_add := drop 1 (Py.split "," arg) in
      Next {| newargs := set_arg i f; input_files := input_files f; libs := libs f;
              link_flags :=
                link_flags f ++
                omap (λ '(flag_index, flag),
                        if is_in flag SUPPORTED_LINKER_FLAGS
                        then Some ((i, flag_index, length link_flags_to_add), flag)
                        else None)
                     (imap (λ (k : nat) flag, (k, flag)) link_flags_to_add);
              lib_dirs := lib_dirs f;
              has_source_inputs := has_source_inputs f;
              has_header_inputs := has_header_inputs f |}
    else Next f.

Fixpoint for_range (body : Found → nat → outcome Found) (f : Found) (indices : list nat)
    : outcome Found :=
  match indices with
  | [] => Next f
  | i :: is' =>
      match body f i with
      | Next f' => for_range body f' is'
      | Stop e => Stop e
      end
  end.

(** Find input files. *)
Definition find_inputs (args : list string) : outcome Found :=
  for_range find_input
    {| newargs := args; input_files := []; libs := []; link_flags := [];
       lib_dirs := [path_from_root ["system"; "local"; "lib"];
                    path_from_root ["system"; "lib"]];
       has_source_inputs := false; has_header_inputs := false |}
    (seq 0 (length args)).

(** What [system_js_libraries_setting_str] appends to [input_files]: for
    every [-l] library, the first file found under a prefix, an ending and
    a directory, in this order of the three loops. *)
Definition find_library (lib_dirs : list string) (lib : string) : option string :=
  head (filter (λ path, exists_ path = true)
          (prefix ← LIB_PREFIXES;
           suff ← STATICLIB_ENDINGS ++ DYNAMICLIB_ENDINGS;
           lib_dir ← lib_dirs;
           [path_join lib_dir (prefix +:+ lib +:+ suff)])).

Definition found_libraries (f : Found) : list (nat * string) :=
  omap (λ '(i, lib), (λ path, (i, path)) <$> find_library (lib_dirs f) lib) (libs f).

(** The input files once the scan is over and up to the header compile:
    libraries found on the search path, dynamic libraries dropped when not
    linking to JS or HTML, and the sources that some options pull in. *)
Definition all_input_files (final_suffix target_suffix : string) (f : Found)
    : outcome (list (nat * string)) :=
  let next_arg_index := length (newargs f) in
  let input_files := input_files f ++ found_libraries f in
  let input_files :=
    if negb (is_in target_suffix JS_CONTAINING_SUFFIXES) || ignore_dynamic_linking opts
    then List.filter (λ x, negb (is_in (filename_type_ending x.2) DYNAMICLIB_ENDINGS))
                     input_files
    else input_files in
  if (length input_files =? 0)%nat then Stop (Failure (ExitWithError "no input files"))
  else
    let js := is_in final_suffix JS_CONTAINING_SUFFIXES in
    let '(input_files, next_arg_index) :=
      if bind opts && js
      then (input_files ++ [(next_arg_index, path_from_root ["system"; "lib"; "embind"; "bind.cpp"])],
            S next_arg_index)
      else (input_files, next_arg_index) in
    let '(input_files, next_arg_index) :=
      if STB_IMAGE opts && js
      then (input_files ++ [(next_arg_index, path_from_root ["third_party"; "stb_image.c"])],
            S next_arg_index)
      else (input_files, next_arg_index) in
    if ASMFS opts && js && negb (USE_PTHREADS opts)
    then Stop (Failure (ExitWithError "-s ASMFS=1 requires either -s USE_PTHREADS=1 or -s USE_PTHREADS=2 to be set!"))
    else
      let '(input_files, next_arg_index) :=
        if ASMFS opts && js
        then (input_files ++ [(next_arg_index, path_from_root ["system"; "lib"; "fetch"; "asmfs.cpp"])],
              S next_arg_index)
        else (input_files, next_arg_index) in
      let fetch := FETCH opts || (ASMFS opts && js) in
      let input_files :=
        if fetch && js
        then input_files ++ [(next_arg_index, path_from_root ["system"; "lib"; "fetch"; "emscripten_fetch.cpp"])]
        else input_files in
      Next input_files.

(** Precompiled headers support: the head of the block 'bitcodeize inputs'.
    The result lists the commands executed; [Next] means that the build
    goes on with the other stages. *)
Definition precompile_headers (has_header_inputs : bool) (newargs : list string)
    (input_files : list (nat * string)) : list (list string) * outcome unit :=
  if has_header_inputs then
    let headers := snd <$> input_files in
    if negb (forallb (λ header, Py.endswith_any header HEADER_ENDINGS) headers)
    then ([], Stop (Failure (AssertionError
           "if you have one header input, we assume you want to precompile headers, and cannot have source files or other inputs as well")))
    else
      let args := newargs ++ EMSDK_CXX_OPTS opts ++ headers in
      let args := match specified_target opts with
                  | Some t => if Py.truthy t then args ++ ["-o"; t] else args
                  | None => args
                  end in
      let args := process_args args in
      ([call opts :: args], Stop (SystemExit 0))
  else ([], Next tt).

(** From the scan of the arguments to the header compile. The code between
    the two only reads the inputs where [all_input_files] follows it. *)
Definition inputs_stage (final_suffix target_suffix : string) (args : list string)
    : list (list string) * outcome unit :=
  match find_inputs args with
  | Stop e => ([], Stop e)
  | Next f =>
      let newargs := List.filter (λ arg, negb (String.eqb arg "")) (newargs f) in
      let has_dash_c := is_in "-c" newargs in
      if has_dash_c && negb (has_source_inputs f || has_header_inputs f)
      then ([], Stop (Failure (AssertionError "Must have source code or header inputs to use -c")))
      else
        let final_suffix := if has_dash_c then "o" else final_suffix in
        let target_suffix := if has_dash_c then "o" else target_suffix in
        let final_suffix := if is_in "-E" newargs then "eout" else final_suffix in
        let final_suffix :=
          if is_in "-M" newargs || is_in "-MM" newargs then "mout" else final_suffix in
        match all_input_files final_suffix target_suffix f with
        | Stop e => ([], Stop e)
        | Next input_files =>
            let newargs := CC_ADDITIONAL_ARGS opts ++ newargs in
            precompile_headers (has_header_inputs f) newargs input_files
        end
  end.
End Run.

End Inputs.

(** ** The link step of [emcc.run] *)

Module Link.

(** Files by path. *)
Abbreviation FS := (gmap string string).

(** [final] is a list when linking is deferred, otherwise a path. *)
Inductive final_value :=
  | Path (p : string)
  | Deferred (inputs : list string).

Inductive action :=
  | Linked (inputs : list string) (out : string)
           (force_archive_contents just_calculate : bool)   (* shared.Building.link *)
  | Moved (src dst : string)                                (* shutil.move *)
  | Copied (src dst : string).                              (* shutil.copyfile *)

Definition is_link (a : action) : bool :=
  match a with
  | Linked _ _ _ _ => true
  | _ => false
  end.

Record LinkState := {
  final : final_value;
  fs : FS;
  actions : list action
}.

Definition shutil_move (src dst : string) (fs : FS) : res FS :=
  match fs !! src with
  | None => Raise (Exception "IOError")
  | Some content => Ret (<[dst := content]> (delete src fs))
  end.

Definition shutil_copyfile (src dst : string) (fs : FS) : res FS :=
  if String.eqb src dst then Raise (Exception "shutil.Error: same file")
  else match fs !! src with
       | None => Raise (Exception "IOError")
       | Some content => Ret (<[dst := content]> fs)
       end.

Record LinkEnv := {
  LEAVE_INPUTS_RAW : bool;
  DEBUG : option string;
  WASM_BACKEND : bool;
  can_build_standalone : bool;
  target_basename : string
}.

Section LinkStage.
(** [tools.shared.suffix], [shared.Building.is_ar], [in_temp], and the
    effect of [shared.Building.link] on the files. *)
Variable suffix : string → option string.
Variable is_ar : string → bool.
Variable in_temp : string → string.
Variable Building_link : list string → string → bool → bool → FS → final_value * FS.
Variable env : LinkEnv.

Definition in_endings (s : option string) (endings : list string) : bool :=
  match s with
  | None => false
  | Some x => Inputs.is_in x endings
  end.

(** We must also link if we have a singleton .a *)
Definition singleton_archive (temp_files : list (nat * string)) : res bool :=
  if LEAVE_INPUTS_RAW env then Ret false
  else match temp_files with
       | [] => Raise IndexError
       | (_, t) :: _ =>
           Ret (negb (in_endings (suffix t) Inputs.BITCODE_ENDINGS
                      || in_endings (suffix t) Inputs.DYNAMICLIB_ENDINGS)
                && is_ar t)
       end.

Definition must_link (input_files temp_files : list (nat * string))
    (extra_files_to_link : list string) : res bool :=
  if (1 <? length input_files + length extra_files_to_link)%nat then Ret true
  else singleton_archive temp_files.

Definition first_file (l : list (nat * string)) : res string :=
  match l with
  | [] => Raise IndexError
  | (_, f) :: _ => Ret f
  end.

Definition link_stage (input_files temp_files : list (nat * string))
    (extra_files_to_link linker_inputs : list string) (fs0 : FS) : res LinkState :=
  let DEFAULT_FINAL := in_temp (target_basename env +:+ ".bc") in
  (* First, combine the bitcode files if there are several. *)
  link ← must_link input_files temp_files extra_files_to_link;
  if link : bool then
    let linker_inputs := linker_inputs ++ extra_files_to_link in
    (* force archive contents to all be included, if just archives, or if linking shared modules *)
    let force_archive_contents :=
      (length (List.filter (λ x, negb (Py.endswith_any x.2 Inputs.STATICLIB_ENDINGS))
                           temp_files) =? 0)%nat
      || negb (can_build_standalone env) in
    let just_calculate :=
      negb (bool_decide (DEBUG env = Some "2")) && negb (WASM_BACKEND env) in
    let '(final, fs1) :=
      Building_link linker_inputs DEFAULT_FINAL force_archive_contents just_calculate fs0 in
    Ret {| final := final; fs := fs1;
           actions := [Linked linker_inputs DEFAULT_FINAL force_archive_contents just_calculate] |}
  else if negb (LEAVE_INPUTS_RAW env) then
    temp_file ← first_file temp_files;
    input_file ← first_file input_files;
    let final := in_temp (target_basename env +:+ ".bc") in
    if negb (String.eqb temp_file input_file) then
      fs1 ← shutil_move temp_file final fs0;
      Ret {| final := Path final; fs := fs1; actions := [Moved temp_file final] |}
    else
      fs1 ← shutil_copyfile temp_file final fs0;
      Ret {| final := Path final; fs := fs1; actions := [Copied temp_file final] |}
  else
    input_file ← first_file input_files;
    let final := in_temp input_file in
    fs1 ← shutil_copyfile input_file final fs0;
    Ret {| final := Path final; fs := fs1; actions := [Copied input_file final] |}.
End LinkStage.

(** Modelled from the spec: the linker itself, [shared.Building.link], is not
    in these sources. Section 4.5 of the specification describes linking as
    the concatenation of the IR objects of the compiled units and of the
    resolved libraries into one linked module; [link_model] is that
    concatenation over the contents of the objects. *)
Definition link_model (objects : list string) : string :=
  foldr String.append "" objects.

End Link.

(** ** The memory initializer of [emcc.run] *)

Module MemInit.

Definition is_space (c : ascii) : bool :=
  let n := nat_of_ascii c in (n =? 32)%nat || ((9 <=? n)%nat && (n <=? 13)%nat).

Fixpoint lstrip (s : string) : string :=
  match s with
  | String c s' => if is_space c then lstrip s' else s
  | EmptyString => EmptyString
  end.

(** The digits of [s], most significant first, added to [acc]; trailing
    whitespace is accepted, anything else is not a number. *)
Fixpoint digits (acc : Z) (seen : bool) (s : string) : option Z :=
  match s with
  | EmptyString => if seen then Some acc else None
  | String c s' =>
      if Inputs.is_digit c
      then digits (10 * acc + Z.of_nat (nat_of_ascii c - 48)) true s'
      else if seen && negb (Py.truthy (lstrip s)) then Some acc else None
  end.

(** [int(x)] on a string, in base ten. *)
Definition py_int (x : string) : res Z :=
  let x := lstrip x in
  let r := match x with
           | String "-" x' => Z.opp <$> digits 0 false x'
           | String "+" x' => digits 0 false x'
           | _ => digits 0 false x
           end in
  match r with
  | Some n => Ret n
  | None => Raise (ValueError "invalid literal for int() with base 10")
  end.

(** [while membytes and membytes[-1] == 0: membytes.pop()] *)
Fixpoint pop_zeros (membytes : list Z) : list Z :=
  match membytes with
  | [] => []
  | b :: rest =>
      match pop_zeros rest with
      | [] => if (b =? 0)%Z then [] else [b]
      | rest' => b :: rest'
      end
  end.

(** [''.join(map(chr, membytes))]: [chr] wants a value in [range(256)]. *)
Definition chr_all (membytes : list Z) : res (list Z) :=
  if forallb (λ b, (0 <=? b)%Z && (b <? 256)%Z) membytes then Ret membytes
  else Raise (ValueError "chr() arg not in range(256)").

(** [[int(x or '0') for x in s.split(',')]] *)
Definition parse_initializer (s : string) : res (list Z) :=
  mapM (M := res) (λ x, py_int (if Py.truthy x then x else "0")) (Py.split "," s).

Definition dq : string := String "034" EmptyString.

Inductive file_event :=
  | Deleted (path : string)                       (* shared.try_delete *)
  | WroteBlob (path : string) (bytes : list Z)    (* open(memfile, 'wb').write *)
  | CopiedToTemp (path : string)                  (* shared.safe_copy *)
  | WroteText (path : string) (text : string).

Definition is_blob_write (e : file_event) : bool :=
  match e with
  | WroteBlob _ _ => true
  | _ => false
  end.

Record MemSettings := {
  MEM_INIT_METHOD : nat;
  memory_init_file : bool;        (* options.memory_init_file *)
  BINARYEN : bool;
  MAIN_MODULE : bool;
  SIDE_MODULE : bool;
  debug_level : nat;
  DEBUG : option string
}.

Section MemoryInitializer.
(** [shared.JS.generate_string_initializer], [os.path.basename],
    [shared.JS.optimize_initializer], and the first match of
    [shared.JS.memory_initializer_pattern] in a text: the text before the
    match, its group 1 and the text after the match. *)
Variable generate_string_initializer : list Z → string.
Variable basename : string → string.
Variable optimize_initializer : string → option string.
Variable pattern_search : string → option (string * string * string).
Variable cfg : MemSettings.

(** The three statements that can take the place of the initializer. *)
Definition inline_statement (membytes : list Z) : string :=
  "memoryInitializer = '" +:+ generate_string_initializer membytes +:+ "';".

Definition file_statement (memfile : string) : string :=
  "memoryInitializer = " +:+ dq +:+ basename memfile +:+ dq +:+ ";".

Definition wasm_statement (memfile : string) : string :=
  "memoryInitializer = Module[" +:+ dq +:+ "wasmJSMethod" +:+ dq +:+ "].indexOf("
  +:+ dq +:+ "asmjs" +:+ dq +:+ ") >= 0 || Module[" +:+ dq +:+ "wasmJSMethod"
  +:+ dq +:+ "].indexOf(" +:+ dq +:+ "interpret-asm2wasm" +:+ dq +:+ ") >= 0 ? "
  +:+ dq +:+ basename memfile +:+ dq +:+ " : null;".

(** [repl(m)], with [s = m.group(1)]: the replacement text and the files
    touched. *)
Definition repl (memfile : string) (s : string) : res (string * list file_event) :=
  (* handle chunking of the memory initializer *)
  if (String.length s =? 0)%nat then Ret ("", [])   (* don't emit 0-size ones *)
  else
    membytes ← parse_initializer s;
    let membytes := pop_zeros membytes in
    if (length membytes =? 0)%nat then Ret ("", [])
    else if negb (memory_init_file cfg) then
      (* memory initializer in a string literal *)
      Ret (inline_statement membytes, [])
    else
      bytes ← chr_all membytes;
      let events :=
        WroteBlob memfile bytes ::
        (if Py.env_truthy (DEBUG cfg) then [CopiedToTemp memfile] else []) in
      if negb (BINARYEN cfg)
      then Ret (file_statement memfile, events)
      else
        (* with wasm, we may have the mem init file in the wasm binary already *)
        Ret (wasm_statement memfile, events).

(** [re.sub(pattern, repl, text, count=1)] *)
Definition sub_once (memfile : string) (text : string) : res (string * list file_event) :=
  match pattern_search text with
  | None => Ret (text, [])
  | Some (before, group1, after) =>
      '(replacement, events) ← repl memfile group1;
      Ret (before +:+ replacement +:+ after, events)
  end.

Record MemResult := {
  memfile : option string;
  final : string;
  events : list file_event
}.

(** The block 'memory initializer'; [text] is what [final] holds. *)
Definition memory_initializer (target final text : string) : res MemResult :=
  if (0 <? MEM_INIT_METHOD cfg)%nat then
    let memfile := target +:+ ".mem" in
    '(src, events) ← sub_once memfile text;
    Ret {| memfile := Some memfile; final := final +:+ ".mem.js";
           events := Deleted memfile :: events ++ [WroteText (final +:+ ".mem.js") src] |}
  else if negb (MAIN_MODULE cfg) && negb (SIDE_MODULE cfg) && (debug_level cfg <? 4)%nat then
    (* not writing a binary init, but we can at least optimize them by splitting them up *)
    match optimize_initializer text with
    | Some src =>
        Ret {| memfile := None; final := final +:+ ".mem.js";
               events := [WroteText (final +:+ ".mem.js") src] |}
    | None => Ret {| memfile := None; final := final; events := [] |}
    end
  else Ret {| memfile := None; final := final; events := [] |}.
End MemoryInitializer.

End MemInit.

(** ** The HTML harness: [emcc.generate_html] and [emcc.ScriptSource] *)

Module Html.

Definition dq : string := MemInit.dq.
Definition nl : string := String "010" EmptyString.

(** [class ScriptSource]: [None] is Python's [None]. *)
Record ScriptSource := {
  src : option string;      (* if set, we have a script to load with a src attribute *)
  inline : option string    (* if set, we have the contents of a script to write inline in a script *)
}.

Definition ScriptSource_init : ScriptSource := {| src := None; inline := None |}.

(** ['%s' % x] *)
Definition str (x : option string) : string := default "None" x.

(** The truth value of a field: set, and not the empty string. *)
Definition truth (x : option string) : bool :=
  match x with
  | None => false
  | Some s => Py.truthy s
  end.

Definition loader (s : string) : string :=
  nl +:+ "          var script = document.createElement('script');" +:+ nl +:+
  "          script.src = " +:+ dq +:+ s +:+ dq +:+ ";" +:+ nl +:+
  "          document.body.appendChild(script);" +:+ nl.

(** Use this if you want to modify the script and need it to be inline. *)
Definition un_src (self : ScriptSource) : ScriptSource :=
  match src self with
  | None => self
  | Some s => {| src := None; inline := Some (loader s) |}
  end.

Section Replacement.
Variable urllib_quote : string → string.

(** Returns the script tag to replace the {{{ SCRIPT }}} tag in the target *)
Definition replacement (self : ScriptSource) : res string :=
  _ ← assert ((truth (src self) || truth (inline self))
              && negb (truth (src self) && truth (inline self))) "";
  if truth (src self)
  then Ret ("<script async type=" +:+ dq +:+ "text/javascript" +:+ dq +:+ " src=" +:+ dq
            +:+ urllib_quote (str (src self)) +:+ dq +:+ "></script>")
  else Ret ("<script>" +:+ nl +:+ str (inline self) +:+ nl +:+ "</script>").
End Replacement.

Definition set_inline (text : string) (self : ScriptSource) : ScriptSource :=
  {| src := src self; inline := Some text |}.

Definition set_src (s : string) (self : ScriptSource) : ScriptSource :=
  {| src := Some s; inline := inline self |}.

Record HtmlSettings := {
  proxy_to_worker : bool;
  PROXY_TO_WORKER_FILENAME : string;
  EMTERPRETIFY_FILE : string;
  memory_init_file : bool;
  separate_asm : bool;
  BINARYEN : bool;
  BINARYEN_METHOD : string;
  BINARYEN_ASYNC_COMPILATION : bool
}.

(** [x in s] for strings *)
Fixpoint contains (s x : string) : bool :=
  String.prefix x s ||
  match s with
  | EmptyString => false
  | String _ s' => contains s' x
  end.

Section GenerateHtml.
Variable basename : string → string.
Variable worker_js_script : string → string.
Variable get_mods : list string.          (* client_mods.get_mods(...) *)
Variable cfg : HtmlSettings.

Definition proxy_script (target_basename : string) : string :=
  let proxy_worker_filename :=
    if Py.truthy (PROXY_TO_WORKER_FILENAME cfg) then PROXY_TO_WORKER_FILENAME cfg
    else target_basename in
  nl +:+ "  if ((',' + window.location.search.substr(1) + ',').indexOf(',noProxy,') < 0) {" +:+ nl +:+
  "    console.log('running code in a web worker');" +:+ nl +:+
  worker_js_script proxy_worker_filename +:+ nl +:+
  "  } else {" +:+ nl +:+
  "    // note: no support for code mods (PRECISE_F32==2)" +:+ nl +:+
  "    console.log('running code on the main thread');" +:+ nl +:+
  "    var script = document.createElement('script');" +:+ nl +:+
  "    script.src = " +:+ dq +:+ proxy_worker_filename +:+ ".js" +:+ dq +:+ ";" +:+ nl +:+
  "    document.body.appendChild(script);" +:+ nl +:+
  "  }" +:+ nl.

Definition emterpreter_wrap (file inner : string) : string :=
  nl +:+ "          var emterpretXHR = new XMLHttpRequest();" +:+ nl +:+
  "          emterpretXHR.open('GET', '" +:+ file +:+ "', true);" +:+ nl +:+
  "          emterpretXHR.responseType = 'arraybuffer';" +:+ nl +:+
  "          emterpretXHR.onload = function() {" +:+ nl +:+
  "            Module.emterpreterFile = emterpretXHR.response;" +:+ nl +:+
  inner +:+ nl +:+
  "          };" +:+ nl +:+
  "          emterpretXHR.send(null);" +:+ nl.

Definition meminit_prefix (file : string) : string :=
  nl +:+ "          (function() {" +:+ nl +:+
  "            var memoryInitializer = '" +:+ file +:+ "';" +:+ nl +:+
  "            if (typeof Module['locateFile'] === 'function') {" +:+ nl +:+
  "              memoryInitializer = Module['locateFile'](memoryInitializer);" +:+ nl +:+
  "            } else if (Module['memoryInitializerPrefixURL']) {" +:+ nl +:+
  "              memoryInitializer = Module['memoryInitializerPrefixURL'] + memoryInitializer;" +:+ nl +:+
  "            }" +:+ nl +:+
  "            var meminitXHR = Module['memoryInitializerRequest'] = new XMLHttpRequest();" +:+ nl +:+
  "            meminitXHR.open('GET', memoryInitializer, true);" +:+ nl +:+
  "            meminitXHR.responseType = 'arraybuffer';" +:+ nl +:+
  "            meminitXHR.send(null);" +:+ nl +:+
  "          })();" +:+ nl.

Definition asm_wrap (file inner : string) : string :=
  nl +:+ "    var script = document.createElement('script');" +:+ nl +:+
  "    script.src = " +:+ dq +:+ file +:+ dq +:+ ";" +:+ nl +:+
  "    script.onload = function() {" +:+ nl +:+
  "      setTimeout(function() {" +:+ nl +:+
  "        " +:+ inner +:+ nl +:+
  "      }, 1); // delaying even 1ms is enough to allow compilation memory to be reclaimed" +:+ nl +:+
  "    };" +:+ nl +:+
  "    document.body.appendChild(script);" +:+ nl.

Definition asm_mods_wrap (file mods inner : string) : string :=
  nl +:+ "    var codeXHR = new XMLHttpRequest();" +:+ nl +:+
  "    codeXHR.open('GET', '" +:+ file +:+ "', true);" +:+ nl +:+
  "    codeXHR.onload = function() {" +:+ nl +:+
  "      var code = codeXHR.responseText;" +:+ nl +:+
  "      " +:+ mods +:+ nl +:+
  "      var blob = new Blob([code], { type: 'text/javascript' });" +:+ nl +:+
  "      codeXHR = null;" +:+ nl +:+
  "      var src = URL.createObjectURL(blob);" +:+ nl +:+
  "      var script = document.createElement('script');" +:+ nl +:+
  "      script.src = src;" +:+ nl +:+
  "      script.onload = function() {" +:+ nl +:+
  "        setTimeout(function() {" +:+ nl +:+
  "          " +:+ inner +:+ nl +:+
  "        }, 1); // delaying even 1ms is enough to allow compilation memory to be reclaimed" +:+ nl +:+
  "        URL.revokeObjectURL(script.src);" +:+ nl +:+
  "      };" +:+ nl +:+
  "      document.body.appendChild(script);" +:+ nl +:+
  "    };" +:+ nl +:+
  "    codeXHR.send(null);" +:+ nl.

Definition wasm_wrap (file inner : string) : string :=
  nl +:+ "          var wasmXHR = new XMLHttpRequest();" +:+ nl +:+
  "          wasmXHR.open('GET', '" +:+ file +:+ "', true);" +:+ nl +:+
  "          wasmXHR.responseType = 'arraybuffer';" +:+ nl +:+
  "          wasmXHR.onload = function() {" +:+ nl +:+
  "            Module.wasmBinary = wasmXHR.response;" +:+ nl +:+
  inner +:+ nl +:+
  "          };" +:+ nl +:+
  "          wasmXHR.send(null);" +:+ nl.

(** The first step: a worker proxy written inline, or a reference to the
    generated script. *)
Definition step_start (js_target target_basename : string) (script : ScriptSource)
    : ScriptSource * list string :=
  if proxy_to_worker cfg
  then (set_inline (proxy_script target_basename) script, [])
  else (set_src (basename js_target) script, get_mods).

(** We need to load the emterpreter file before anything else. *)
Definition step_emterpreter (script : ScriptSource) : ScriptSource :=
  if Py.truthy (EMTERPRETIFY_FILE cfg) then
    let script := un_src script in
    set_inline (emterpreter_wrap (EMTERPRETIFY_FILE cfg) (str (inline script))) script
  else script.

(** Start to load the memory init file in the HTML, in parallel with the JS. *)
Definition step_meminit (memfile : option string) (script : ScriptSource)
    : res ScriptSource :=
  if memory_init_file cfg then
    let script := un_src script in
    match memfile, inline script with
    | None, _ => Raise AttributeError        (* os.path.basename(None) *)
    | Some m, None => Raise TypeError        (* str + None *)
    | Some m, Some text => Ret (set_inline (meminit_prefix (basename m) +:+ text) script)
    end
  else Ret script.

(** Download .asm.js if --separate-asm was passed in an asm.js build, or if
    'asmjs' is one of the wasm run methods. *)
Definition step_separate_asm (asm_target : string) (asm_mods : list string)
    (script : ScriptSource) : res ScriptSource :=
  if negb (separate_asm cfg)
     || (BINARYEN cfg && negb (contains (BINARYEN_METHOD cfg) "asmjs")) then
    _ ← assert (length asm_mods =? 0)%nat
          "no --separate-asm means no client code mods are possible";
    Ret script
  else
    let script := un_src script in
    if (length asm_mods =? 0)%nat
    then Ret (set_inline (asm_wrap (basename asm_target) (str (inline script))) script)
    else Ret (set_inline (asm_mods_wrap (basename asm_target) (Py.join nl asm_mods)
                                        (str (inline script))) script).

(** We need to load the wasm file before anything else. *)
Definition step_wasm (wasm_binary_target : string) (script : ScriptSource) : ScriptSource :=
  if BINARYEN cfg && negb (BINARYEN_ASYNC_COMPILATION cfg) then
    let script := un_src script in
    set_inline (wasm_wrap (basename wasm_binary_target) (str (inline script))) script
  else script.

(** [generate_html] up to the call of [replacement]: the value of [script]
    there. *)
Definition build_script (shell js_target target_basename asm_target
    wasm_binary_target : string) (memfile : option string) : res ScriptSource :=
  let script := ScriptSource_init in
  _ ← assert (contains shell "{{{ SCRIPT }}}")
        "HTML shell must contain  {{{ SCRIPT }}}  , see src/shell.html for an example";
  let '(script, asm_mods) := step_start js_target target_basename script in
  let script := step_emterpreter script in
  script ← step_meminit memfile script;
  script ← step_separate_asm asm_target asm_mods script;
  Ret (step_wasm wasm_binary_target script).

(** The script tag that [generate_html] puts in place of {{{ SCRIPT }}}. *)
Definition script_tag (urllib_quote : string → string)
    (shell js_target target_basename asm_target wasm_binary_target : string)
    (memfile : option string) : res string :=
  script ← build_script shell js_target target_basename asm_target
             wasm_binary_target memfile;
  replacement urllib_quote script.
End GenerateHtml.

End Html.

(** ** Predicates used in the statements, and concrete runs *)

Module ResolverSpec.
Import SystemLibs.

(** [b] stands in the dependency list of the registered library named [a]. *)
Definition depends_on (libs : list Library) (a b : string) : Prop :=
  ∃ l, l ∈ libs ∧ shortname l = a ∧ b ∈ deps l.

Definition cyclic (libs : list Library) : Prop :=
  ∃ a, tc (depends_on libs) a a.

(** A build of one object file that uses [std::cout]: default settings, no
    forced library. *)
Definition ex_cache (name : string) : string := "/cache/" +:+ name.

Definition ex_files : SymbolFiles :=
  {| libc_symbols := ["malloc"; "printf"];
     libcxx_symbols := ["_ZNSt3__14coutE"];
     libcxxabi_symbols := ["__cxa_throw"];
     gl_symbols := ["glClear"];
     al_symbols := ["alGetError"];
     compiler_rt_symbols := ["__muldc3"];
     libc_extras_symbols := ["getprogname"];
     pthreads_symbols := ["pthread_create"];
     asmjs_pthreads_symbols := ["emscripten_atomic_add_u64"];
     stub_pthreads_symbols := ["pthread_join"];
     wasm_libc_symbols := ["cos"];
     html5_symbols := ["emscripten_set_click_callback"] |}.

Definition ex_settings : Settings :=
  {| WASM_OBJECT_FILES := false; WASM := false; USE_PTHREADS := false;
     WASM_BACKEND := false; LEGACY_GL_EMULATION := false; USE_WEBGL2 := false;
     DISABLE_EXCEPTION_CATCHING := false; MALLOC := "dlmalloc"; DEBUG_LEVEL := 0;
     SUPPORT_ERRNO := true; EMSCRIPTEN_TRACING := false;
     EXPORTED_FUNCTIONS := ["_main"] |}.

Definition ex_env : Environ :=
  {| EMCC_FORCE_STDLIBS := None; EMCC_ONLY_FORCED_STDLIBS := None |}.

Definition ex_nm (files : list string) : list Symbols :=
  (λ _, {| defs := {["main"]}; undefs := {["_ZNSt3__14coutE"]} |}) <$> files.

Definition ex_abspath (f : string) : string := "/src/" +:+ f.

Definition ex_calculate (forced : list string) : run (list string) :=
  calculate ex_cache ex_nm ex_abspath ex_settings ex_env ex_files [] ["a.o"] forced.

Definition ex_libs : list Library := make_system_libs ex_settings ex_files "libdlmalloc".

Definition ex_symbolses : list Symbols :=
  [{| defs := {["main"]}; undefs := {["main"; "_ZNSt3__14coutE"]} |}].

Definition ex_always : gset string := make_always_include ex_settings "libdlmalloc".

Definition ex_start : RState := init_state ex_abspath ex_settings ex_env ["a.o"].

(** The state in which the scan of [ex_libs] ends. *)
Definition ex_scanned : RState :=
  match scan_libs ex_cache ex_settings ex_libs ex_always ∅ false ex_symbolses ex_start with
  | Done _ st => st
  | _ => ex_start
  end.

Definition ex_libc : Library :=
  {| shortname := "libc"; suffix := "bc"; create := create_libc;
     symbols := ["malloc"; "printf"]; deps := ["libcompiler_rt"];
     can_noexcept := false |}.

(** The link line and the state with which [ex_calculate []] ends. *)
Definition ex_ret : list string :=
  match ex_calculate [] with
  | Done ret _ => ret
  | _ => []
  end.

Definition ex_final : RState :=
  match ex_calculate [] with
  | Done _ st => st
  | _ => ex_start
  end.

End ResolverSpec.

Module ResponseSpec.
Import ResponseFile.

(** An argument that the scan for response files steps over. *)
Definition plain (t : string) : bool :=
  match t with
  | EmptyString => false
  | String c _ => negb (Ascii.eqb c "@")
  end.

(** Three response files: the flags of the scenario, a file that names
    another file, and a file with the marker that [em++] passes to [emcc]. *)
Definition ex_fs : string → option string :=
  files [("args.txt", "-O2 -o out.bin");
         ("nest.rsp", "-g @args.txt");
         ("cxx.rsp", "--emscripten-cxx")].

Definition ex_run (fuel : nat) (sys_argv : list string) : res ParsedArgv :=
  run_arguments ex_fs words fuel None sys_argv.

End ResponseSpec.

Module JSOptSpec.
Import JSOpt.

(** The queue once the blacklisted passes are taken out. *)
Definition kept (o : JSOptimizer) : list string :=
  List.filter (λ p, negb (is_in p (blacklist o))) (queue o).

(** The queue that [flush] leaves alone: the single pass 'last' when the
    code is not asm.js. *)
Definition lone_last (env : Env) (q : list string) : bool :=
  (ASM_JS env =? 0) && (length q =? 1) && String.eqb (default "" (head q)) "last".

(** An optimizer as [JSOptimizer(...)] builds it, with a queue. *)
Definition ex_optimizer (q : list string) (info : gmap string string) : JSOptimizer :=
  {| queue := q; extra_info := Some info; queue_history := []; blacklist := [""];
     minify_whitespace := false; cleanup_shell := false; target := "a.out.js";
     opt_level := 2; debug_level := 0; emit_symbol_map := false;
     profiling_funcs := false; use_closure_compiler := 0; misc_temp_files := [];
     js_transform_tempfiles := ["a.out.js"]; final := "a.out.js";
     optimizer_calls := []; intermediates := [] |}.

Definition ex_env (asm_js : nat) (debug : option string) : Env :=
  {| WASM_BACKEND := false; ASM_JS := asm_js; PRECISE_F32 := 0; CYBERDWARF := false;
     DEBUG := debug |}.

Definition ex_use_native (pass : string) (source_map : bool) : bool :=
  Py.startswith pass "registerize".

Definition ex_js_optimizer (c : OptimizerCall) : string := call_input c +:+ ".jso.js".

Definition ex_flush (asm_js : nat) (debug : option string) (o : JSOptimizer)
    : res JSOptimizer :=
  flush (ex_env asm_js debug) ex_use_native ex_js_optimizer o.

End JSOptSpec.

Module InputsSpec.
Import Inputs.

(** Whether some option adds a source file of emscripten's own to the
    inputs of a build to JS or HTML. *)
Definition implicit_sources (opts : Options) (final_suffix : string) : bool :=
  (bind opts || STB_IMAGE opts || ASMFS opts || FETCH opts)
  && is_in final_suffix JS_CONTAINING_SUFFIXES.

(** The command line of the header compile. *)
Definition header_command (opts : Options) (process_args : list string → list string)
    (headers : list string) : list string :=
  call opts ::
  process_args
    (CC_ADDITIONAL_ARGS opts ++ EMSDK_CXX_OPTS opts ++ headers ++
     match specified_target opts with
     | Some t => if Py.truthy t then ["-o"; t] else []
     | None => []
     end).

(** An argument that the scan takes for a header: a regular file whose
    name is not a flag, whose type ending is a header ending and not a source
    ending, and whose name ends with a header ending. *)
Definition header_file (islink exists_ : string → bool) (h : string) : bool :=
  negb (islink h) && negb (Py.startswith h "-") && exists_ h
  && negb (Py.endswith_any (filename_type_ending h) SOURCE_ENDINGS)
  && Py.endswith_any (filename_type_ending h) HEADER_ENDINGS
  && Py.endswith_any h HEADER_ENDINGS.

Definition ASSERT_HEADERS : string :=
  "if you have one header input, we assume you want to precompile headers, and cannot have source files or other inputs as well".

(** A file system in which every name is a regular file, no file is an
    archive, and the bitcode files are those named [*.o] and [*.bc]. *)
Definition ex_opts : Options :=
  {| has_fixed_language_mode := false; specified_target := None; bind := false;
     ignore_dynamic_linking := false; STB_IMAGE := false; ASMFS := false;
     FETCH := false; USE_PTHREADS := false; call := "em++";
     EMSDK_CXX_OPTS := ["-std=c++03"]; CC_ADDITIONAL_ARGS := [] |}.

Definition ex_is_bitcode (f : string) : bool := Py.endswith_any f [".o"; ".bc"].

Definition ex_path_join (a b : string) : string := a +:+ "/" +:+ b.

Definition ex_find_inputs (args : list string) : outcome Found :=
  find_inputs (λ _, false) (λ f, f) (λ _, true) (λ _, false) ex_is_bitcode (λ f, f)
    (Py.join "/") ex_opts args.

Definition ex_stage (args : list string) : list (list string) * outcome unit :=
  inputs_stage (λ _, false) (λ f, f) (λ _, true) (λ _, false) ex_is_bitcode (λ f, f)
    ex_path_join (Py.join "/") (λ a, a) ex_opts "js" "js" args.

End InputsSpec.

Module MemInitSpec.
Import MemInit.

(** A string initializer that lists the bytes, a pattern that matches the
    text between "[" and "]", and the settings of a build that writes the
    memory initializer to a file. *)
Definition ex_generate_string_initializer (membytes : list Z) : string :=
  Py.join "," ((λ b, pretty b) <$> membytes).

Fixpoint before_char (c : ascii) (s : string) : option (string * string) :=
  match s with
  | EmptyString => None
  | String a s' =>
      if Ascii.eqb a c then Some (EmptyString, s')
      else '(x, y) ← before_char c s'; Some (String a x, y)
  end.

Definition ex_pattern_search (text : string) : option (string * string * string) :=
  '(before, rest) ← before_char "[" text;
  '(group1, after) ← before_char "]" rest;
  Some (before, group1, after).

Definition ex_cfg (to_file : bool) : MemSettings :=
  {| MEM_INIT_METHOD := 1; memory_init_file := to_file; BINARYEN := false;
     MAIN_MODULE := false; SIDE_MODULE := false; debug_level := 0; DEBUG := None |}.

Definition ex_repl (to_file : bool) (s : string) : res (string * list file_event) :=
  repl ex_generate_string_initializer (λ f, f) (ex_cfg to_file) "a.out.js.mem" s.

Definition ex_memory_initializer (to_file : bool) (text : string) : res MemResult :=
  memory_initializer ex_generate_string_initializer (λ f, f) (λ _, None)
    ex_pattern_search (ex_cfg to_file) "a.out.js" "tmp.js" text.

End MemInitSpec.

Module LinkSpec.
Import Link.

(** One source compiled to a temporary object, nothing else to link. *)
Definition ex_env : LinkEnv :=
  {| LEAVE_INPUTS_RAW := false; DEBUG := None; WASM_BACKEND := false;
     can_build_standalone := true; target_basename := "a.out" |}.

Definition ex_suffix (name : string) : option string :=
  match Py.split "." name with
  | _ :: _ :: _ as parts => last parts
  | _ => None
  end.

Definition ex_in_temp (name : string) : string := "/tmp/emscripten_temp/" +:+ name.

Definition ex_link (inputs : list string) (out : string) (force just_calculate : bool)
    (fs : FS) : final_value * FS :=
  if just_calculate then (Deferred inputs, fs)
  else (Path out, <[out := link_model (omap (λ f, fs !! f) inputs)]> fs).

Definition ex_fs : FS := {[ "/tmp/emscripten_temp/a_0.o" := "BC:a" ]}.

Definition ex_stage : res LinkState :=
  link_stage ex_suffix (λ _, false) ex_in_temp ex_link ex_env
    [(0, "a.c")] [(0, "/tmp/emscripten_temp/a_0.o")] [] ["/tmp/emscripten_temp/a_0.o"] ex_fs.

End LinkSpec.

Module HtmlSpec.
Import Html.

(** Exactly one of the two fields is set. *)
Definition exactly_one (s : ScriptSource) : Prop :=
  (is_Some (src s) ∧ inline s = None) ∨ (src s = None ∧ is_Some (inline s)).

(** The condition that [replacement] asserts. *)
Definition asserted (s : ScriptSource) : bool :=
  (truth (src s) || truth (inline s)) && negb (truth (src s) && truth (inline s)).

(** The one field that is set is not the empty string. *)
Definition loaded (s : ScriptSource) : Prop :=
  (truth (src s) = true ∧ inline s = None) ∨ (src s = None ∧ truth (inline s) = true).

Definition ex_cfg (meminit : bool) : HtmlSettings :=
  {| proxy_to_worker := false; PROXY_TO_WORKER_FILENAME := ""; EMTERPRETIFY_FILE := "";
     memory_init_file := meminit; separate_asm := false; BINARYEN := false;
     BINARYEN_METHOD := "native-wasm"; BINARYEN_ASYNC_COMPILATION := true |}.

Definition ex_basename (path : string) : string :=
  default path (last (Py.split "/" path)).

Definition ex_build (meminit : bool) : res ScriptSource :=
  build_script ex_basename (λ _, "") [] (ex_cfg meminit)
    "<html>{{{ SCRIPT }}}</html>" "out/a.js" "a" "out/a.asm.js" "out/a.wasm"
    (Some "out/a.html.mem").

End HtmlSpec.

(** * More of the build driver *)

(** ** [system_libs.py]: flags of the library builds, reading the link line *)

Module LibBuild.
Import SystemLibs.

(** [get_cflags(force_object_files)]; [RELOCATABLE] is the setting. *)
Definition get_cflags (settings : Settings) (RELOCATABLE : bool)
    (force_object_files : bool) : list string :=
  let flags := [] in
  let flags :=
    if force_object_files then flags ++ ["-s"; "WASM_OBJECT_FILES=1"]
    else if negb (WASM_OBJECT_FILES settings) then flags ++ ["-s"; "WASM_OBJECT_FILES=0"]
    else flags in
  if RELOCATABLE then flags ++ ["-s"; "RELOCATABLE"] else flags.

(** What [create_lib(libname, inputs)] calls. *)
Inductive lib_tool :=
  | link_to_object (inputs : list string) (libname : string)
  | emar (inputs : list string) (libname : string).

Definition create_lib (libname : string) (inputs : list string) : res lib_tool :=
  if Py.endswith libname ".bc" then Ret (link_to_object inputs libname)
  else if Py.endswith libname ".a" then Ret (emar inputs libname)
  else Raise (Exception ("unknown suffix " +:+ libname)).

(** Returns linker flags specific to singlethreading or multithreading *)
Definition threading_flags (settings : Settings) (libname : string) : res (list string) :=
  if USE_PTHREADS settings then
    _ ← assert (Html.contains libname "-mt") "";
    Ret ["-s"; "USE_PTHREADS=1"]
  else
    _ ← assert (negb (Html.contains libname "-mt")) "";
    Ret [].

Definition legacy_gl_emulation_flags (settings : Settings) (libname : string)
    : res (list string) :=
  if LEGACY_GL_EMULATION settings then
    _ ← assert (Html.contains libname "-emu") "";
    Ret ["-DLEGACY_GL_EMULATION=1"]
  else
    _ ← assert (negb (Html.contains libname "-emu")) "";
    Ret [].

Definition gl_version_flags (settings : Settings) (libname : string) : res (list string) :=
  if USE_WEBGL2 settings then
    _ ← assert (Html.contains libname "-webgl2") "";
    Ret ["-DUSE_WEBGL2=1"]
  else
    _ ← assert (negb (Html.contains libname "-webgl2")) "";
    Ret [].

(** The flags that [create_gl(libname)] hands to [build_libc]. *)
Definition create_gl_flags (settings : Settings) (libname : string) : res (list string) :=
  let flags := ["-Oz"; "-s"; "USE_WEBGL2=1"] in
  t ← threading_flags settings libname;
  let flags := flags ++ t in
  l ← legacy_gl_emulation_flags settings libname;
  let flags := flags ++ l in
  g ← gl_version_flags settings libname;
  Ret (flags ++ g).

(** The options that [create_libc(libname)] hands to [build_libc]. *)
Definition create_libc_args (settings : Settings) (libname : string) : res (list string) :=
  let args := ["-Os"; "-fno-builtin"] in
  t ← threading_flags settings libname;
  Ret (args ++ t).

(** The name under which [add_library] asks the cache for a library, which
    is the [libname] that the [create] function of the library receives. *)
Definition library_file_name (settings : Settings) (lib : Library) : string :=
  let short := if can_noexcept lib then maybe_noexcept settings (shortname lib)
               else shortname lib in
  short +:+ "." +:+ suffix lib.

(** The flag checks that the [create] function of a library makes on its
    name: [create_gl] and [create_libc] call the flag helpers above, the
    other functions take the name as it is. *)
Definition create_checks (settings : Settings) (lib : Library) : res (list string) :=
  match create lib with
  | create_gl => create_gl_flags settings (library_file_name settings lib)
  | create_libc => create_libc_args settings (library_file_name settings lib)
  | _ => Ret []
  end.

End LibBuild.

Module LinkLineSpec.

(** The link line as a linker reads it: the libraries in order, each with
    whether it stands between [--whole-archive] and [--no-whole-archive]. *)
Fixpoint read_groups (in_group : bool) (args : list string) : list (string * bool) :=
  match args with
  | [] => []
  | a :: rest =>
      if String.eqb a "--whole-archive" then read_groups true rest
      else if String.eqb a "--no-whole-archive" then read_groups false rest
      else (a, in_group) :: read_groups in_group rest
  end.

(** Whether the line ends inside a group, when it starts inside one or not. *)
Definition ends_in_group_from (in_group : bool) (args : list string) : bool :=
  foldl (λ g a, if String.eqb a "--whole-archive" then true
                else if String.eqb a "--no-whole-archive" then false else g)
        in_group args.

Definition ends_in_group (args : list string) : bool := ends_in_group_from false args.

Definition is_flag (a : string) : bool :=
  String.eqb a "--whole-archive" || String.eqb a "--no-whole-archive".

(** The symbols that the inputs need once [deps_info] is followed: the
    symbols of [start], and the dependencies that [deps_info] lists for a
    needed symbol. *)
Inductive needed (deps_info : list (string * list string)) (start : gset string)
    : string → Prop :=
  | needed_start x : x ∈ start → needed deps_info start x
  | needed_dep ident ds dep :
      (ident, ds) ∈ deps_info → needed deps_info start ident → dep ∈ ds →
      needed deps_info start dep.

Definition all_undefs (symbolses : list SystemLibs.Symbols) : gset string :=
  ⋃ (SystemLibs.undefs <$> symbolses).

End LinkLineSpec.

Module BackDepsSpec.
Import SystemLibs.

(** The dependencies that [deps_info] lists for the symbols of [added] are
    all in [U]. *)
Definition deps_covered (deps_info : list (string * list string)) (added U : gset string)
    : Prop :=
  ∀ ident ds dep, (ident, ds) ∈ deps_info → ident ∈ added → dep ∈ ds → dep ∈ U.

(** A run on one input that needs [a], where [a] depends on [b] and [b] on
    [c]. *)
Definition ex_deps_info : list (string * list string) :=
  [("b", ["c"]); ("a", ["b"]); ("z", ["y"])].

Definition ex_symbolses : list Symbols :=
  [ {| defs := ∅; undefs := {["main"]} |}; {| defs := {["main"]}; undefs := {["a"]} |} ].

End BackDepsSpec.

Module LibBuildSpec.
Import SystemLibs.

Definition ex_settings : Settings :=
  {| WASM_OBJECT_FILES := false; WASM := true; USE_PTHREADS := true; WASM_BACKEND := false;
     LEGACY_GL_EMULATION := true; USE_WEBGL2 := false; DISABLE_EXCEPTION_CATCHING := true;
     MALLOC := "dlmalloc"; DEBUG_LEVEL := 0; SUPPORT_ERRNO := true;
     EMSCRIPTEN_TRACING := false; EXPORTED_FUNCTIONS := [] |}.

Definition ex_files : SymbolFiles :=
  {| libc_symbols := []; libcxx_symbols := []; libcxxabi_symbols := []; gl_symbols := [];
     al_symbols := []; compiler_rt_symbols := []; libc_extras_symbols := [];
     pthreads_symbols := []; asmjs_pthreads_symbols := []; stub_pthreads_symbols := [];
     wasm_libc_symbols := []; html5_symbols := [] |}.

Definition ex_gl : Library :=
  {| shortname := "libgl-mt-emu"; suffix := "bc"; create := create_gl; symbols := [];
     deps := ["libc-mt"]; can_noexcept := false |}.

End LibBuildSpec.

(** ** Writing a response file: [tools/response_file.py] *)

(** Python's [shlex.split(s)], which [read_response_file] calls: the lexer
    in POSIX mode, with [whitespace_split] set and no comment characters.
    [tokens] is the state machine of [shlex.read_token], run until the
    lexer gives no token any more. *)
Module Shlex.

Inductive lex_state :=
  | Blank                 (* ' ': between two tokens *)
  | Word                  (* 'a': inside a token *)
  | Quote (q : ascii)     (* a quote character: inside this quote *)
  | Escape.               (* the escape character: after a backslash *)

Definition bs : ascii := "\"%char.
Definition dq : ascii := "034"%char.
Definition sq : ascii := "'"%char.

(** [whitespace = ' \t\r\n'], [quotes = '\'"'], [escape = '\\'],
    [escapedquotes = '"'] *)
Definition is_whitespace (c : ascii) : bool :=
  Ascii.eqb c " " || Ascii.eqb c "009" || Ascii.eqb c "013" || Ascii.eqb c "010".
Definition is_quote (c : ascii) : bool := Ascii.eqb c sq || Ascii.eqb c dq.
Definition is_escape (c : ascii) : bool := Ascii.eqb c bs.
Definition is_escapedquote (c : ascii) : bool := Ascii.eqb c dq.

Definition push (token : string) (c : ascii) : string := token +:+ String c EmptyString.

(** The end of [read_token]: in POSIX mode an empty token that was not
    quoted is no token, and the iteration over the lexer stops there. *)
Definition finish (quoted : bool) (token : string) (more : res (list string))
    : res (list string) :=
  if negb quoted && String.eqb token "" then Ret []
  else l ← more; Ret (token :: l).

(** A character that is neither white space, nor a quote, nor the escape
    character starts a token, or goes on with it: it is one of [wordchars],
    or [whitespace_split] takes it. *)
Fixpoint tokens (state escapedstate : lex_state) (quoted : bool) (token : string)
    (input : string) : res (list string) :=
  match input with
  | EmptyString =>
      match state with
      | Blank | Word => finish quoted token (Ret [])    (* end of file *)
      | Quote _ => Raise (ValueError "No closing quotation")
      | Escape => Raise (ValueError "No escaped character")
      end
  | String nextchar rest =>
      match state with
      | Blank =>
          if is_whitespace nextchar then
            if Py.truthy token || quoted
            then finish quoted token (tokens Blank Blank false "" rest)  (* emit current token *)
            else tokens Blank escapedstate quoted token rest
          else if is_escape nextchar then tokens Escape Word quoted token rest
          else if is_quote nextchar then tokens (Quote nextchar) escapedstate quoted token rest
          else tokens Word escapedstate quoted (String nextchar EmptyString) rest
      | Quote q =>
          let quoted := true in
          if Ascii.eqb nextchar q then tokens Word escapedstate quoted token rest
          else if is_escape nextchar && is_escapedquote q
          then tokens Escape (Quote q) quoted token rest
          else tokens (Quote q) escapedstate quoted (push token nextchar) rest
      | Escape =>
          (* In posix shells, only the quote itself or the escape character
             may be escaped within quotes. *)
          let token :=
            match escapedstate with
            | Quote q =>
                if negb (Ascii.eqb nextchar bs) && negb (Ascii.eqb nextchar q)
                then push token bs else token
            | _ => token
            end in
          tokens escapedstate escapedstate quoted (push token nextchar) rest
      | Word =>
          if is_whitespace nextchar then
            if Py.truthy token || quoted
            then finish quoted token (tokens Blank Blank false "" rest)  (* emit current token *)
            else tokens Blank escapedstate quoted token rest
          else if is_quote nextchar then tokens (Quote nextchar) escapedstate quoted token rest
          else if is_escape nextchar then tokens Escape Word quoted token rest
          else tokens Word escapedstate quoted (push token nextchar) rest
      end
  end.

Definition split (s : string) : res (list string) := tokens Blank Blank false "" s.

End Shlex.

Module ResponseWrite.

(** [s.replace(old, new)] for a one-character [old] *)
Fixpoint replace_char (old : ascii) (new : string) (s : string) : string :=
  match s with
  | EmptyString => EmptyString
  | String c s' =>
      (if Ascii.eqb c old then new else String c EmptyString) +:+ replace_char old new s'
  end.

Definition bs : string := String Shlex.bs EmptyString.
Definition dq : string := String Shlex.dq EmptyString.

(** [p.replace('\\', '\\\\').replace('"', '\\"')] *)
Definition escape (p : string) : string :=
  replace_char Shlex.dq (bs +:+ dq) (replace_char Shlex.bs (bs +:+ bs) p).

(** The text that [create_response_file] writes. *)
Definition contents (args : list string) : string :=
  dq +:+ Py.join (dq +:+ " " +:+ dq) (escape <$> args) +:+ dq.

Section CreateResponseFile.
(** [tempfile.mkstemp(prefix='emscripten_', suffix='.rsp', dir=directory)]:
    the name of the file that it creates. *)
Variable mkstemp : string → string.

(** The file system is a function from names to texts, as
    [ResponseFile.read_response_file] reads it.  The result is the name of
    the response file, the file system with the file written, and the
    names noted for removal. *)
Definition create_response_file (args : list string) (directory : string)
    (fs : string → option string) (temp_files : list string)
    : string * (string → option string) * list string :=
  let response_filename := mkstemp directory in
  let contents := contents args in
  (response_filename,
   λ name, if String.eqb name response_filename then Some contents else fs name,
   temp_files ++ [response_filename]).
End CreateResponseFile.

End ResponseWrite.

(** ** The command line: more of [emcc.run] *)

Module Driver.

Definition is_in (x : string) (l : list string) : bool := existsb (String.eqb x) l.

(** [s[n:]] *)
Fixpoint str_drop (n : nat) (s : string) : string :=
  match n, s with
  | S n', String _ s' => str_drop n' s'
  | _, _ => s
  end.

(** [is_minus_s_for_emcc(newargs, i)]: -s OPT=VALUE is for us, -s by itself
    is a linker option. *)
Definition is_minus_s_for_emcc (newargs : list string) (i : nat) : res bool :=
  match newargs !! i with
  | None => Raise IndexError
  | Some arg =>
      _ ← assert (String.eqb arg "-s") "";
      match newargs !! (i + 1) with
      | Some next =>
          if Html.contains next "=" && negb (Py.startswith next "-")
          then Ret true else Ret false
      | None => Ret false
      end
  end.

(** [filter_emscripten_options(argv)], a generator: [els] is what is left of
    [argv] at index [idx]. *)
Fixpoint filter_emscripten_options_from (use_js : nat) (argv : list string) (idx : nat)
    (skip_next : bool) (els : list string) : res (list string) :=
  match els with
  | [] => Ret []
  | el :: els' =>
      if skip_next then filter_emscripten_options_from use_js argv (S idx) false els'
      else
        (* skip -s X=Y if not using js for configure *)
        skip_next ← (if (use_js =? 0)%nat && String.eqb el "-s"
                     then b ← is_minus_s_for_emcc argv idx;
                          Ret (if b : bool then true else skip_next)
                     else Ret skip_next);
        rest ← filter_emscripten_options_from use_js argv (S idx) skip_next els';
        if (use_js =? 0)%nat && String.eqb el "--tracing" then Ret rest
        else Ret (el :: rest)
  end.

Definition filter_emscripten_options (use_js : nat) (argv : list string)
    : res (list string) :=
  filter_emscripten_options_from use_js argv 0 false argv.

(** Check if a target is specified: [for i in range(len(sys.argv)-1)].  The
    result is [target] and [sys.argv]. *)
Fixpoint find_target_loop (argv : list string) (indices : list nat)
    : res (option string * list string) :=
  match indices with
  | [] => Ret (None, argv)
  | i :: indices' =>
      let arg := default "" (argv !! i) in
      if Py.startswith arg "-o="
      then Raise (Exception "Invalid syntax: do not use -o=X, use -o X")
      else if String.eqb arg "-o"
      then Ret (argv !! (i + 1), take i argv ++ drop (i + 2) argv)
      else find_target_loop argv indices'
  end.

Definition find_target (argv : list string) : res (option string * list string) :=
  find_target_loop argv (seq 0 (length argv - 1)).

(** [detect_fixed_language_mode(args)], from the item where [check_next] has
    the given value. *)
Fixpoint detect_fixed_language_mode_from (check_next : bool) (args : list string) : bool :=
  match args with
  | [] => false
  | item :: rest =>
      if check_next && is_in item ["c++"; "c"] then true
      else
        if Py.startswith item "-x" then
          let lmode := if (2 <? String.length item)%nat then Some (str_drop 2 item)
                       else None in
          if match lmode with Some m => is_in m ["c++"; "c"] | None => false end
          then true
          else detect_fixed_language_mode_from true rest
        else detect_fixed_language_mode_from false rest
  end.

Definition detect_fixed_language_mode (args : list string) : bool :=
  detect_fixed_language_mode_from false args.

(** Scan for individual -l/-L/-I arguments and concatenate the next arg on
    if there is no suffix: the body of the loop over the indices. *)
Definition join_flag_step (newargs : list string) (i : nat) : res (list string) :=
  let arg := default "" (newargs !! i) in
  if is_in arg ["-l"; "-L"; "-I"] then
    match newargs !! (i + 1) with
    | None => Raise IndexError
    | Some next => Ret (<[S i := ""]> (<[i := arg +:+ next]> newargs))
    end
  else Ret newargs.

Definition join_flags (newargs : list string) : res (list string) :=
  for_each join_flag_step newargs (seq 0 (length newargs)).

(** The loop that takes the [-s KEY=VALUE] pairs out of the arguments. *)
Definition settings_step (st : list string * list string) (i : nat)
    : res (list string * list string) :=
  let '(newargs, settings_changes) := st in
  if String.eqb (default "" (newargs !! i)) "-s" then
    b ← is_minus_s_for_emcc newargs i;
    if b : bool then
      match newargs !! (i + 1) with
      | None => Raise IndexError
      | Some key =>
          let settings_changes := settings_changes ++ [key] in
          let newargs := <[S i := ""]> (<[i := ""]> newargs) in
          _ ← assert (negb (String.eqb key "WASM_BACKEND"))
                "do not set -s WASM_BACKEND, instead set EMCC_WASM_BACKEND=1 in the environment";
          Ret (newargs, settings_changes)
      end
    else Ret st
  else Ret st.

Definition collect_settings (newargs settings_changes : list string)
    : res (list string * list string) :=
  '(newargs, settings_changes) ←
    for_each settings_step (newargs, settings_changes) (seq 0 (length newargs));
  Ret (List.filter (λ arg, negb (String.eqb arg "")) newargs, settings_changes).

(** The compiler: C++ unless an argument says otherwise.  [C_ENDINGS] holds
    the special endingless filenames by now. *)
Definition C_OR_OBJC_ENDINGS : list string :=
  (Inputs.C_ENDINGS ++ Inputs.SPECIAL_ENDINGLESS_FILENAMES) ++ Inputs.OBJC_ENDINGS.

Fixpoint detect_use_cxx (use_cxx : bool) (newargs : list string) : bool :=
  match newargs with
  | [] => use_cxx
  | arg :: rest =>
      if String.eqb arg "-xc" then false
      else if String.eqb arg "-xc++" then true
      else if negb (Py.startswith arg "-") then
        if Py.endswith_any arg C_OR_OBJC_ENDINGS then detect_use_cxx false rest
        else detect_use_cxx use_cxx rest
      else detect_use_cxx use_cxx rest
  end.

(** [get_last_setting_change(setting)] *)
Definition get_last_setting_change (settings_changes : list string) (setting : string)
    : option string :=
  default None
    (last ([None] ++ (Some <$> List.filter (λ x, Py.startswith x (setting +:+ "="))
                                           settings_changes))).

End Driver.

Module DriverSpec.
Import Driver.

(** An argument of the form KEY=VALUE, which [-s] takes for emcc. *)
Definition is_setting (v : string) : bool :=
  Html.contains v "=" && negb (Py.startswith v "-").

Definition count (x : string) (l : list string) : nat :=
  length (List.filter (String.eqb x) l).

(** An argument that names a C or Objective-C file. *)
Definition is_c_file (arg : string) : bool :=
  negb (Py.startswith arg "-") && Py.endswith_any arg C_OR_OBJC_ENDINGS.

Definition is_language_flag (arg : string) : bool :=
  String.eqb arg "-xc" || String.eqb arg "-xc++".

Definition is_bare_flag (arg : string) : bool := is_in arg ["-l"; "-L"; "-I"].

(** An argument that the scan for the target steps over. *)
Definition is_plain (a : string) : bool :=
  negb (Py.startswith a "-o=") && negb (String.eqb a "-o").

(** A language that fixes the language mode. *)
Definition is_lang (m : string) : bool := is_in m ["c++"; "c"].

(** All the arguments, one after the other. *)
Definition concat_args (l : list string) : string := foldr String.append "" l.

End DriverSpec.

(** ** Settings that depend on each other: [emcc.run] *)

Module SplitMemory.

(** The settings and options that the block on SPLIT_MEMORY reads and
    writes.  The settings are Python integers; [js_opts] is [None], [True]
    or [False]; [use_closure_compiler] is [None] or a number, [False]
    being 0. *)
Record Settings := {
  SPLIT_MEMORY : Z;
  TOTAL_STACK : Z;
  ASM_JS : Z;
  SAFE_HEAP : Z;
  SAFE_SPLIT_MEMORY : Z;
  RELOCATABLE : Z;
  USE_PTHREADS : Z
}.

Record Options := {
  js_opts : option bool;
  force_js_opts : bool;
  use_closure_compiler : option Z
}.

(** The truth value of a number, and of [None] or a value. *)
Definition truthy (x : Z) : bool := negb (x =? 0)%Z.
Definition opt_truthy {A} (t : A → bool) (x : option A) : bool :=
  match x with Some a => t a | None => false end.

(** [if shared.Settings.SPLIT_MEMORY: ...] *)
Definition split_memory_block (s : Settings) (o : Options) : res (Settings * Options) :=
  if truthy (SPLIT_MEMORY s) then
    _ ← assert (TOTAL_STACK s <? SPLIT_MEMORY s)%Z
          "SPLIT_MEMORY must be at least TOTAL_STACK (stack must fit in first chunk)";
    _ ← assert (Z.land (SPLIT_MEMORY s) (SPLIT_MEMORY s - 1) =? 0)%Z
          "SPLIT_MEMORY must be a power of 2";
    let ASM_JS' := if (ASM_JS s =? 1)%Z then 2%Z else ASM_JS s in
    let '(SAFE_HEAP', SAFE_SPLIT_MEMORY') :=
      if truthy (SAFE_HEAP s) then (0%Z, 1%Z)   (* we use our own infrastructure *)
      else (SAFE_HEAP s, SAFE_SPLIT_MEMORY s) in
    _ ← assert (negb (truthy (RELOCATABLE s))) "no SPLIT_MEMORY with RELOCATABLE";
    _ ← assert (negb (truthy (USE_PTHREADS s))) "no SPLIT_MEMORY with pthreads";
    let js_opts' := if negb (opt_truthy id (js_opts o)) then Some true else js_opts o in
    let closure' := if opt_truthy truthy (use_closure_compiler o) then Some 0%Z
                    else use_closure_compiler o in
    Ret ({| SPLIT_MEMORY := SPLIT_MEMORY s; TOTAL_STACK := TOTAL_STACK s;
            ASM_JS := ASM_JS'; SAFE_HEAP := SAFE_HEAP';
            SAFE_SPLIT_MEMORY := SAFE_SPLIT_MEMORY';
            RELOCATABLE := RELOCATABLE s; USE_PTHREADS := USE_PTHREADS s |},
         {| js_opts := js_opts'; force_js_opts := true; use_closure_compiler := closure' |})
  else Ret (s, o).

Definition ex_settings : Settings :=
  {| SPLIT_MEMORY := 16777216; TOTAL_STACK := 5242880; ASM_JS := 1; SAFE_HEAP := 1;
     SAFE_SPLIT_MEMORY := 0; RELOCATABLE := 0; USE_PTHREADS := 0 |}.

Definition ex_options : Options :=
  {| js_opts := None; force_js_opts := false; use_closure_compiler := Some 1%Z |}.

End SplitMemory.

(** ** Paths: [in_directory] and [is_valid_abspath] *)

Module Paths.

(** [min([a, b])] and [max([a, b])] on strings: the first of two equal ones. *)
Definition py_min2 (a b : string) : string := if String.ltb b a then b else a.
Definition py_max2 (a b : string) : string := if String.ltb a b then b else a.

(** The loop of [os.path.commonprefix]:
    [for i, c in enumerate(s1): if c != s2[i]: return s1[:i]], then
    [return s1]. *)
Fixpoint commonprefix_loop (s1 s2 : string) : res string :=
  match s1 with
  | EmptyString => Ret EmptyString
  | String c s1' =>
      match s2 with
      | EmptyString => Raise IndexError
      | String d s2' =>
          if Ascii.eqb c d then r ← commonprefix_loop s1' s2'; Ret (String c r)
          else Ret EmptyString
      end
  end.

(** [os.path.commonprefix([a, b])] *)
Definition commonprefix2 (a b : string) : res string :=
  commonprefix_loop (py_min2 a b) (py_max2 a b).

Section InDirectory.
Variable realpath : string → string.

Definition in_directory (root child : string) : res bool :=
  (* make both path absolute *)
  let root := realpath root in
  let child := realpath child in
  (* return true, if the common prefix of both is equal to directory *)
  p ← commonprefix2 root child;
  Ret (String.eqb p root).

(** [is_valid_abspath(options, path_name)]; [root] is
    [shared.path_from_root()]. *)
Definition slashes (s : string) : string :=
  ResponseWrite.replace_char Shlex.bs "/" s.

Fixpoint any_valid (valid_abspaths : list string) (path_name : string) : res bool :=
  match valid_abspaths with
  | [] => Ret false
  | valid_abspath :: rest =>
      b ← in_directory valid_abspath path_name;
      if b : bool then Ret true else any_valid rest path_name
  end.

Definition is_valid_abspath (root : string) (valid_abspaths : list string)
    (path_name : string) : res bool :=
  (* Any path that is underneath the emscripten repository root must be ok. *)
  if Html.contains (slashes path_name) (slashes root) then Ret true
  else any_valid valid_abspaths path_name.
End InDirectory.

End Paths.

Module FileNameSpec.

(** [c in s] for a character *)
Fixpoint has_char (c : ascii) (s : string) : bool :=
  match s with
  | EmptyString => false
  | String a s' => Ascii.eqb a c || has_char c s'
  end.

End FileNameSpec.

Module ScanSpec.
Import Inputs.

Section Scan.
Variable exists_ : string → bool.

(** What one round of the loop does to the three lists. *)
Inductive scan_step (i : nat) (f f' : Found) : Prop :=
  | scan_skip :
      input_files f' = input_files f → libs f' = libs f →
      (newargs f' = newargs f ∨ newargs f' = <[i := ""]> (newargs f)) →
      scan_step i f f'
  | scan_input file :
      input_files f' = input_files f ++ [(i, file)] → libs f' = libs f →
      newargs f' = <[i := ""]> (newargs f) → exists_ file = true →
      scan_step i f f'
  | scan_lib lib :
      input_files f' = input_files f → libs f' = libs f ++ [(i, lib)] →
      newargs f' = <[i := ""]> (newargs f) →
      scan_step i f f'.

(** The state of the lists when the loop is at index [k]. *)
Definition scanned (args : list string) (k : nat) (f : Found) : Prop :=
  length (newargs f) = length args
  ∧ (∀ j, newargs f !! j = args !! j ∨ newargs f !! j = Some "")
  ∧ Forall (λ x, x.1 < k ∧ newargs f !! x.1 = Some "" ∧ exists_ x.2 = true) (input_files f)
  ∧ Forall (λ x, x.1 < k ∧ newargs f !! x.1 = Some "") (libs f)
  ∧ NoDup ((input_files f).*1 ++ (libs f).*1).

End Scan.

(** A command line with a source file, a library, a flag with its value and
    an object file, and what the scan makes of it in the file system of
    [InputsSpec.ex_find_inputs]. *)
Definition ex_args : list string := ["main.c"; "-lfoo"; "-o"; "out.js"; "util.o"].

Definition ex_found : Found :=
  {| newargs := [""; ""; "-o"; "out.js"; ""];
     input_files := [(0, "main.c"); (4, "util.o")];
     libs := [(1, "foo")];
     link_flags := [];
     lib_dirs := ["system/local/lib"; "system/lib"];
     has_source_inputs := true;
     has_header_inputs := false |}.

End ScanSpec.

Module LibrarySearchSpec.

(** The file names under which a library [-l<lib>] is looked for, in the
    order of the two outer loops of [system_js_libraries_setting_str]. *)
Definition library_names (lib : string) : list string :=
  [lib +:+ ".a"; lib +:+ ".dylib"; lib +:+ ".so";
   "lib" +:+ lib +:+ ".a"; "lib" +:+ lib +:+ ".dylib"; "lib" +:+ lib +:+ ".so"].

(** Files of a search path with two directories. *)
Definition ex_exists (path : string) : bool :=
  Inputs.is_in path ["first/libz.so"; "second/z.so"; "second/libz.a"].

End LibrarySearchSpec.

Module ChunkSpec.

(** A chunk of the optimizer for the [i]-th of [n] runs of passes: all but
    the first receive JSON, all but the last emit it. *)
Definition mark (n i : nat) (run : list string) : list string :=
  (if (0 <? i)%nat then ["receiveJSON"] else [])
  ++ run
  ++ (if (S i <? n)%nat then ["emitJSON"] else []).

End ChunkSpec.

(** ** The block 'bitcodeize inputs' of [emcc.run] *)

Module Compile.
Import Inputs.

(** What the block reads of the run so far; [LEAVE_INPUTS_RAW] is the value
    of [EMCC_LEAVE_INPUTS_RAW] in the environment. *)
Record CompileEnv := {
  final_suffix : string;
  final_ending : string;
  specified_target : option string;
  has_dash_c : bool;
  default_object_extension : string;
  has_fixed_language_mode : bool;
  LEAVE_INPUTS_RAW : option string;
  call : string;
  newargs : list string;
  EMSDK_CXX_OPTS : list string;
  can_inline : bool
}.

(** The commands that the block runs. *)
Inductive command :=
  | Execute (args : list string)
  | LlvmAs (input_file temp_file : string).

Record CompileState := {
  temp_files : list (nat * string);
  seen_names : gmap string string;
  commands : list command
}.

Definition init : CompileState :=
  {| temp_files := []; seen_names := ∅; commands := [] |}.

Section Bitcodeize.
(** [tools.shared.unsuffixed] and [suffix], [in_temp], [Building.is_ar],
    [os.path.isdir], [os.path.join], [os.path.basename],
    [system_libs.process_args], and whether the output file of a command of
    the compiler frontend exists once it has run. *)
Variable unsuffixed : string → string.
Variable suffix : string → option string.
Variable in_temp : string → string.
Variable is_ar : string → bool.
Variable isdir : string → bool.
Variable path_join : string → string → string.
Variable basename : string → string.
Variable process_args : list string → list string.
Variable frontend_ok : list string → bool.
Variable env : CompileEnv.

Definition uniquename (name : string) (seen_names : gmap string string)
    : string * gmap string string :=
  let seen_names :=
    match seen_names !! name with
    | None => <[name := pretty (size seen_names)]> seen_names
    | Some _ => seen_names
    end in
  (unsuffixed name +:+ "_" +:+ default "" (seen_names !! name)
     +:+ (if Py.env_truthy (suffix name) then "." +:+ default "" (suffix name) else ""),
   seen_names).

Definition temp_name (input_file ext : string) (seen_names : gmap string string)
    : string * gmap string string :=
  let '(unique, seen_names) := uniquename input_file seen_names in
  (in_temp (unsuffixed unique +:+ ext), seen_names).

Definition get_bitcode_file (n_input_files : nat) (input_file : string)
    (seen_names : gmap string string) : string * gmap string string :=
  let in_temp_dir := temp_name input_file (default_object_extension env) seen_names in
  if negb (is_in (final_suffix env) JS_CONTAINING_SUFFIXES) then
    (* no need for a temp file, just emit to the right place *)
    if (n_input_files =? 1)%nat then
      (* can just emit directly to the target *)
      if Py.env_truthy (specified_target env) then
        let specified_target := default "" (specified_target env) in
        if Py.endswith specified_target "/" || Py.endswith specified_target "\"
           || isdir specified_target
        then (path_join specified_target (basename (unsuffixed input_file))
              +:+ default_object_extension env, seen_names)
        else (specified_target, seen_names)
      else (unsuffixed input_file +:+ final_ending env, seen_names)
    else if has_dash_c env
    then (unsuffixed input_file +:+ default_object_extension env, seen_names)
    else in_temp_dir
  else in_temp_dir.

(** Bitcode args generation code, for one input file. *)
Definition get_bitcode_args (input_file : string) : list string :=
  let file_ending := filename_type_ending input_file in
  let args := [call env] ++ newargs env ++ [input_file] in
  let args := if Py.endswith_any file_ending CXX_ENDINGS
              then args ++ EMSDK_CXX_OPTS env else args in
  let args := if negb (can_inline env) then args ++ ["-fno-inline-functions"] else args in
  process_args args.

Definition compile_source_file (n_input_files : nat) (i : nat) (input_file : string)
    (st : CompileState) : res CompileState :=
  let '(output_file, seen_names) :=
    get_bitcode_file n_input_files input_file (seen_names st) in
  let args := get_bitcode_args input_file ++ ["-emit-llvm"; "-c"; "-o"; output_file] in
  if negb (frontend_ok args)
  then Raise (ExitWithError "compiler frontend failed to generate LLVM bitcode, halting")
  else Ret {| temp_files := temp_files st ++ [(i, output_file)];
              seen_names := seen_names;
              commands := commands st ++ [Execute args] |}.

Definition use_file (i : nat) (input_file : string) (st : CompileState) : CompileState :=
  {| temp_files := temp_files st ++ [(i, input_file)];
     seen_names := seen_names st; commands := commands st |}.

(** The body of [for i, input_file in input_files]. *)
Definition bitcodeize_step (n_input_files : nat) (st : CompileState)
    (x : nat * string) : res CompileState :=
  let '(i, input_file) := x in
  let file_ending := filename_type_ending input_file in
  if Py.endswith_any file_ending SOURCE_ENDINGS
  then compile_source_file n_input_files i input_file st
  else (* bitcode *)
    if Py.endswith_any file_ending BITCODE_ENDINGS
    then Ret (use_file i input_file st)
    else if Py.endswith_any file_ending DYNAMICLIB_ENDINGS || is_ar input_file
    then Ret (use_file i input_file st)
    else if Py.endswith_any file_ending ASSEMBLY_ENDINGS then
      if negb (Py.env_truthy (LEAVE_INPUTS_RAW env)) then
        let '(temp_file, seen_names) := temp_name input_file ".o" (seen_names st) in
        Ret {| temp_files := temp_files st ++ [(i, temp_file)];
               seen_names := seen_names;
               commands := commands st ++ [LlvmAs input_file temp_file] |}
      else Ret st
    else if has_fixed_language_mode env
    then compile_source_file n_input_files i input_file st
    else Raise (ExitWithError
                  (input_file +:+ ": Unknown file suffix when compiling to LLVM bitcode!")).

(** First, generate LLVM bitcode; then, at the head of 'process inputs',
    [assert len(temp_files) == len(input_files)]. *)
Definition bitcodeize (WASM_BACKEND : bool) (input_files : list (nat * string))
    : res CompileState :=
  st ← for_each (bitcodeize_step (length input_files)) init input_files;
  if negb (Py.env_truthy (LEAVE_INPUTS_RAW env)) && negb WASM_BACKEND
  then _ ← assert (length (temp_files st) =? length input_files)%nat "";
       Ret st
  else Ret st.
End Bitcodeize.

End Compile.

Module CompileSpec.
Import Inputs Compile.

(** The table of [uniquename] gives the names the numbers from 0 on, in the
    order of their first use. *)
Definition numbered (seen_names : gmap string string) : Prop :=
  (∀ name s, seen_names !! name = Some s → ∃ k, k < size seen_names ∧ s = pretty k)
  ∧ (∀ name1 name2 s,
       seen_names !! name1 = Some s → seen_names !! name2 = Some s → name1 = name2).

(** An input file that the loop takes as it is. *)
Definition used_as_it_is (is_ar : string → bool) (input_file : string) : bool :=
  let file_ending := filename_type_ending input_file in
  negb (Py.endswith_any file_ending SOURCE_ENDINGS)
  && (Py.endswith_any file_ending BITCODE_ENDINGS
      || Py.endswith_any file_ending DYNAMICLIB_ENDINGS || is_ar input_file).

(** An assembly file, which the loop leaves out under [EMCC_LEAVE_INPUTS_RAW]. *)
Definition assembly_only (is_ar : string → bool) (input_file : string) : bool :=
  let file_ending := filename_type_ending input_file in
  negb (Py.endswith_any file_ending SOURCE_ENDINGS)
  && negb (used_as_it_is is_ar input_file)
  && Py.endswith_any file_ending ASSEMBLY_ENDINGS.

(** The input files that get a temp file. *)
Definition kept (env : CompileEnv) (is_ar : string → bool) (x : nat * string) : bool :=
  negb (Py.env_truthy (LEAVE_INPUTS_RAW env) && assembly_only is_ar x.2).

(** A temp file [t] stands for the input file [x]: it has its index, and
    its name when the input file is used as it is. *)
Definition lined_up (is_ar : string → bool) (x t : nat * string) : Prop :=
  t.1 = x.1 ∧ (used_as_it_is is_ar x.2 = true → t.2 = x.2).

Definition ex_env (raw : option string) : CompileEnv :=
  {| final_suffix := "js"; final_ending := ".js"; specified_target := None;
     has_dash_c := false; default_object_extension := ".o";
     has_fixed_language_mode := false; LEAVE_INPUTS_RAW := raw; call := "emcc";
     newargs := ["-O2"]; EMSDK_CXX_OPTS := ["-std=c++03"]; can_inline := true |}.

(** [unsuffixed] and [suffix] of [tools.shared] cut a name at its last dot,
    [os.path.basename] at its last slash. *)
Fixpoint cut_last (sep : ascii) (s : string) : option (string * string) :=
  match s with
  | EmptyString => None
  | String c s' =>
      match cut_last sep s' with
      | Some (a, b) => Some (String c a, b)
      | None => if Ascii.eqb c sep then Some (EmptyString, s') else None
      end
  end.

Definition ex_unsuffixed (name : string) : string :=
  match cut_last "." name with Some (a, _) => a | None => name end.

Definition ex_suffix (name : string) : option string :=
  match cut_last "." name with Some (_, b) => Some b | None => None end.

Definition ex_basename (name : string) : string :=
  match cut_last "/" name with Some (_, b) => b | None => name end.

Definition ex_bitcodeize (raw : option string) (input_files : list (nat * string))
    : res CompileState :=
  bitcodeize ex_unsuffixed ex_suffix (λ name, "/tmp/" +:+ ex_basename name)
    (λ _, false) (λ _, false)
    InputsSpec.ex_path_join ex_basename (λ args, args) (λ _, true) (ex_env raw)
    false input_files.

End CompileSpec.

(** ** Stopping at bitcode: the block 'process inputs' of [emcc.run] *)

Module BitcodeStop.
Import Inputs Compile.

Definition EXECUTABLE_SUFFIXES := JS_CONTAINING_SUFFIXES ++ ["wasm"].

(** What the block does to the files: calls of [shared.safe_move],
    [shutil.copyfile] and [shared.Building.link], and the file that it
    writes. *)
Inductive stage_event :=
  | SafeMove (src dst : string)
  | CopyFile (src dst : string)
  | WriteFile (path text : string)
  | Link (linker_inputs : list string) (target : string).

Section Stop.
(** [tools.shared.unsuffixed] and [unsuffixed_basename], [os.path.exists]
    and the text of a file once the output is in its place,
    [os.path.dirname], [os.path.basename], [os.path.join], and
    [deps.replace(old, new)]. *)
Variable unsuffixed : string → string.
Variable unsuffixed_basename : string → string.
Variable exists_ : string → bool.
Variable read_file : string → string.
Variable dirname : string → string.
Variable basename : string → string.
Variable path_join : string → string → string.
Variable str_replace : string → string → string → string.
Variable env : CompileEnv.

(** [safe_move(temp_files[i][1], unsuffixed_basename(input_files[i][1]) + final_ending)] *)
Definition move_output (input_files temp_files : list (nat * string))
    (events : list stage_event) (i : nat) : res (list stage_event) :=
  match temp_files !! i, input_files !! i with
  | Some (_, temp_file), Some (_, input_file) =>
      Ret (events ++ [SafeMove temp_file
                        (unsuffixed_basename input_file +:+ final_ending env)])
  | _, _ => Raise IndexError
  end.

(** If we were just asked to generate bitcode, stop there: the events of
    the block, after which the run exits with 0; [None] when the run goes on
    to JavaScript. *)
Definition bitcode_stop (n_original_input_files : nat) (linker_inputs : list string)
    (input_files temp_files : list (nat * string)) : res (option (list stage_event)) :=
  if negb (is_in (final_suffix env) EXECUTABLE_SUFFIXES) then
    if negb (Py.env_truthy (specified_target env)) then
      _ ← assert (length temp_files =? length input_files)%nat "";
      events ← for_each (move_output input_files temp_files) []
                        (seq 0 (length input_files));
      Ret (Some events)
    else
      let specified_target := default "" (specified_target env) in
      if (length input_files =? 1)%nat then
        match input_files !! 0, temp_files !! 0 with
        | Some (_, input_file), Some (_, temp_file) =>
            let bitcode_target :=
              if Py.truthy specified_target then specified_target
              else unsuffixed_basename input_file +:+ final_ending env in
            let events :=
              if negb (String.eqb temp_file input_file)
              then [SafeMove temp_file bitcode_target]
              else [CopyFile temp_file bitcode_target] in
            let temp_output_base := unsuffixed temp_file in
            if exists_ (temp_output_base +:+ ".d") then
              (* There was a .d file generated, from -MD or -MMD and friends *)
              let deps := read_file (temp_output_base +:+ ".d") in
              let deps :=
                str_replace deps (temp_output_base +:+ default_object_extension env)
                            specified_target in
              Ret (Some (events ++
                         [WriteFile
                            (path_join (dirname specified_target)
                                       (basename (unsuffixed input_file +:+ ".d")))
                            deps]))
            else Ret (Some events)
        | _, _ => Raise IndexError
        end
      else
        _ ← assert ((n_original_input_files =? 1)%nat || negb (has_dash_c env))
                   "fatal error: cannot specify -o with -c with multiple files";
        Ret (Some [Link linker_inputs specified_target])
  else Ret None.
End Stop.

End BitcodeStop.

Module BitcodeStopSpec.
Import Inputs Compile CompileSpec BitcodeStop.

(** The call of [safe_move] for an input file [x] and its temp file [t]. *)
Definition moved (unsuffixed_basename : string → string) (env : CompileEnv)
    (x t : nat * string) : stage_event :=
  SafeMove t.2 (unsuffixed_basename x.2 +:+ final_ending env).

(** A build [emcc -c main.c lib/util.o], and one [emcc lib/util.o -o out.bc]. *)
Definition ex_env (target : option string) (final_suffix : string) : CompileEnv :=
  {| final_suffix := final_suffix; final_ending := "." +:+ final_suffix;
     specified_target := target;
     has_dash_c := true; default_object_extension := ".o";
     has_fixed_language_mode := false; LEAVE_INPUTS_RAW := None; call := "emcc";
     newargs := ["-c"]; EMSDK_CXX_OPTS := []; can_inline := true |}.

Definition ex_unsuffixed_basename (name : string) : string :=
  ex_unsuffixed (ex_basename name).

Definition ex_compile (target : option string) (final_suffix : string)
    (input_files : list (nat * string)) : res CompileState :=
  bitcodeize ex_unsuffixed ex_suffix (λ name, "/tmp/" +:+ ex_basename name)
    (λ _, false) (λ _, false)
    InputsSpec.ex_path_join ex_basename (λ args, args) (λ _, true)
    (ex_env target final_suffix) false input_files.

Definition ex_stop (target : option string) (final_suffix : string)
    (input_files temp_files : list (nat * string)) : res (option (list stage_event)) :=
  bitcode_stop ex_unsuffixed ex_unsuffixed_basename (λ _, false) (λ _, "")
    (λ name, name) ex_basename InputsSpec.ex_path_join (λ text _ _, text)
    (ex_env target final_suffix) (length input_files) (snd <$> temp_files)
    input_files temp_files.

End BitcodeStopSpec.

(** ** The settings of the command line: [emcc.run] *)

Module SettingsApply.
Import Driver.

(** The settings that the block on strict mode writes; [True] is 1. *)
Record StrictSettings := {
  STRICT : Z;
  ERROR_ON_UNDEFINED_SYMBOLS : Z;
  ERROR_ON_MISSING_LIBRARIES : Z
}.

(** [int(change[len(setting + '='):])] of the last change of a setting. *)
Definition last_value (settings_changes : list string) (setting : string)
    : option (res Z) :=
  match get_last_setting_change settings_changes setting with
  | Some change =>
      if Py.truthy change
      then Some (MemInit.py_int (str_drop (String.length (setting +:+ "=")) change))
      else None
  | None => None
  end.

(** Libraries are searched before settings_changes are applied, so the
    values of STRICT and ERROR_ON_MISSING_LIBRARIES are applied already now.
    [EMCC_STRICT] is the variable of the environment. *)
Definition strict_block (EMCC_STRICT : option string) (settings_changes : list string)
    (s : StrictSettings) : res StrictSettings :=
  let strict :=
    match EMCC_STRICT with
    | Some v => if negb (String.eqb v "0") then 1%Z else 0%Z
    | None => STRICT s
    end in
  strict ← match last_value settings_changes "STRICT" with
           | Some n => n
           | None => Ret strict
           end;
  let '(undefined_symbols, missing_libraries) :=
    if negb (strict =? 0)%Z then (1%Z, 1%Z)
    else (ERROR_ON_UNDEFINED_SYMBOLS s, ERROR_ON_MISSING_LIBRARIES s) in
  missing_libraries ← match last_value settings_changes "ERROR_ON_MISSING_LIBRARIES" with
                      | Some n => n
                      | None => Ret missing_libraries
                      end;
  Ret {| STRICT := strict; ERROR_ON_UNDEFINED_SYMBOLS := undefined_symbols;
         ERROR_ON_MISSING_LIBRARIES := missing_libraries |}.

Definition DEFERRED_REPONSE_FILES := ["EMTERPRETIFY_BLACKLIST"; "EMTERPRETIFY_WHITELIST"].

(** In those settings fields that represent amount of memory, suffixes are
    translated to multiples of 1024. *)
Definition MEMORY_SETTINGS :=
  ["TOTAL_STACK"; "TOTAL_MEMORY"; "GL_MAX_TEMP_BUFFER_SIZE"; "SPLIT_MEMORY";
   "BINARYEN_MEM_MAX"].

(** How the loop over [settings_changes] can fail before its [exec]. *)
Inductive setting_error :=
  | UnpackError                      (* ValueError of [key, value = ...] *)
  | EmptyValue                       (* IndexError of [value[0]] *)
  | ByteSizeError                    (* raised by [expand_byte_size_suffixes] *)
  | ReadError (file : string).       (* IOError of [open] *)

Section SettingStatement.
(** [str(shared.expand_byte_size_suffixes(value))] and [open(name).read()],
    [None] when they raise. *)
Variable expand_byte_size_suffixes : string → option string.
Variable read_file : string → option string.

(** The statement that the loop executes for a change. *)
Definition setting_statement (change : string) : setting_error + string :=
  match Py.split "=" change with
  | [key; value] =>
      match (if is_in key MEMORY_SETTINGS then expand_byte_size_suffixes value
             else Some value) with
      | None => inl ByteSizeError
      | Some value =>
          match value with
          | EmptyString => inl EmptyValue
          | String c rest =>
              let statement (value : string) :=
                inr ("shared.Settings." +:+ key +:+ " = " +:+ value) in
              if Ascii.eqb c "@" then
                if negb (is_in key DEFERRED_REPONSE_FILES) then
                  match read_file rest with
                  | Some text => statement text
                  | None => inl (ReadError rest)
                  end
                else statement (ResponseWrite.dq +:+ value +:+ ResponseWrite.dq)
              else
                statement (ResponseWrite.replace_char Shlex.bs
                             (ResponseWrite.bs +:+ ResponseWrite.bs) value)
          end
      end
  | _ => inl UnpackError
  end.
End SettingStatement.

End SettingsApply.

Module SettingsSpec.

(** The number of times that a character is in a string. *)
Fixpoint count_char (c : ascii) (s : string) : nat :=
  match s with
  | EmptyString => 0
  | String a s' => (if Ascii.eqb a c then 1 else 0) + count_char c s'
  end.

Definition ex_strict : SettingsApply.StrictSettings :=
  {| SettingsApply.STRICT := 0; SettingsApply.ERROR_ON_UNDEFINED_SYMBOLS := 0;
     SettingsApply.ERROR_ON_MISSING_LIBRARIES := 0 |}.

End SettingsSpec.

(** ** The port of binaryen: [tools/ports/binaryen.py] *)

Module BinaryenPort.

Definition TAG : string := "version_82".

(** [os.path.join] of [posixpath]. *)
Definition join2 (path b : string) : string :=
  if Py.startswith b "/" then b
  else if String.eqb path "" || Py.endswith path "/" then path +:+ b
  else path +:+ "/" +:+ b.

Definition os_path_join (a : string) (p : list string) : string := foldl join2 a p.

(** What the port does: [ports.fetch_project] and [shared.Cache.get]. *)
Inductive port_event :=
  | FetchProject (name url subdir : string)
  | CacheGet (shortname : string).

Section Port.
(** [settings.WASM], [ports.get_dir()], and the file that
    [shared.Cache.get] returns for a name. *)
Variable WASM : Z.
Variable ports_dir : string.
Variable cache_file : string → string.

(** [needed(settings, shared, ports)], with [shared.BINARYEN_ROOT] before
    and after. *)
Definition needed (BINARYEN_ROOT : string) : bool * string :=
  if negb (SplitMemory.truthy WASM) then (false, BINARYEN_ROOT)
  else if Py.truthy BINARYEN_ROOT
  then (false, BINARYEN_ROOT)   (* if defined, and not falsey, we don't need the port *)
  else (true, os_path_join ports_dir ["binaryen"; "binaryen-" +:+ TAG]).

(** [get(ports, settings, shared)] *)
Definition get (BINARYEN_ROOT : string) : list string * string * list port_event :=
  let '(is_needed, BINARYEN_ROOT) := needed BINARYEN_ROOT in
  if negb is_needed then ([], BINARYEN_ROOT, [])
  else
    ([cache_file ("binaryen_tag_" +:+ TAG +:+ ".txt")], BINARYEN_ROOT,
     [FetchProject "binaryen"
        ("https://github.com/WebAssembly/binaryen/archive/" +:+ TAG +:+ ".zip")
        ("binaryen-" +:+ TAG);
      CacheGet ("binaryen_tag_" +:+ TAG +:+ ".txt")]).
End Port.

End BinaryenPort.

(** ** [tools/distill_asm.py] *)

Module DistillAsm.

Definition nl : string := String "010" EmptyString.

(** The code that swaps the asm module in. *)
Definition SWAP_IN : string :=
  " (asmGlobalArg, asmLibraryArg, buffer);" +:+ nl +:+
  " // special fixups" +:+ nl +:+
  " asm.stackRestore(Module['asm'].stackSave()); // if this fails, make sure the original was built to be swappable (-s SWAPPABLE_ASM_MODULE=1)" +:+ nl +:+
  " // Finish swap" +:+ nl +:+
  " Module['asm'] = asm;" +:+ nl +:+
  " if (Module['onAsmSwap']) Module['onAsmSwap']();" +:+ nl.

(** [s.find(c)] *)
Fixpoint find (c : ascii) (s : string) : Z :=
  match s with
  | EmptyString => (-1)%Z
  | String a s' =>
      if Ascii.eqb a c then 0%Z
      else let k := find c s' in if (k <? 0)%Z then (-1)%Z else (k + 1)%Z
  end.

Section Script.
(** [asm_module.AsmModule(infile).asm_js] *)
Variable asm_js : string → string.

(** The script: the name of the file that it writes, and the text. *)
Definition distill (argv : list string) : res (string * string) :=
  match argv !! 1, argv !! 2 with
  | Some infile, Some outfile =>
      let extra := if (4 <=? length argv)%nat then default "" (argv !! 3) else ";" in
      let module := asm_js infile in
      let '(module, extra) :=
        if String.eqb extra "swap-in" then (module, SWAP_IN)
        else if String.eqb extra "just-func"
        then (* strip the initial "var asm =" bit *)
             (Driver.str_drop (Z.to_nat (find "=" module + 1)) module, ";")
        else (module, extra) in
      Ret (outfile, module +:+ extra)
  | _, _ => Raise IndexError
  end.
End Script.

End DistillAsm.

(** ** The suffix of the target: [emcc.run] *)

Module Target.

(** [if '.' in target: final_suffix = target.split('.')[-1]], else [''] *)
Definition final_suffix (target : string) : string :=
  if FileNameSpec.has_char "." target
  then default "" (last (Py.split "." target))
  else "".

End Target.

(** * Properties *)

(** ** Python strings and lists *)

Module PyFacts.

Lemma endswith_refl s : Py.endswith s s = true.
Proof. destruct s; cbn [Py.endswith]; by rewrite String.eqb_refl. Qed.

Lemma endswith_app a b suf :
  Py.endswith b suf = true → Py.endswith (a +:+ b) suf = true.
Proof.
  intros H. induction a as [|c a IH]; [done|].
  change (String c a +:+ b) with (String c (a +:+ b)).
  cbn [Py.endswith]. rewrite IH. apply orb_true_r.
Qed.

(** The last character of a non-empty suffix is the last character of the
    string. *)
Fixpoint last_char (s : string) : option ascii :=
  match s with
  | EmptyString => None
  | String c EmptyString => Some c
  | String _ s' => last_char s'
  end.

Lemma endswith_last_char s suf :
  Py.endswith s suf = true → suf ≠ "" → last_char s = last_char suf.
Proof.
  intros H Hne. induction s as [|c s IH].
  - cbn [Py.endswith] in H. rewrite orb_false_r in H. apply String.eqb_eq in H. by subst.
  - cbn [Py.endswith] in H. apply orb_true_iff in H as [H|H].
    + apply String.eqb_eq in H. by subst.
    + specialize (IH H). destruct s as [|c' s']; [|exact IH].
      cbn [Py.endswith] in H. rewrite orb_false_r in H. apply String.eqb_eq in H. by subst.
Qed.

Section SortFacts.
Context {A : Type} (key : A → bool).

Lemma insert_sorted_partition (x : A) (fs ts : list A) :
  Forall (λ y, key y = false) fs → Forall (λ y, key y = true) ts →
  Py.insert_sorted key x (fs ++ ts) =
    if key x then fs ++ ts ++ [x] else fs ++ x :: ts.
Proof.
  intros Hf Ht. induction Hf as [|y fs Hy Hf IH]; simpl.
  - induction Ht as [|y ts Hy Ht IH]; simpl.
    + by destruct (key x).
    + unfold Py.key_le. rewrite Hy. destruct (key x) eqn:Hx; simpl; [|done].
      simpl in IH. by rewrite IH.
  - unfold Py.key_le at 1. rewrite Hy. simpl. rewrite IH. by destruct (key x).
Qed.

(** A stable sort on a boolean key: the elements with a false key in their
    order, then the elements with a true key in their order. *)
Lemma sort_by_partition (l : list A) :
  Py.sort_by key l = List.filter (λ x, negb (key x)) l ++ List.filter key l.
Proof.
  unfold Py.sort_by.
  assert (G : ∀ fs ts, Forall (λ y, key y = false) fs → Forall (λ y, key y = true) ts →
    foldl (λ acc x, Py.insert_sorted key x acc) (fs ++ ts) l =
      (fs ++ List.filter (λ x, negb (key x)) l) ++ (ts ++ List.filter key l)).
  { induction l as [|x l IH]; intros fs ts Hf Ht; simpl.
    - by rewrite !app_nil_r.
    - rewrite insert_sorted_partition by done.
      destruct (key x) eqn:Hx; simpl.
      + rewrite (IH fs (ts ++ [x])); [|done|].
        * by rewrite <- !app_assoc.
        * apply Forall_app; split; [done|]. by constructor.
      + replace (fs ++ x :: ts) with ((fs ++ [x]) ++ ts) by by rewrite <- app_assoc.
        rewrite IH; [|apply Forall_app; split; [done|by constructor]|done].
        by rewrite <- !app_assoc. }
  apply (G [] []); constructor.
Qed.

Lemma filter_Forall (p : A → bool) (l : list A) :
  Forall (λ x, p x = true) (List.filter p l).
Proof.
  induction l as [|x l IH]; simpl; [constructor|].
  destruct (p x) eqn:Hx; [by constructor|done].
Qed.
End SortFacts.

End PyFacts.

(** ** The library dependency resolver *)

Module SystemLibsFacts.
Import SystemLibs.

(** *** Loops over a state *)

Lemma for_each_run_inv {A} (P : RState → Prop) (body : A → RState → run unit) l :
  (∀ x st st', x ∈ l → P st → state_of (body x st) = Some st' → P st') →
  ∀ st st', P st → state_of (for_each_run body l st) = Some st' → P st'.
Proof.
  induction l as [|x l IH]; intros Hbody st st' HP Hst; simpl in Hst.
  - by simplify_eq.
  - destruct (body x st) as [[] st1|e st1|] eqn:Hx; simpl in Hst; [|simplify_eq|done].
    + apply (IH (λ y s s' Hy, Hbody y s s' (list_elem_of_further _ _ _ Hy)) st1); [|done].
      eapply Hbody; [left|done|by rewrite Hx].
    + eapply Hbody; [left|done|by rewrite Hx].
Qed.

Lemma for_each_run_stops {A} (P : RState → Prop) (body : A → RState → run unit) l :
  (∀ x st, x ∈ l → P st → ∃ st', state_of (body x st) = Some st' ∧ P st') →
  ∀ st, P st → ∃ st', state_of (for_each_run body l st) = Some st'.
Proof.
  induction l as [|x l IH]; intros Hbody st HP; simpl; [by eexists|].
  destruct (Hbody x st) as (st1 & Hx & HP1); [left|done|].
  destruct (body x st) as [[] s|e s|]; simpl in Hx; simplify_eq; simpl; [|by eexists].
  apply IH; [|done]. intros y s Hy. apply Hbody. by right.
Qed.

Lemma for_each_run_done {A} (P : RState → Prop) (body : A → RState → run unit) l :
  (∀ x st, x ∈ l → P st → ∃ st', body x st = Done tt st' ∧ P st') →
  ∀ st, P st → ∃ st', for_each_run body l st = Done tt st' ∧ P st'.
Proof.
  induction l as [|x l IH]; intros Hbody st HP; simpl; [by eexists|].
  destruct (Hbody x st) as (st1 & -> & HP1); [left|done|].
  apply IH; [|done]. intros y s Hy. apply Hbody. by right.
Qed.

(** *** The map of the registered libraries *)

Lemma system_libs_map_lookup (libs : list Library) d l :
  system_libs_map libs !! d = Some l → shortname l = d ∧ l ∈ libs.
Proof.
  unfold system_libs_map.
  assert (G : ∀ m0 : gmap string Library,
    foldl (λ m l, <[shortname l := l]> m) m0 libs !! d = Some l →
    (shortname l = d ∧ l ∈ libs) ∨ m0 !! d = Some l).
  { induction libs as [|x libs IH]; intros m0 H; simpl in H; [by right|].
    destruct (IH _ H) as [[? ?]|H']; [left; split; [done|by right]|].
    destruct (decide (shortname x = d)) as [<-|Hne].
    - rewrite lookup_insert_eq in H'. simplify_eq. left. split; [done|left].
    - rewrite lookup_insert_ne in H' by done. by right. }
  intros H. destruct (G ∅ H) as [?|H']; [done|]. by rewrite lookup_empty in H'.
Qed.

Lemma system_libs_map_dom (libs : list Library) :
  dom (system_libs_map libs) = list_to_set (shortname <$> libs).
Proof.
  unfold system_libs_map.
  assert (G : ∀ m0 : gmap string Library,
    dom (foldl (λ m l, <[shortname l := l]> m) m0 libs)
    = dom m0 ∪ list_to_set (shortname <$> libs)).
  { induction libs as [|x libs IH]; intros m0; simpl.
    - set_solver.
    - rewrite IH, dom_insert_L. set_solver. }
  rewrite G, dom_empty_L. set_solver.
Qed.

Lemma registered_in_dom (libs : list Library) l :
  l ∈ libs → shortname l ∈ dom (system_libs_map libs).
Proof.
  intros H. rewrite system_libs_map_dom. apply elem_of_list_to_set.
  apply list_elem_of_fmap. eauto.
Qed.

Lemma unique_shortname (libs : list Library) l1 l2 :
  NoDup (shortname <$> libs) → l1 ∈ libs → l2 ∈ libs →
  shortname l1 = shortname l2 → l1 = l2.
Proof.
  induction libs as [|x libs IH]; intros Hnd H1 H2 Heq; [by apply elem_of_nil in H1|].
  rewrite fmap_cons in Hnd. apply NoDup_cons in Hnd as [Hx Hnd].
  apply elem_of_cons in H1 as [->|H1]; apply elem_of_cons in H2 as [->|H2]; [done| | |by apply IH].
  - exfalso. apply Hx. rewrite Heq. apply list_elem_of_fmap. eauto.
  - exfalso. apply Hx. rewrite <- Heq. apply list_elem_of_fmap. eauto.
Qed.

(** *** The symbols that decide on a library *)

Lemma scan_syms_spec (lib : Library) (symbolses : list Symbols) s :
  (s ∈ (scan_syms lib symbolses).1 ↔
     s ∈ symbols lib ∧ ∃ u, u ∈ symbolses ∧ s ∈ undefs u) ∧
  (s ∈ (scan_syms lib symbolses).2 ↔
     s ∈ symbols lib ∧ ∃ u, u ∈ symbolses ∧ s ∈ defs u).
Proof.
  unfold scan_syms.
  assert (Hin : ∀ syms l acc,
    (s ∈ (foldl (scan_symbol syms) acc l).1 ↔ s ∈ acc.1 ∨ (s ∈ l ∧ s ∈ undefs syms)) ∧
    (s ∈ (foldl (scan_symbol syms) acc l).2 ↔ s ∈ acc.2 ∨ (s ∈ l ∧ s ∈ defs syms))).
  { intros syms l. induction l as [|x l IH]; intros [n h]; simpl.
    - set_solver.
    - destruct (IH (scan_symbol syms (n, h) x)) as [IH1 IH2]. rewrite IH1, IH2.
      unfold scan_symbol; simpl. repeat case_bool_decide; set_solver. }
  assert (Hout : ∀ l acc,
    (s ∈ (foldl (λ acc syms, foldl (scan_symbol syms) acc (symbols lib)) acc l).1 ↔
       s ∈ acc.1 ∨ (s ∈ symbols lib ∧ ∃ u, u ∈ l ∧ s ∈ undefs u)) ∧
    (s ∈ (foldl (λ acc syms, foldl (scan_symbol syms) acc (symbols lib)) acc l).2 ↔
       s ∈ acc.2 ∨ (s ∈ symbols lib ∧ ∃ u, u ∈ l ∧ s ∈ defs u))).
  { induction l as [|x l IH]; intros acc; simpl.
    - set_solver.
    - destruct (IH (foldl (scan_symbol x) acc (symbols lib))) as [IH1 IH2].
      destruct (Hin x (symbols lib) acc) as [H1 H2].
      rewrite IH1, IH2, H1, H2. set_solver. }
  destruct (Hout symbolses (∅, ∅)) as [H1 H2]. simpl in H1, H2.
  split.
  - etrans; [exact H1|]. set_solver.
  - etrans; [exact H2|]. set_solver.
Qed.

(** The residual is what is left of the needed symbols once every symbol that
    some input defines is taken out, each of them once and for all. *)
Lemma residual_spec (lib : Library) (symbolses : list Symbols) s :
  s ∈ residual lib symbolses ↔
    s ∈ symbols lib ∧ (∃ u, u ∈ symbolses ∧ s ∈ undefs u)
    ∧ ¬ (∃ u, u ∈ symbolses ∧ s ∈ defs u).
Proof.
  unfold residual.
  destruct (scan_syms lib symbolses) as [need has] eqn:Hscan.
  destruct (scan_syms_spec lib symbolses s) as [H1 H2]. rewrite Hscan in H1, H2.
  simpl in H1, H2.
  assert (G : ∀ (l : list string) (need : gset string),
    s ∈ foldl (λ need_syms haz,
                 if bool_decide (haz ∈ need_syms) then need_syms ∖ {[haz]} else need_syms)
              need l ↔ s ∈ need ∧ s ∉ l).
  { induction l as [|x l IH]; intros nd; simpl.
    - set_solver.
    - rewrite IH. case_bool_decide; set_solver. }
  rewrite G, H1, elem_of_elements, H2. set_solver.
Qed.

End SystemLibsFacts.

(** *** [add_library]: the traversal of the dependencies *)

Module AddLibraryFacts.
Import SystemLibs SystemLibsFacts.

Section AddLibrary.
Variable Cache_get : string → string.
Variable settings : Settings.
Variable system_libs : list Library.
Variable force_include : gset string.

Local Abbreviation registered := (system_libs_map system_libs).
Local Abbreviation add_library := (add_library Cache_get settings system_libs force_include).

(** The registered names that are not included yet. *)
Definition pending (st : RState) : nat := size (dom registered ∖ already_included st).

Lemma pending_mono st st' :
  already_included st ⊆ already_included st' → pending st' ≤ pending st.
Proof. intros H. unfold pending. apply subseteq_size. set_solver. Qed.

Lemma pending_add st st' n :
  n ∈ dom registered → n ∉ already_included st →
  {[n]} ∪ already_included st ⊆ already_included st' → pending st' < pending st.
Proof.
  intros Hn Hn' H. unfold pending. apply subset_size. split; [set_solver|].
  intros Hsub. assert (n ∈ dom registered ∖ already_included st') by set_solver.
  set_solver.
Qed.

(** Nothing that was included is lost, and the export list is not touched. *)
Lemma add_library_mono f lib st st' :
  state_of (add_library f lib st) = Some st' →
  already_included st ⊆ already_included st' ∧ exports st' = exports st
  ∧ trace st `prefix_of` trace st'.
Proof.
  revert lib st st'. induction f as [|f IH]; intros lib st st' H; [done|].
  cbn [SystemLibs.add_library] in H. case_bool_decide as Hin.
  { simpl in H. by simplify_eq. }
  match type of H with
  | state_of (for_each_run ?body ?l ?s1) = _ =>
      apply (for_each_run_inv
               (λ s, already_included s1 ⊆ already_included s ∧ exports s = exports st
                     ∧ trace s1 `prefix_of` trace s) body l) in H
  end.
  - destruct H as (H1 & H2 & H3). simpl in H1, H3. split_and!; [set_solver|done|].
    etrans; [|exact H3]. by apply prefix_app_r.
  - intros d s s' _ (Hs1 & Hs2 & Hs3) Hd.
    destruct (registered !! d) as [l|]; simpl in Hd; [|by simplify_eq].
    apply IH in Hd as (? & ? & ?). split_and!; [set_solver|congruence|by etrans].
  - simpl. done.
Qed.

Lemma add_library_included f lib st st' :
  add_library f lib st = Done tt st' → shortname lib ∈ already_included st'.
Proof.
  intros H. destruct f as [|f]; [done|]. cbn [SystemLibs.add_library] in H.
  case_bool_decide as Hin; [by simplify_eq|].
  match type of H with
  | for_each_run ?body ?l ?s1 = _ =>
      assert (Hs : state_of (for_each_run body l s1) = Some st') by (by rewrite H);
      apply (for_each_run_inv (λ s, shortname lib ∈ already_included s) body l) in Hs
  end; [done| |simpl; set_solver].
  intros d s s' _ Hs' Hd.
  destruct (registered !! d) as [l|]; simpl in Hd; [|by simplify_eq].
  apply add_library_mono in Hd as (? & _). set_solver.
Qed.

(** Each included module is put on the link line once. *)
Lemma add_library_count f lib st st' :
  length (libs_to_link st) = size (already_included st) →
  state_of (add_library f lib st) = Some st' →
  length (libs_to_link st') = size (already_included st').
Proof.
  revert lib st st'. induction f as [|f IH]; intros lib st st' Hc H; [done|].
  cbn [SystemLibs.add_library] in H. case_bool_decide as Hin.
  { simpl in H. by simplify_eq. }
  match type of H with
  | state_of (for_each_run ?body ?l ?s1) = _ =>
      apply (for_each_run_inv
               (λ s, length (libs_to_link s) = size (already_included s)) body l) in H
  end; [done| |].
  - intros d s s' _ Hs Hd.
    destruct (registered !! d) as [l|]; simpl in Hd; [|by simplify_eq]. by eapply IH.
  - simpl. rewrite length_app, size_union by set_solver.
    rewrite size_singleton. simpl. lia.
Qed.

(** Every included name is one of [R], or stands in the dependency list of
    a registered library that is included. *)
Definition justified (R : string → Prop) (st : RState) : Prop :=
  ∀ n, n ∈ already_included st →
    R n ∨ ∃ p, p ∈ system_libs ∧ shortname p ∈ already_included st ∧ n ∈ deps p.

Lemma add_library_justified (R : string → Prop) f lib st st' :
  lib ∈ system_libs →
  (R (shortname lib) ∨
     ∃ p, p ∈ system_libs ∧ shortname p ∈ already_included st ∧ shortname lib ∈ deps p) →
  justified R st →
  state_of (add_library f lib st) = Some st' →
  justified R st'.
Proof.
  revert lib st st'. induction f as [|f IH]; intros lib st st' Hlib Hj HJ H; [done|].
  cbn [SystemLibs.add_library] in H. case_bool_decide as Hin.
  { simpl in H. by simplify_eq. }
  match type of H with
  | state_of (for_each_run ?body ?l ?s1) = _ =>
      apply (for_each_run_inv
               (λ s, justified R s ∧ shortname lib ∈ already_included s) body
               (deps lib)) in H
  end; [by destruct H| |].
  - intros d s s' Hd [Hs1 Hs2] Hbody.
    destruct (registered !! d) as [l|] eqn:Hl; simpl in Hbody; [|by simplify_eq].
    apply system_libs_map_lookup in Hl as [Hname Hl]. split.
    + eapply IH; [exact Hl| |exact Hs1|exact Hbody].
      right. exists lib. by rewrite Hname.
    + apply add_library_mono in Hbody as (? & _). set_solver.
  - split; [|simpl; set_solver].
    intros n Hn. simpl in Hn. apply elem_of_union in Hn as [Hn|Hn].
    + apply elem_of_singleton in Hn as ->.
      destruct Hj as [?|(p & ? & ? & ?)]; [by left|].
      right. exists p. simpl. split_and!; [done|set_solver|done].
    + destruct (HJ n Hn) as [?|(p & ? & ? & ?)]; [by left|].
      right. exists p. simpl. split_and!; [done|set_solver|done].
Qed.

(** The traversal never runs out of fuel: every call that goes on takes a
    registered name out of the pending ones. *)
Lemma add_library_stops f lib st :
  shortname lib ∈ dom registered → pending st < f →
  ∃ st', state_of (add_library f lib st) = Some st'.
Proof.
  revert lib st. induction f as [|f IH]; intros lib st Hreg Hf; [lia|].
  cbn [SystemLibs.add_library]. case_bool_decide as Hin; [by eexists|].
  match goal with
  | |- ∃ st', state_of (for_each_run ?body ?l ?s1) = _ =>
      apply (for_each_run_stops
               (λ s, already_included s1 ⊆ already_included s) body l); [|done]
  end.
  intros d s _ Hs.
  assert (pending s < f).
  { assert (pending s < pending st); [|lia].
    apply (pending_add _ _ (shortname lib)); [done..|]. etrans; [|exact Hs]. done. }
  destruct (registered !! d) as [l|] eqn:Hl; simpl; [|by eexists].
  apply system_libs_map_lookup in Hl as [Hname Hl].
  destruct (IH l s) as [s' Hs']; [by apply registered_in_dom|done|].
  exists s'. split; [done|]. apply add_library_mono in Hs' as (? & _). set_solver.
Qed.

(** With every dependency registered, the traversal ends without an error,
    whether the dependency lists are cyclic or not. *)
Lemma add_library_done f lib st :
  (∀ l d, l ∈ system_libs → d ∈ deps l → d ∈ dom registered) →
  lib ∈ system_libs → pending st < f →
  ∃ st', add_library f lib st = Done tt st'.
Proof.
  intros Hclosed. revert lib st.
  induction f as [|f IH]; intros lib st Hlib Hf; [lia|].
  cbn [SystemLibs.add_library]. case_bool_decide as Hin; [by eexists|].
  match goal with
  | |- ∃ st', for_each_run ?body ?l ?s1 = _ =>
      destruct (for_each_run_done
                  (λ s, already_included s1 ⊆ already_included s) body l) with (st := s1)
        as (st' & Hst' & _); [|done|by exists st']
  end.
  intros d s Hd Hs.
  assert (pending s < f).
  { assert (pending s < pending st); [|lia].
    apply (pending_add _ _ (shortname lib)); [by apply registered_in_dom|done|].
    etrans; [|exact Hs]. done. }
  destruct (registered !! d) as [l|] eqn:Hl; simpl.
  - apply system_libs_map_lookup in Hl as [Hname Hl].
    destruct (IH l s) as [s' Hs']; [done..|].
    exists s'. split; [done|].
    assert (Hst : state_of (add_library f l s) = Some s') by by rewrite Hs'.
    apply add_library_mono in Hst as (? & _). set_solver.
  - exfalso. apply not_elem_of_dom in Hl. apply Hl. by eapply Hclosed.
Qed.

Lemma pending_fuel st :
  pending st < fuel system_libs.
Proof.
  unfold fuel, pending.
  assert (size (dom registered ∖ already_included st) ≤ size (dom registered))
    by (apply subseteq_size; set_solver).
  rewrite size_dom in H. lia.
Qed.
End AddLibrary.

End AddLibraryFacts.

(** *** The scan of the registered libraries *)

Module ScanFacts.
Import SystemLibs SystemLibsFacts AddLibraryFacts.

Section Scan.
Variable Cache_get : string → string.
Variable settings : Settings.
Variable system_libs : list Library.
Variable always_include : gset string.
Variable force_include : gset string.
Variable only_forced : bool.
Variable symbolses : list Symbols.

Local Abbreviation registered := (system_libs_map system_libs).
Local Abbreviation add_library := (add_library Cache_get settings system_libs force_include).
Local Abbreviation scan_lib :=
  (scan_lib Cache_get settings system_libs always_include force_include only_forced symbolses).
Local Abbreviation scan_libs :=
  (scan_libs Cache_get settings system_libs always_include force_include only_forced symbolses).
Local Abbreviation justified := (justified system_libs).

(** The libraries that the scan itself decides to include. *)
Definition root (lib : Library) : Prop :=
  shortname lib ∈ force_include ∨
  (only_forced = false ∧
     (shortname lib ∈ always_include ∨ residual lib symbolses ≠ ∅)).

Definition root_name (n : string) : Prop :=
  ∃ lib, lib ∈ system_libs ∧ shortname lib = n ∧ root lib.

Lemma residual_size lib :
  (size (residual lib symbolses) =? 0) = false ↔ residual lib symbolses ≠ ∅.
Proof.
  rewrite Nat.eqb_neq. split; intros H Hs; apply H.
  - by rewrite Hs, size_empty.
  - by apply size_empty_iff, leibniz_equiv in Hs.
Qed.

(** The four ways through the body of the loop. *)
Lemma scan_lib_cases lib st :
  (Py.startswith (shortname lib) "lib" = false ∧ ∃ e, scan_lib lib st = Abort e st)
  ∨ (scan_lib lib st = Done tt st ∧ (shortname lib ∈ already_included st ∨ ¬ root lib))
  ∨ (scan_lib lib st = add_library (fuel system_libs) lib st
     ∧ Py.startswith (shortname lib) "lib" = true ∧ root lib).
Proof.
  unfold SystemLibs.scan_lib, root.
  destruct (Py.startswith (shortname lib) "lib"); simpl; [|left; split; [done|by eexists]].
  right. case_bool_decide as Hin; [left; split; [done|by left]|].
  case_bool_decide as Hf; simpl.
  { right. split_and!; [done..|by left]. }
  destruct only_forced; simpl.
  { left. split; [done|]. right. intros [?|[? _]]; done. }
  case_bool_decide as Ha; simpl.
  { right. split_and!; [done..|]. right. split; [done|by left]. }
  destruct (size (residual lib symbolses) =? 0) eqn:Hr.
  - left. split; [done|]. right. intros [?|[_ [?|Hne]]]; [done..|].
    apply Nat.eqb_eq in Hr. apply residual_size in Hne. apply Nat.eqb_neq in Hne. done.
  - right. split_and!; [done..|]. right. split; [done|]. right. by apply residual_size.
Qed.

Lemma scan_lib_mono lib st st' :
  state_of (scan_lib lib st) = Some st' →
  already_included st ⊆ already_included st' ∧ exports st' = exports st.
Proof.
  intros H. destruct (scan_lib_cases lib st) as [[_ [e He]]|[[He _]|[He _]]]; rewrite He in H.
  - simpl in H. by simplify_eq.
  - simpl in H. by simplify_eq.
  - apply add_library_mono in H as (? & ? & ?). done.
Qed.

Lemma scan_lib_count lib st st' :
  length (libs_to_link st) = size (already_included st) →
  state_of (scan_lib lib st) = Some st' →
  length (libs_to_link st') = size (already_included st').
Proof.
  intros Hc H. destruct (scan_lib_cases lib st) as [[_ [e He]]|[[He _]|[He _]]]; rewrite He in H.
  - simpl in H. by simplify_eq.
  - simpl in H. by simplify_eq.
  - by eapply add_library_count.
Qed.

Lemma scan_lib_justified lib st st' :
  lib ∈ system_libs → justified root_name st →
  state_of (scan_lib lib st) = Some st' → justified root_name st'.
Proof.
  intros Hlib HJ H.
  destruct (scan_lib_cases lib st) as [[_ [e He]]|[[He _]|(He & _ & Hroot)]]; rewrite He in H.
  - simpl in H. by simplify_eq.
  - simpl in H. by simplify_eq.
  - eapply add_library_justified; [exact Hlib| |exact HJ|exact H].
    left. by exists lib.
Qed.

Lemma scan_lib_includes lib st st' :
  scan_lib lib st = Done tt st' → root lib → shortname lib ∈ already_included st'.
Proof.
  intros H Hroot.
  destruct (scan_lib_cases lib st) as [[_ [e He]]|[[He Hc]|[He _]]]; rewrite He in H.
  - done.
  - simplify_eq. by destruct Hc.
  - by eapply add_library_included.
Qed.

Lemma scan_libs_mono l st st' :
  state_of (for_each_run scan_lib l st) = Some st' →
  already_included st ⊆ already_included st' ∧ exports st' = exports st.
Proof.
  apply (for_each_run_inv
           (λ s, already_included st ⊆ already_included s ∧ exports s = exports st)); [|done].
  intros x s s' _ [? ?] Hx. apply scan_lib_mono in Hx as [? ?].
  split; [set_solver|congruence].
Qed.

Lemma scan_libs_includes l st st' lib :
  for_each_run scan_lib l st = Done tt st' → lib ∈ l → root lib →
  shortname lib ∈ already_included st'.
Proof.
  revert st. induction l as [|x l IH]; intros st H Hl Hroot; [by apply elem_of_nil in Hl|].
  simpl in H. destruct (scan_lib x st) as [[] s|e s|] eqn:Hx; [|done..].
  apply elem_of_cons in Hl as [->|Hl]; [|by eapply IH].
  assert (Hs : state_of (for_each_run scan_lib l s) = Some st') by (by rewrite H).
  apply scan_libs_mono in Hs as [Hs _].
  apply Hs. by eapply scan_lib_includes.
Qed.

Lemma scan_libs_justified st st' :
  justified root_name st → state_of (scan_libs st) = Some st' → justified root_name st'.
Proof.
  intros HJ. unfold SystemLibs.scan_libs.
  apply (for_each_run_inv (justified root_name)); [|done].
  intros x s s' Hx Hs. by apply scan_lib_justified.
Qed.
End Scan.



End ScanFacts.

(** *** [calculate] as a whole *)

Module CalculateFacts.
Import SystemLibs SystemLibsFacts AddLibraryFacts ScanFacts ResolverSpec.

(** [add_back_deps] ends: a pass that asks for another one has added a key
    of [deps_info] that was not added before. *)
Section BackDeps.
Variable deps_info : list (string * list string).

Local Abbreviation keys := (list_to_set deps_info.*1 : gset string).

Lemma add_back_deps_item_spec st item :
  bd_added st ⊆ bd_added (add_back_deps_item st item)
  ∧ bd_added (add_back_deps_item st item) ⊆ bd_added st ∪ {[ (item.1) ]}
  ∧ (bd_more (add_back_deps_item st item) = true →
     bd_more st = true ∨ (item.1 ∉ bd_added st ∧ item.1 ∈ bd_added (add_back_deps_item st item))).
Proof.
  destruct item as [ident ds]. unfold add_back_deps_item.
  destruct (bool_decide (ident ∈ bd_undefs st) && negb (bool_decide (ident ∈ bd_added st)))
    eqn:Hc; [|set_solver].
  apply andb_true_iff in Hc as [_ Hc]. apply negb_true_iff, bool_decide_eq_false in Hc.
  match goal with
  | |- context [foldl ?f ?s0 ds] =>
      assert (G : ∀ l s, bd_added (foldl f s l) = bd_added s
                         ∧ bd_more (foldl f s l) = bd_more s)
  end.
  { induction l as [|x l IH]; intros s; simpl; [done|].
    destruct (IH {| bd_undefs := {[x]} ∪ bd_undefs s; bd_added := bd_added s;
                    bd_exports := bd_exports s ++ ["_" +:+ x]; bd_more := bd_more s |})
      as [-> ->]. done. }
  match goal with
  | |- context [foldl ?f ?s0 ds] => destruct (G ds s0) as [-> ->]
  end.
  simpl. split_and!; [set_solver..|]. intros _. right. set_solver.
Qed.

Lemma add_back_deps_pass l st :
  bd_added st ⊆ bd_added (foldl add_back_deps_item st l)
  ∧ bd_added (foldl add_back_deps_item st l) ⊆ bd_added st ∪ list_to_set (fst <$> l)
  ∧ (bd_more (foldl add_back_deps_item st l) = true →
     bd_more st = true ∨
     ∃ ident, ident ∈ (list_to_set l.*1 : gset string) ∧ ident ∉ bd_added st
              ∧ ident ∈ bd_added (foldl add_back_deps_item st l)).
Proof.
  revert st. induction l as [|item l IH]; intros st; simpl.
  - split_and!; [set_solver..|]. by left.
  - destruct (IH (add_back_deps_item st item)) as (I1 & I2 & I3).
    destruct (add_back_deps_item_spec st item) as (J1 & J2 & J3).
    split_and!; [set_solver..|].
    intros Hm. destruct (I3 Hm) as [Hm'|(ident & Hi1 & Hi2 & Hi3)].
    + destruct (J3 Hm') as [?|[? ?]]; [by left|].
      right. exists item.1. split_and!; [set_solver|done|set_solver].
    + right. exists ident. split_and!; [set_solver|set_solver|done].
Qed.

Lemma add_back_deps_returns fuel st :
  size (keys ∖ bd_added st) < fuel → ∃ st', add_back_deps fuel deps_info st = Ret st'.
Proof.
  revert st. induction fuel as [|fuel IH]; intros st Hf; [lia|].
  cbn [add_back_deps].
  match goal with
  | |- context [foldl add_back_deps_item ?s0 deps_info] =>
      destruct (add_back_deps_pass deps_info s0) as (P1 & P2 & P3);
      destruct (bd_more (foldl add_back_deps_item s0 deps_info)) eqn:Hm; [|by eexists]
  end.
  apply IH. simpl in *.
  destruct (P3 eq_refl) as [?|(ident & Hi1 & Hi2 & Hi3)]; [done|].
  match goal with
  | |- size (_ ∖ ?X) < _ => assert (size (keys ∖ X) < size (keys ∖ bd_added st)); [|lia]
  end.
  apply subset_size. split; [set_solver|].
  intros Hsub. assert (ident ∈ keys ∖ bd_added st) as Hin by set_solver.
  apply Hsub in Hin. set_solver.
Qed.

Lemma size_list_to_set_le (l : list string) :
  size (list_to_set l : gset string) ≤ length l.
Proof.
  induction l as [|x l IH].
  { rewrite list_to_set_nil, size_empty. done. }
  rewrite list_to_set_cons, size_union_alt, size_singleton. simpl length.
  assert (size (list_to_set l ∖ {[x]} : gset string) ≤ size (list_to_set l : gset string))
    by (apply subseteq_size; set_solver).
  lia.
Qed.

Lemma back_deps_all_returns symbolses added exported :
  ∃ r, back_deps_all deps_info symbolses added exported = Ret r.
Proof.
  revert added exported.
  induction symbolses as [|s rest IH]; intros added exported; cbn [back_deps_all].
  - by eexists.
  - match goal with
    | |- context [add_back_deps ?f deps_info ?s0] =>
        destruct (add_back_deps_returns f s0) as [bd ->]
    end.
    + cbn [bd_added].
      assert (size (keys ∖ added) ≤ size keys) by (apply subseteq_size; set_solver).
      pose proof (size_list_to_set_le deps_info.*1) as Hl.
      rewrite length_fmap in Hl. lia.
    + simpl. destruct (IH (bd_added bd) (bd_exports bd)) as [[[rest' added'] exported'] ->].
      simpl. by eexists.
Qed.
End BackDeps.

Lemma input_symbols_returns nm abspath settings env deps_info temp_files :
  ∃ symbolses exported,
    input_symbols nm abspath settings env deps_info temp_files = Ret (symbolses, exported).
Proof.
  unfold input_symbols.
  match goal with
  | |- context [back_deps_all deps_info ?s ?a ?e] =>
      destruct (back_deps_all_returns deps_info s a e) as [[[syms added] exported] ->]
  end.
  simpl. by eexists _, _.
Qed.

Lemma filter_none {A} (P : A → Prop) `{!∀ x, Decision (P x)} (l : list A) :
  (∀ x, x ∈ l → ¬ P x) → filter P l = [].
Proof.
  induction l as [|x l IH]; intros Hall; [done|].
  rewrite filter_cons_False by (apply Hall; left).
  apply IH. intros y Hy. apply Hall. by right.
Qed.

Lemma filter_some {A} (P : A → Prop) `{!∀ x, Decision (P x)} (l : list A) x :
  x ∈ l → P x → ∃ y rest, filter P l = y :: rest ∧ y ∈ l ∧ P y.
Proof.
  intros Hx HP.
  destruct (filter P l) as [|y rest] eqn:Hf.
  - exfalso. assert (x ∈ filter P l) as Hin by (by apply list_elem_of_filter).
    rewrite Hf in Hin. by apply elem_of_nil in Hin.
  - exists y, rest. split; [done|].
    assert (y ∈ filter P l) as Hin by (rewrite Hf; left).
    by apply list_elem_of_filter in Hin as [? ?].
Qed.

(** The libraries that are always included are registered, whatever the
    settings. *)
Lemma always_include_registered settings files malloc :
  unregistered (system_libs_map (make_system_libs settings files malloc))
               (make_always_include settings malloc) = [].
Proof.
  unfold unregistered. apply filter_none. intros x Hx Hn. apply Hn. clear Hn.
  apply elem_of_elements in Hx. rewrite system_libs_map_dom.
  unfold make_always_include in Hx. unfold make_system_libs.
  destruct (USE_PTHREADS settings), (WASM_BACKEND settings), (WASM settings);
    simpl in *; set_solver.
Qed.

(** C3, as amended. A forced name that is not registered ends [calculate]
    with [exit_with_error]. Nothing has been fetched from the cache or built
    at that point and the link line is empty, but the symbols of the inputs
    have been read: the one outside call made is the [llvm-nm] scan. *)
Theorem unregistered_forced_library_aborts
    (Cache_get : string → string) (nm : list string → list Symbols)
    (abspath : string → string) (settings : Settings) (env : Environ)
    (files : SymbolFiles) (deps_info : list (string * list string))
    (temp_files forced : list string) (malloc lib : string) :
  malloc_name settings = Ret malloc →
  lib ∈ make_force_include env
          (system_libs_map (make_system_libs settings files malloc)) forced →
  lib ∉ dom (system_libs_map (make_system_libs settings files malloc)) →
  ∃ bad st,
    calculate Cache_get nm abspath settings env files deps_info temp_files forced
    = Abort (ExitWithError ("invalid forced library: " +:+ bad)) st
    ∧ bad ∉ dom (system_libs_map (make_system_libs settings files malloc))
    ∧ trace st = [llvm_nm (nm_files abspath env temp_files)]
    ∧ (∀ name, cache_get name ∉ trace st)
    ∧ libs_to_link st = []
    ∧ already_included st = ∅.
Proof.
  intros Hmalloc Hforced Hunreg. unfold calculate.
  destruct (input_symbols_returns nm abspath settings env deps_info temp_files)
    as (symbolses & exported & ->).
  rewrite Hmalloc, always_include_registered.
  destruct (filter_some (λ l, l ∉ dom (system_libs_map (make_system_libs settings files malloc)))
              (elements (make_force_include env
                 (system_libs_map (make_system_libs settings files malloc)) forced)) lib)
    as (bad & rest & Hf & _ & Hbad); [by apply elem_of_elements|done|].
  unfold unregistered. rewrite Hf.
  exists bad. eexists. split; [reflexivity|]. simpl.
  split_and!; [done..| |done|done].
  intros name Hin. apply list_elem_of_singleton in Hin. done.
Qed.

(** The link line is the sorted list with the group flags put in: the
    libraries keep their order. *)
Lemma wrap_whole_archive_sublist (libs : list (string * bool)) :
  libs.*1 `sublist_of` wrap_whole_archive libs.
Proof.
  unfold wrap_whole_archive.
  assert (Hstep : ∀ ret g name nwa, ∃ pre g',
            whole_archive_step (ret, g) (name, nwa) = (ret ++ pre ++ [name], g')).
  { intros ret g name nwa. unfold whole_archive_step.
    destruct nwa, g; simpl.
    - by exists [], true.
    - exists ["--whole-archive"], true. by rewrite <- app_assoc.
    - exists ["--no-whole-archive"], false. by rewrite <- app_assoc.
    - by exists [], false. }
  assert (G : ∀ l ret g, ∃ r,
            (foldl whole_archive_step (ret, g) l).1 = ret ++ r ∧ l.*1 `sublist_of` r).
  { induction l as [|[name nwa] l IH]; intros ret g; cbn [foldl].
    - exists []. by rewrite app_nil_r.
    - rewrite fmap_cons. cbn [fst].
      destruct (Hstep ret g name nwa) as (pre & g' & ->).
      destruct (IH (ret ++ pre ++ [name]) g') as (r & -> & Hr).
      exists (pre ++ name :: r). split.
      + rewrite <- !app_assoc. done.
      + apply sublist_inserts_l. by apply sublist_skip. }
  destruct (G libs [] false) as (r & Hr & Hsub).
  destruct (foldl whole_archive_step ([], false) libs) as [ret g].
  simpl in Hr. subst ret. destruct g; [|done].
  by apply sublist_inserts_r.
Qed.


End CalculateFacts.

(** *** The resolver on a concrete build *)

Module ResolverRuns.
Import SystemLibs SystemLibsFacts AddLibraryFacts ScanFacts CalculateFacts ResolverSpec.

Ltac in_list :=
  apply list_elem_of_In; vm_compute; repeat (first [left; reflexivity | right]).

Ltac split_elem H :=
  repeat match type of H with
         | _ ∈ _ :: _ => apply elem_of_cons in H as [->|H]
         | _ ∈ [] => by apply elem_of_nil in H
         end.

Lemma ex_scan :
  scan_libs ex_cache ex_settings ex_libs ex_always ∅ false ex_symbolses ex_start
  = Done tt ex_scanned.
Proof. vm_compute. reflexivity. Defined.

Lemma ex_run : ex_calculate [] = Done ex_ret ex_final.
Proof. vm_compute. reflexivity. Defined.

Lemma ex_names_distinct : NoDup (shortname <$> ex_libs).
Proof. apply (bool_decide_unpack _). vm_compute. exact I. Defined.

(** The run of [calculate] scans [ex_libs] from [ex_start]. *)
Lemma ex_run_is_scan :
  already_included ex_final = already_included ex_scanned
  ∧ input_symbols ex_nm ex_abspath ex_settings ex_env [] ["a.o"]
    = Ret (ex_symbolses, ["_main"]).
Proof. split; vm_compute; reflexivity. Qed.



(** C3 fails as stated: when the forced name is rejected, [llvm-nm] has
    already been run on the inputs. *)
Lemma abort_comes_after_the_symbol_scan :
  ∃ st, ex_calculate ["libfoo"]
        = Abort (ExitWithError "invalid forced library: libfoo") st
        ∧ trace st = [llvm_nm ["/src/a.o"]]
        ∧ trace st ≠ [].
Proof. eexists. split_and!; [vm_compute; reflexivity|reflexivity|done]. Qed.

Lemma unregistered_forced_library_aborts_witness :
  ∃ bad st,
    calculate ex_cache ex_nm ex_abspath ex_settings ex_env ex_files [] ["a.o"] ["libfoo"]
    = Abort (ExitWithError ("invalid forced library: " +:+ bad)) st
    ∧ bad ∉ dom (system_libs_map (make_system_libs ex_settings ex_files "libdlmalloc"))
    ∧ trace st = [llvm_nm (nm_files ex_abspath ex_env ["a.o"])]
    ∧ (∀ name, cache_get name ∉ trace st)
    ∧ libs_to_link st = []
    ∧ already_included st = ∅.
Proof.
  apply (unregistered_forced_library_aborts ex_cache ex_nm ex_abspath ex_settings ex_env
           ex_files [] ["a.o"] ["libfoo"] "libdlmalloc" "libfoo").
  - reflexivity.
  - vm_compute. reflexivity.
  - vm_compute. intros Hin. discriminate Hin.
Defined.



(** With WASM object files every library is an archive: [libc++abi.a] is
    not moved to the end. *)
Example libcxxabi_archive_is_not_last :
  ∃ st, calculate ex_cache ex_nm ex_abspath
          {| WASM_OBJECT_FILES := true; WASM := false; USE_PTHREADS := false;
             WASM_BACKEND := false; LEGACY_GL_EMULATION := false; USE_WEBGL2 := false;
             DISABLE_EXCEPTION_CATCHING := false; MALLOC := "dlmalloc"; DEBUG_LEVEL := 0;
             SUPPORT_ERRNO := true; EMSCRIPTEN_TRACING := false;
             EXPORTED_FUNCTIONS := ["_main"] |}
          ex_env ex_files [] ["a.o"] []
        = Done ["/cache/libc++.a"; "/cache/libc++abi.a"; "/cache/libc.a";
                "/cache/libcompiler_rt.a"; "/cache/libdlmalloc.a";
                "/cache/libpthreads_stub.a"] st.
Proof. eexists. vm_compute. reflexivity. Qed.



End ResolverRuns.

(** ** Response files *)

Module ResponseFacts.
Import ResponseFile ResponseSpec.

Lemma startswith_at c s : Py.startswith (String c s) "@" = Ascii.eqb c "@".
Proof.
  unfold Py.startswith. cbn [String.prefix].
  destruct (ascii_dec "@" c) as [<-|Hne]; [by destruct s|].
  symmetry. apply Ascii.eqb_neq. congruence.
Qed.

Lemma plain_not_response t : plain t = true → Py.startswith t "@" = false.
Proof.
  destruct t as [|c s]; [done|]. rewrite startswith_at. simpl.
  by intros ->%negb_true_iff.
Qed.

(** The scan of the arguments. *)
Lemma find_none i l : find_response_file i l = Ret None → Forall (λ t, plain t = true) l.
Proof.
  revert i. induction l as [|[|c s] l IH]; intros i H; simpl in H; [constructor|done|].
  destruct (Ascii.eqb c "@") eqn:Hc; [done|].
  constructor; [simpl; by rewrite Hc|by eapply IH].
Qed.

Lemma find_plain i l :
  Forall (λ t, plain t = true) l → find_response_file i l = Ret None.
Proof.
  intros H. revert i. induction H as [|[|c s] l Hx Hl IH]; intros i; simpl; [done..|].
  simpl in Hx. apply negb_true_iff in Hx. rewrite Hx. apply IH.
Qed.

Lemma find_some i l k :
  find_response_file i l = Ret (Some k) →
  i ≤ k < i + length l
  ∧ Forall (λ t, plain t = true) (take (k - i) l)
  ∧ ∃ s, l !! (k - i) = Some (String "@" s).
Proof.
  revert i. induction l as [|[|c s] l IH]; intros i H; simpl in H; [done..|].
  destruct (Ascii.eqb c "@") eqn:Hc.
  - simplify_eq. apply Ascii.eqb_eq in Hc as ->. rewrite Nat.sub_diag. simpl.
    split_and!; [lia..|constructor|by eexists].
  - apply IH in H as (Hk & Hp & s' & Hs). simpl.
    replace (k - i) with (S (k - S i)) by lia. simpl.
    split_and!; [lia..| |by eexists].
    constructor; [simpl; by rewrite Hc|done].
Qed.

Lemma find_not_out_of_fuel i l : find_response_file i l ≠ OutOfFuel.
Proof.
  revert i. induction l as [|[|c s] l IH]; intros i; simpl; [done..|].
  destruct (Ascii.eqb c "@"); [done|apply IH].
Qed.

Lemma find_app i pre rest :
  find_response_file i (pre ++ rest) =
    match find_response_file i pre with
    | Ret None => find_response_file (i + length pre) rest
    | r => r
    end.
Proof.
  revert i. induction pre as [|[|c s] pre IH]; intros i; simpl.
  - by rewrite Nat.add_0_r.
  - done.
  - destruct (Ascii.eqb c "@"); [done|]. rewrite IH.
    by replace (S i + length pre) with (i + S (length pre)) by lia.
Qed.

Section Expansion.
Variable read_file : string → option string.
Variable shlex_split : string → res (list string).

Local Abbreviation read_response_file := (read_response_file read_file shlex_split).
Local Abbreviation expand := (expand_response_files read_file shlex_split).

Lemma read_response_at f :
  read_response_file ("@" +:+ f) =
    match read_file f with
    | None => Raise (Exception ("Response file '" +:+ f +:+ "' not found!"))
    | Some args => shlex_split args
    end.
Proof.
  unfold ResponseFile.read_response_file.
  change ("@" +:+ f) with (String "@" f). by rewrite startswith_at.
Qed.

(** One turn of the loop when the first response file stands at [k]. *)
Lemma expand_step fuel a0 l k :
  find_response_file 1 l = Ret (Some k) →
  expand (S fuel) (a0 :: l) =
    (extra_args ← read_response_file (default "" (l !! (k - 1)));
     expand fuel (a0 :: take (k - 1) l ++ extra_args ++ drop (S (k - 1)) l)).
Proof.
  intros H. cbn [expand_response_files]. change (drop 1 (a0 :: l)) with l.
  rewrite H. apply find_some in H as (Hk & _).
  destruct k as [|k]; [lia|]. unfold splice. simpl. rewrite Nat.sub_0_r. done.
Qed.

(** The loop ends only when no argument after the first one names a
    response file. *)
Lemma expand_no_response_left fuel argv argv' :
  expand fuel argv = Ret argv' →
  ∀ i t, 1 ≤ i → argv' !! i = Some t → Py.startswith t "@" = false.
Proof.
  revert argv. induction fuel as [|fuel IH]; intros argv H i t Hi Ht; [done|].
  cbn [expand_response_files] in H.
  destruct (find_response_file 1 (drop 1 argv)) as [[k|]|e|] eqn:Hf; simpl in H; [|..|done|done].
  - destruct (read_response_file (default "" (argv !! k))) as [extra|e|]; simpl in H; [|done..].
    by eapply IH.
  - simplify_eq. apply find_none in Hf. apply plain_not_response.
    apply (Forall_lookup_1 (λ t, plain t = true) _ (i - 1) t Hf).
    rewrite lookup_drop. by replace (1 + (i - 1)) with i by lia.
Qed.

(** Passing the tokens of a response file in its place gives the same
    outcome, a result or an exception, as naming the file. *)
Lemma expand_substitute fuel a0 pre f ts post r :
  read_response_file ("@" +:+ f) = Ret ts →
  expand fuel (a0 :: pre ++ ts ++ post) = r →
  r ≠ OutOfFuel →
  ∃ fuel', expand fuel' (a0 :: pre ++ ("@" +:+ f) :: post) = r.
Proof.
  intros Hread. revert pre r.
  induction fuel as [|fuel IH]; intros pre r Hr Hne; [by subst|].
  destruct (find_response_file 1 pre) as [[k|]|e|] eqn:Hpre.
  - (* a response file in front of the one that is replaced *)
    pose proof (find_some _ _ _ Hpre) as (Hk & _ & s & Hs).
    assert (Hd : find_response_file 1 (pre ++ ts ++ post) = Ret (Some k))
      by (by rewrite find_app, Hpre).
    assert (Hn : find_response_file 1 (pre ++ ("@" +:+ f) :: post) = Ret (Some k))
      by (by rewrite find_app, Hpre).
    rewrite (expand_step _ _ _ _ Hd) in Hr.
    assert (Hlt : k - 1 < length pre) by lia.
    rewrite lookup_app_l, Hs in Hr by done. simpl in Hr.
    destruct (read_response_file (String "@" s)) as [extra|e|] eqn:Hx; simpl in Hr.
    + rewrite take_app_le, drop_app_le in Hr by lia.
      set (pre' := take (k - 1) pre ++ extra ++ drop (S (k - 1)) pre).
      assert (E : ∀ rest, take (k - 1) pre ++ extra ++ drop (S (k - 1)) pre ++ rest
                          = pre' ++ rest)
        by (intros rest; unfold pre'; by rewrite <- !app_assoc).
      rewrite E in Hr.
      destruct (IH _ _ Hr Hne) as [fuel' Hfuel'].
      exists (S fuel'). rewrite (expand_step _ _ _ _ Hn).
      rewrite lookup_app_l, Hs by done. simpl. rewrite Hx. simpl.
      rewrite take_app_le, drop_app_le by lia.
      by rewrite E.
    + exists 1. rewrite (expand_step _ _ _ _ Hn).
      rewrite lookup_app_l, Hs by done. simpl. by rewrite Hx.
    + exists 1. rewrite (expand_step _ _ _ _ Hn).
      rewrite lookup_app_l, Hs by done. simpl. rewrite Hx. by subst.
  - (* the replaced file is the first one: one more turn of the loop *)
    exists (S (S fuel)).
    assert (Hn : find_response_file 1 (pre ++ ("@" +:+ f) :: post)
                 = Ret (Some (1 + length pre))).
    { rewrite find_app, Hpre. done. }
    rewrite (expand_step _ _ _ _ Hn).
    replace (1 + length pre - 1) with (length pre) by lia.
    rewrite list_lookup_middle by done.
    change (default "" (Some ?x)) with x. rewrite Hread. simpl.
    rewrite take_app_length.
    replace (S (length pre)) with (length pre + 1) by lia.
    rewrite <- drop_drop, drop_app_length. simpl drop. exact Hr.
  - exists 1. cbn [expand_response_files] in *.
    change (drop 1 (a0 :: ?x)) with x in *.
    rewrite find_app, Hpre in Hr. rewrite find_app, Hpre. done.
  - by apply find_not_out_of_fuel in Hpre.
Qed.

(** A response file that does not exist ends the loop with an exception. *)
Lemma expand_missing fuel a0 pre f post :
  read_file f = None →
  Forall (λ t, plain t = true) pre →
  expand (S fuel) (a0 :: pre ++ ("@" +:+ f) :: post)
  = Raise (Exception ("Response file '" +:+ f +:+ "' not found!")).
Proof.
  intros Hf Hpre.
  assert (Hn : find_response_file 1 (pre ++ ("@" +:+ f) :: post)
               = Ret (Some (1 + length pre))).
  { rewrite find_app, find_plain by done. done. }
  rewrite (expand_step _ _ _ _ Hn).
  replace (1 + length pre - 1) with (length pre) by lia.
  rewrite list_lookup_middle by done.
  change (default "" (Some ?x)) with x. rewrite read_response_at, Hf. done.
Qed.

Lemma filter_all {A} (P : A → Prop) `{!∀ x, Decision (P x)} (l : list A) :
  Forall P l → filter P l = l.
Proof.
  induction 1 as [|x l Hx Hl IH]; [done|]. rewrite filter_cons_True by done. by f_equal.
Qed.

Lemma read_arguments_substitute fuel a0 pre f ts post r :
  read_response_file ("@" +:+ f) = Ret ts →
  a0 ≠ "--emscripten-cxx" → "--emscripten-cxx" ∉ ts → ts ≠ [] →
  read_arguments read_file shlex_split fuel (a0 :: pre ++ ts ++ post) = r →
  r ≠ OutOfFuel →
  ∃ fuel', read_arguments read_file shlex_split fuel' (a0 :: pre ++ ("@" +:+ f) :: post) = r.
Proof.
  intros Hread Ha0 Hts Hne Hr Hfuel. unfold read_arguments in *.
  assert (Hat : "@" +:+ f ≠ "--emscripten-cxx") by done.
  assert (Hcxx : bool_decide ("--emscripten-cxx" ∈ a0 :: pre ++ ("@" +:+ f) :: post)
                 = bool_decide ("--emscripten-cxx" ∈ a0 :: pre ++ ts ++ post)).
  { apply bool_decide_ext. rewrite !elem_of_cons, !elem_of_app, elem_of_cons. naive_solver. }
  rewrite Hcxx.
  rewrite filter_cons_True, filter_app, filter_app in Hr by done.
  rewrite filter_cons_True, filter_app, filter_cons_True by done.
  rewrite (filter_all _ ts) in Hr.
  2:{ apply Forall_forall. intros x Hx ->. done. }
  set (pre' := filter (λ x, x ≠ "--emscripten-cxx") pre) in *.
  set (post' := filter (λ x, x ≠ "--emscripten-cxx") post) in *.
  assert (Hlen : (length (a0 :: pre' ++ ts ++ post') =? 1) = false).
  { apply Nat.eqb_neq. destruct ts; [done|]. simpl. rewrite !length_app. simpl. lia. }
  assert (Hlen' : (length (a0 :: pre' ++ ("@" +:+ f) :: post') =? 1) = false).
  { apply Nat.eqb_neq. simpl. rewrite !length_app. simpl. lia. }
  rewrite Hlen in Hr. rewrite Hlen'.
  destruct (expand fuel (a0 :: pre' ++ ts ++ post')) as [x|e|] eqn:Hx.
  - destruct (expand_substitute _ _ _ _ _ _ _ Hread Hx) as [fuel' Hx']; [done|].
    exists fuel'. by rewrite Hx'.
  - destruct (expand_substitute _ _ _ _ _ _ _ Hread Hx) as [fuel' Hx']; [done|].
    exists fuel'. by rewrite Hx'.
  - simpl in Hr. by subst.
Qed.
End Expansion.

(** C7, as amended. The marker [--emscripten-cxx] is looked up and taken
    out of the arguments before the response files are read; apart from it:
    (1) when the arguments are read, none of them, after the name of the
        program, names a response file any more;
    (2) naming a response file whose tokens are [ts] (at least one, none of
        them the marker) gives the outcome, a result or an exception, that
        passing [ts] in its place gives, the files named in [ts] included;
    (3) a response file that does not exist ends the reading with the
        exception "Response file ... not found!". *)
Theorem response_files_are_expanded_in_place
    (read_file : string → option string) (shlex_split : string → res (list string)) :
  (∀ fuel EMCC_CFLAGS sys_argv args,
     run_arguments read_file shlex_split fuel EMCC_CFLAGS sys_argv = Ret args →
     ∀ i t, 1 ≤ i → argv args !! i = Some t → Py.startswith t "@" = false)
  ∧ (∀ fuel EMCC_CFLAGS a0 pre f ts post r,
       read_response_file read_file shlex_split ("@" +:+ f) = Ret ts →
       a0 ≠ "--emscripten-cxx" → "--emscripten-cxx" ∉ ts → ts ≠ [] →
       run_arguments read_file shlex_split fuel EMCC_CFLAGS (a0 :: pre ++ ts ++ post) = r →
       r ≠ OutOfFuel →
       ∃ fuel', run_arguments read_file shlex_split fuel' EMCC_CFLAGS
                  (a0 :: pre ++ ("@" +:+ f) :: post) = r)
  ∧ (∀ fuel a0 pre f post,
       read_file f = None →
       Forall (λ t, plain t = true) pre →
       expand_response_files read_file shlex_split (S fuel)
         (a0 :: pre ++ ("@" +:+ f) :: post)
       = Raise (Exception ("Response file '" +:+ f +:+ "' not found!"))).
Proof.
  split_and!.
  - intros fuel cflags sys_argv args H i t Hi Ht.
    unfold run_arguments in H.
    match type of H with
    | (?m ≫= _) = _ => destruct m as [sys_argv'|e|]; simpl in H; [|done..]
    end.
    unfold read_arguments in H.
    destruct (length _ =? 1); [done|].
    match type of H with
    | (?m ≫= _) = _ => destruct m as [argv'|e|] eqn:Hx; simpl in H; [|done..]
    end.
    simplify_eq. simpl in Ht. by eapply expand_no_response_left.
  - intros fuel cflags a0 pre f ts post r Hread Ha0 Hts Hne Hr Hfuel.
    unfold run_arguments in *.
    assert (Hcore : ∀ extra r', r' ≠ OutOfFuel →
              read_arguments read_file shlex_split fuel (a0 :: pre ++ ts ++ post ++ extra) = r' →
              ∃ fuel', read_arguments read_file shlex_split fuel'
                         (a0 :: pre ++ ("@" +:+ f) :: post ++ extra) = r').
    { intros extra r' Hr' H'. by eapply read_arguments_substitute. }
    assert (Hbind : ∀ A B (a : A) (k : A → res B), (Ret a ≫= k) = k a) by done.
    assert (E1 : ∀ extra, (a0 :: pre ++ ts ++ post) ++ extra = a0 :: pre ++ ts ++ post ++ extra)
      by (intros; simpl; by rewrite <- !app_assoc).
    assert (E2 : ∀ extra, (a0 :: pre ++ ("@" +:+ f) :: post) ++ extra
                          = a0 :: pre ++ ("@" +:+ f) :: post ++ extra)
      by (intros; simpl; by rewrite <- !app_assoc).
    destruct cflags as [flags|]; [destruct (Py.truthy flags);
      [destruct (shlex_split flags) as [extra|e|]|]|].
    + rewrite !Hbind, E1 in Hr.
      destruct (Hcore extra r Hfuel Hr) as [fuel' H'].
      exists fuel'. by rewrite !Hbind, E2.
    + by exists 0.
    + by subst.
    + rewrite Hbind in Hr. destruct (Hcore [] r Hfuel) as [fuel' H']; [by rewrite app_nil_r|].
      exists fuel'. rewrite Hbind. by rewrite app_nil_r in H'.
    + rewrite Hbind in Hr. destruct (Hcore [] r Hfuel) as [fuel' H']; [by rewrite app_nil_r|].
      exists fuel'. rewrite Hbind. by rewrite app_nil_r in H'.
  - intros. by apply expand_missing.
Qed.

(** The scenario of the specification: @args.txt holds "-O2 -o out.bin". *)
Lemma response_files_are_expanded_in_place_witness :
  ∃ fuel', ex_run fuel' ["emcc"; "@args.txt"; "a.c"]
           = Ret {| EMCC_CXX := false; argv := ["emcc"; "-O2"; "-o"; "out.bin"; "a.c"] |}.
Proof.
  destruct (response_files_are_expanded_in_place ex_fs words) as (_ & H & _).
  apply (H 1 None "emcc" [] "args.txt" ["-O2"; "-o"; "out.bin"] ["a.c"]).
  - vm_compute. reflexivity.
  - discriminate.
  - intros Hin. apply list_elem_of_In in Hin. vm_compute in Hin.
    repeat destruct Hin as [Hin|Hin]; try discriminate Hin. exact Hin.
  - discriminate.
  - vm_compute. reflexivity.
  - discriminate.
Defined.

(** C7 fails as stated: the marker that [em++] passes is looked for before
    the response files are read, so a response file that holds it does not
    give what passing it gives. *)
Lemma marker_in_a_response_file_is_not_seen :
  read_response_file ex_fs words "@cxx.rsp" = Ret ["--emscripten-cxx"]
  ∧ (∀ fuel, ex_run (2 + fuel) ["emcc"; "@cxx.rsp"; "a.c"]
             = Ret {| EMCC_CXX := false; argv := ["emcc"; "--emscripten-cxx"; "a.c"] |})
  ∧ (∀ fuel, ex_run (1 + fuel) ["emcc"; "--emscripten-cxx"; "a.c"]
             = Ret {| EMCC_CXX := true; argv := ["emcc"; "a.c"] |}).
Proof. split_and!; [|intros fuel..]; vm_compute; reflexivity. Qed.

(** A response file that names another one, and a file that is missing. *)
Example nested_response_file :
  ex_run 3 ["emcc"; "@nest.rsp"; "a.c"]
  = Ret {| EMCC_CXX := false; argv := ["emcc"; "-g"; "-O2"; "-o"; "out.bin"; "a.c"] |}
  ∧ ex_run 3 ["emcc"; "a.c"; "@nope"] = Raise (Exception "Response file 'nope' not found!").
Proof. split; vm_compute; reflexivity. Qed.

End ResponseFacts.

(** ** The pass queue *)

Module JSOptFacts.
Import JSOpt JSOptSpec.

Lemma for_each_ret {A S} (P : S → Prop) (body : S → A → res S) l :
  (∀ s x, x ∈ l → P s → ∃ s', body s x = Ret s' ∧ P s') →
  ∀ s, P s → ∃ s', for_each body s l = Ret s' ∧ P s'.
Proof.
  induction l as [|x l IH]; intros Hbody s Hs; simpl; [by eexists|].
  destruct (Hbody s x) as (s1 & -> & Hs1); [left|done|]. simpl.
  apply IH; [|done]. intros s2 y Hy. apply Hbody. by right.
Qed.

Lemma for_each_inv {A S} (P : S → Prop) (body : S → A → res S) l :
  (∀ s x s', x ∈ l → P s → body s x = Ret s' → P s') →
  ∀ s s', P s → for_each body s l = Ret s' → P s'.
Proof.
  induction l as [|x l IH]; intros Hbody s s' Hs H; simpl in H; [by simplify_eq|].
  destruct (body s x) as [s1|e|] eqn:Hx; simpl in H; [|done..].
  eapply (IH (λ s2 y s3 Hy, Hbody s2 y s3 (list_elem_of_further _ _ _ Hy))); [|exact H].
  eapply Hbody; [left|done..].
Qed.

Section Flush.
Variable env : Env.
Variable use_native : string → bool → bool.
Variable js_optimizer : OptimizerCall → string.
Hypothesis not_wasm_backend : WASM_BACKEND env = false.

Local Abbreviation run_passes := (run_passes env js_optimizer).
Local Abbreviation run_chunks := (run_chunks env js_optimizer).
Local Abbreviation flush_rec := (flush_rec env use_native js_optimizer).
Local Abbreviation flush := (flush env use_native js_optimizer).

(** What a run of the optimizer leaves alone. *)
Definition same_queue (o o' : JSOptimizer) : Prop :=
  queue o' = queue o ∧ extra_info o' = extra_info o ∧ blacklist o' = blacklist o.

Lemma run_passes_same passes title s c o : same_queue o (run_passes passes title s c o).
Proof. done. Qed.

Lemma run_chunks_same title chunks o : same_queue o (run_chunks title chunks o).
Proof.
  unfold JSOpt.run_chunks.
  assert (G : ∀ (l : list (nat * list string)) o0,
    same_queue o0
      (foldl (λ self '(i, chunk),
                run_passes chunk ("js_opts_" +:+ pretty i)
                  (is_in "receiveJSON" chunk) (is_in "emitJSON" chunk) self) o0 l)).
  { induction l as [|[i c] l IH]; intros o0; simpl; [done|].
    destruct (IH (run_passes c ("js_opts_" +:+ pretty i) (is_in "receiveJSON" c)
                    (is_in "emitJSON" c) o0)) as (? & ? & ?).
    done. }
  destruct chunks as [|c [|c' chunks]]; [apply G|apply run_passes_same|apply G].
Qed.

(** The optimizer when [flush] has taken the blacklisted passes out of the
    queue and has turned an empty side-table into [None]. *)
Definition normal (o : JSOptimizer) : JSOptimizer :=
  let o := set_queue (kept o) o in
  match extra_info o with
  | Some e => if bool_decide (size e = 0) then set_extra_info None o else o
  | None => o
  end.

Definition runs (q : list string) : bool :=
  (0 <? length q) && negb (lone_last env q).

Lemma normal_fields o : queue (normal o) = kept o ∧ blacklist (normal o) = blacklist o.
Proof.
  unfold normal. simpl. destruct (extra_info o) as [e|]; [|done].
  by case_bool_decide.
Qed.

Lemma flush_rec_unfold fuel title o :
  flush_rec (S fuel) title o =
    (self ←
       (if runs (kept o) then
          self ←
            (if negb (bool_decide (DEBUG env = Some "2")) || (length (kept o) <? 2)
             then Ret (run_chunks title
                         (make_chunks use_native (4 <=? debug_level (normal o)) (kept o))
                         (normal o))
             else
               for_each (λ self p,
                           self ← flush_rec fuel p (set_queue [p] self);
                           Ret (set_extra_info (extra_info (normal o)) self))
                        (normal o) (kept o));
          Ret (set_queue [] (set_queue_history (queue_history self ++ queue self) self))
        else Ret (normal o));
     Ret (set_extra_info (Some ∅) self)).
Proof.
  cbn [JSOpt.flush_rec]. rewrite not_wasm_backend. unfold assert. simpl negb.
  cbn [mbind res_bind]. fold (kept o). fold (normal o).
  change (match extra_info o with
          | Some e => if bool_decide (size e = 0)
                      then set_extra_info None (set_queue (kept o) o)
                      else set_queue (kept o) o
          | None => set_queue (kept o) o
          end) with (normal o).
  destruct (normal_fields o) as [-> _]. done.
Qed.

Lemma lone_last_inv q : lone_last env q = true → ASM_JS env = 0 ∧ q = ["last"].
Proof.
  unfold lone_last. intros H. apply andb_true_iff in H as [H H3].
  apply andb_true_iff in H as [H1 H2].
  apply Nat.eqb_eq in H1, H2. destruct q as [|p [|? ?]]; try done.
  simpl in H3. apply String.eqb_eq in H3. by subst.
Qed.

Lemma runs_false q : runs q = false → q = [] ∨ lone_last env q = true.
Proof.
  unfold runs. intros H. apply andb_false_iff in H as [H|H].
  - left. apply Nat.ltb_ge in H. destruct q; [done|simpl in H; lia].
  - right. by apply negb_false_iff in H.
Qed.

(** Neither an empty queue nor the lone 'last' makes [flush] call itself. *)
Lemma flush_rec_idle fuel title o :
  runs (kept o) = false →
  flush_rec (S fuel) title o = Ret (set_extra_info (Some ∅) (normal o)).
Proof. intros H. by rewrite flush_rec_unfold, H. Qed.

Lemma flush_rec_short fuel title o :
  length (kept o) < 2 → ∃ o', flush_rec (S fuel) title o = Ret o'.
Proof.
  intros H. rewrite flush_rec_unfold.
  destruct (runs (kept o)); [|by eexists].
  apply Nat.ltb_lt in H. rewrite H, orb_true_r. by eexists.
Qed.

Lemma kept_singleton p o : length (kept (set_queue [p] o)) < 2.
Proof. unfold kept. simpl. destruct (negb _); simpl; lia. Qed.

(** [flush] returns: the calls that it makes to itself are on queues of
    one pass, and these make no further call. *)
Lemma flush_rec_returns fuel title o : ∃ o', flush_rec (S (S fuel)) title o = Ret o'.
Proof.
  rewrite flush_rec_unfold. destruct (runs (kept o)); [|by eexists].
  destruct (negb _ || _); [by eexists|].
  destruct (for_each_ret (λ _, True)
              (λ self p, self ← flush_rec (S fuel) p (set_queue [p] self);
                         Ret (set_extra_info (extra_info (normal o)) self))
              (kept o)) with (s := normal o) as (s' & -> & _); [|done|by eexists].
  intros s p _ _. destruct (flush_rec_short fuel p (set_queue [p] s)) as [s' ->].
  - apply kept_singleton.
  - by eexists.
Qed.

(** What every [flush] leaves behind. *)
Lemma flush_rec_spec fuel title o o' :
  flush_rec fuel title o = Ret o' →
  blacklist o' = blacklist o
  ∧ extra_info o' = Some ∅
  ∧ (queue o' = [] ∨ (lone_last env (kept o) = true ∧ queue o' = kept o)).
Proof.
  revert title o o'. induction fuel as [|fuel IH]; intros title o o' H; [done|].
  rewrite flush_rec_unfold in H.
  destruct (normal_fields o) as [Hq Hb].
  destruct (runs (kept o)) eqn:Hruns.
  - match type of H with
    | ((?m ≫= _) ≫= _) = _ => destruct m as [s|e|] eqn:Hm; [|done..]
    end.
    simpl in H. simplify_eq. simpl. split_and!; [|done|by left].
    destruct (negb _ || _).
    + simplify_eq.
      match goal with
      | |- blacklist (JSOpt.run_chunks _ _ ?t ?c ?o0) = _ =>
          destruct (run_chunks_same t c o0) as (_ & _ & ->)
      end.
      done.
    + apply (for_each_inv (λ s, blacklist s = blacklist o)) in Hm; [done| |done].
      intros s0 p s1 _ Hs0 Hbody.
      destruct (flush_rec fuel p (set_queue [p] s0)) as [s2|e|] eqn:Hs2; [|done..].
      simpl in Hbody. simplify_eq. simpl.
      apply IH in Hs2 as (-> & _). done.
  - simpl in H. simplify_eq. simpl. split_and!; [done..|].
    apply runs_false in Hruns as [Hk|Hl]; [left|right]; by rewrite Hq.
Qed.

Lemma eta_after_flush o q :
  queue o = q → extra_info o = Some ∅ →
  set_extra_info (Some ∅) (set_extra_info None (set_queue q o)) = o.
Proof. destruct o. simpl. by intros -> ->. Qed.

Lemma normal_after_flush o :
  kept o = queue o → extra_info o = Some ∅ →
  set_extra_info (Some ∅) (normal o) = o.
Proof.
  intros Hk He. unfold normal. simpl. rewrite He.
  rewrite bool_decide_eq_true_2 by apply map_size_empty.
  rewrite Hk. by apply eta_after_flush.
Qed.

Lemma kept_last_not_blacklisted o :
  kept o = ["last"] → is_in "last" (blacklist o) = false.
Proof.
  intros H. assert (Hin : In "last" (kept o)) by (rewrite H; by left).
  unfold kept in Hin. apply filter_In in Hin as [_ Hin]. by apply negb_true_iff.
Qed.
End Flush.




(** A queue that needs both optimizers is run in three chunks. *)
Example flush_batches_passes :
  ∃ o', ex_flush 1 None (ex_optimizer ["eliminate"; "registerize"; "last"] ∅) = Ret o'
        ∧ call_passes <$> optimizer_calls o'
          = [["asm"; "eliminate"; "emitJSON"];
             ["asm"; "receiveJSON"; "registerize"; "emitJSON"];
             ["asm"; "receiveJSON"; "last"]]
        ∧ queue_history o' = ["eliminate"; "registerize"; "last"].
Proof. eexists. split_and!; [vm_compute; reflexivity|reflexivity..]. Qed.

End JSOptFacts.

(** ** Precompiled headers *)

Module InputsFacts.
Import Inputs InputsSpec.

Lemma endswith_any_app s l1 l2 :
  Py.endswith_any s (l1 ++ l2) = Py.endswith_any s l1 || Py.endswith_any s l2.
Proof. unfold Py.endswith_any. apply existsb_app. Qed.

Lemma header_is_input s :
  Py.endswith_any s HEADER_ENDINGS = true → Py.endswith_any s INPUT_ENDINGS = true.
Proof.
  intros H. unfold INPUT_ENDINGS. rewrite !endswith_any_app, H. by rewrite !orb_true_r.
Qed.

Lemma header_is_not_dynamic s :
  Py.endswith_any s HEADER_ENDINGS = true → is_in s DYNAMICLIB_ENDINGS = false.
Proof.
  intros H. destruct (is_in s DYNAMICLIB_ENDINGS) eqn:Hd; [|done].
  unfold is_in, DYNAMICLIB_ENDINGS in Hd. simpl in Hd.
  rewrite orb_false_r in Hd. apply orb_true_iff in Hd as [Hd|Hd];
    apply String.eqb_eq in Hd; subst s; vm_compute in H; discriminate H.
Qed.

Section Stage.
Variable islink : string → bool.
Variable realpath : string → string.
Variable exists_ : string → bool.
Variable is_ar : string → bool.
Variable is_bitcode : string → bool.
Variable unsuffixed_basename : string → string.
Variable path_join : string → string → string.
Variable path_from_root : list string → string.
Variable process_args : list string → list string.
Variable opts : Options.

Local Abbreviation find_input :=
  (find_input islink realpath exists_ is_ar is_bitcode unsuffixed_basename opts).
Local Abbreviation header_file := (header_file islink exists_).

(** The scan takes a header file as an input and blanks the argument. *)
Lemma find_input_header f i h :
  newargs f !! i = Some h →
  (i = 0 ∨ newargs f !! (i - 1) = Some "") →
  header_file h = true →
  find_input f i =
    Next {| newargs := <[i := ""]> (newargs f);
            input_files := input_files f ++ [(i, h)];
            libs := libs f; link_flags := link_flags f; lib_dirs := lib_dirs f;
            has_source_inputs := has_source_inputs f || false;
            has_header_inputs := has_header_inputs f || true |}.
Proof.
  intros Hi Hprev Hh. unfold header_file, InputsSpec.header_file in Hh.
  repeat (apply andb_true_iff in Hh as [Hh ?]).
  apply negb_true_iff in Hh.
  repeat match goal with H : negb _ = true |- _ => apply negb_true_iff in H end.
  unfold Inputs.find_input. rewrite Hi. cbn [default from_option id].
  assert (Hp : (0 <? i) && is_in (default "" (newargs f !! (i - 1))) VALUE_FLAGS = false).
  { destruct Hprev as [-> | ->]; [done|]. apply andb_false_r. }
  rewrite Hp, Hh. cbn [andb].
  repeat match goal with H : _ = _ |- _ => rewrite H end.
  rewrite header_is_input by done. done.
Qed.

(** The whole scan on a list of header files. *)
Lemma scan_headers rest : ∀ k f,
  newargs f = replicate k "" ++ rest →
  Forall (λ h, header_file h = true) rest →
  ∃ f',
    for_range find_input f (seq k (length rest)) = Next f'
    ∧ newargs f' = replicate (k + length rest) ""
    ∧ input_files f' = input_files f ++ zip (seq k (length rest)) rest
    ∧ libs f' = libs f
    ∧ has_header_inputs f' = has_header_inputs f || (0 <? length rest).
Proof.
  induction rest as [|h rest IH]; intros k f Hargs Hall.
  - exists f. simpl. rewrite app_nil_r in Hargs.
    by rewrite Nat.add_0_r, orb_false_r, app_nil_r.
  - apply Forall_cons in Hall as [Hh Hall]. simpl length. simpl seq.
    cbn [for_range].
    rewrite (find_input_header f k h); [|rewrite Hargs..|done].
    + edestruct (IH (S k)) as (f' & -> & Hn & Hi & Hl & Hhd); [|exact Hall|].
      * simpl. rewrite Hargs.
        rewrite insert_app_r_alt by (by rewrite length_replicate).
        rewrite length_replicate, Nat.sub_diag. simpl.
        rewrite cons_middle, app_assoc. f_equal.
        change [""] with (replicate 1 ""). by rewrite <- replicate_add, Nat.add_1_r.
      * exists f'. split; [done|]. simpl in *.
        rewrite Hn, Hi, Hl, Hhd, <- app_assoc. simpl.
        replace (k + S (length rest)) with (S (k + length rest)) by lia.
        split_and!; [reflexivity..|]. by destruct (has_header_inputs f).
    + rewrite lookup_app_r by (by rewrite length_replicate).
      by rewrite length_replicate, Nat.sub_diag.
    + destruct k as [|k]; [by left|right].
      rewrite lookup_app_l by (rewrite length_replicate; lia).
      apply lookup_replicate_2. lia.
Qed.

Lemma filter_blank n : List.filter (λ arg, negb (String.eqb arg "")) (replicate n "") = [].
Proof. induction n; [done|]. simpl. done. Qed.

Lemma filter_keeps {A} (p : A → bool) l :
  Forall (λ x, p x = true) l → List.filter p l = l.
Proof. induction 1 as [|x l Hx _ IH]; [done|]. simpl. by rewrite Hx, IH. Qed.

Lemma forallb_Forall {A} (p : A → bool) l :
  forallb p l = true ↔ Forall (λ x, p x = true) l.
Proof.
  rewrite forallb_forall, Forall_forall. split; intros H x Hx; apply H.
  - by apply list_elem_of_In.
  - by apply list_elem_of_In.
Qed.

Lemma header_file_name h :
  header_file h = true →
  Py.endswith_any h HEADER_ENDINGS = true
  ∧ is_in (filename_type_ending h) DYNAMICLIB_ENDINGS = false.
Proof.
  unfold InputsSpec.header_file. intros H.
  repeat (apply andb_true_iff in H as [H ?]). split; [done|].
  by apply header_is_not_dynamic.
Qed.

(** A build of header files only. *)
Lemma headers_only_stage final_suffix target_suffix headers :
  headers ≠ [] →
  Forall (λ h, header_file h = true) headers →
  implicit_sources opts final_suffix = false →
  inputs_stage islink realpath exists_ is_ar is_bitcode unsuffixed_basename path_join
    path_from_root process_args opts final_suffix target_suffix headers
  = ([header_command opts process_args headers], Stop (SystemExit 0)).
Proof.
  intros Hne Hall Himp. unfold inputs_stage, find_inputs.
  edestruct (scan_headers headers 0) as (f' & -> & Hn & Hi & Hl & Hh);
    [|exact Hall|]; [done|].
  simpl in Hn, Hi, Hl, Hh. rewrite Hn, filter_blank. cbn [is_in existsb andb orb].
  assert (Hlen : 0 < length headers) by (destruct headers; [done|simpl; lia]).
  assert (Hhd : has_header_inputs f' = true) by (rewrite Hh; by apply Nat.ltb_lt).
  rewrite Hhd.
  assert (Hall' : Forall (λ x : nat * string,
                   negb (is_in (filename_type_ending x.2) DYNAMICLIB_ENDINGS) = true)
                 (zip (seq 0 (length headers)) headers)).
  { apply Forall_forall. intros [i h] Hx. cbn [snd].
    apply elem_of_zip_r in Hx. rewrite Forall_forall in Hall.
    destruct (header_file_name h (Hall h Hx)) as [_ ->]. done. }
  assert (Hinputs :
    all_input_files exists_ path_join path_from_root opts final_suffix target_suffix f'
    = Next (zip (seq 0 (length headers)) headers)).
  { unfold all_input_files, found_libraries. cbv zeta. rewrite Hi, Hl. simpl omap.
    rewrite app_nil_r, (filter_keeps _ _ Hall').
    assert (Hz : (length (zip (seq 0 (length headers)) headers) =? 0) = false).
    { apply Nat.eqb_neq. rewrite length_zip, length_seq. lia. }
    destruct (negb _ || _); rewrite Hz.
    all: unfold implicit_sources in Himp.
    all: destruct (bind opts), (STB_IMAGE opts), (ASMFS opts), (FETCH opts),
           (is_in final_suffix JS_CONTAINING_SUFFIXES); simpl in Himp; try done. }
  rewrite Hinputs. unfold precompile_headers.
  assert (Hsnd : (zip (seq 0 (length headers)) headers).*2 = headers)
    by (apply snd_zip; rewrite length_seq; lia).
  rewrite Hsnd.
  assert (Hf : forallb (λ header, Py.endswith_any header HEADER_ENDINGS) headers = true).
  { apply forallb_Forall. eapply Forall_impl; [exact Hall|].
    intros h Hx. by destruct (header_file_name h Hx). }
  rewrite Hf. cbn [negb]. unfold header_command. rewrite app_nil_r.
  destruct (specified_target opts) as [t|]; [destruct (Py.truthy t)|];
    by rewrite <- ?app_assoc, ?app_nil_r.
Qed.
End Stage.




(** Mixing a header with a source is an error, as the claim says. *)
Example header_and_source :
  ex_stage ["a.h"; "b.c"] = ([], Stop (Failure (AssertionError ASSERT_HEADERS))).
Proof. vm_compute. reflexivity. Qed.

End InputsFacts.

(** ** The memory initializer *)

Module MemInitFacts.
Import MemInit MemInitSpec.

(** Trimming takes the zeros at the end away, and nothing else. *)
Lemma pop_zeros_split membytes :
  ∃ k, membytes = pop_zeros membytes ++ replicate k 0%Z.
Proof.
  induction membytes as [|b rest [k IH]]; [by exists 0|].
  simpl. destruct (pop_zeros rest) as [|b' rest'] eqn:Hp.
  - destruct (b =? 0)%Z eqn:Hb.
    + apply Z.eqb_eq in Hb as ->. exists (S k). simpl in *. by rewrite IH.
    + exists k. simpl in *. by rewrite IH.
  - exists k. simpl in *. by rewrite <- IH.
Qed.

Lemma pop_zeros_last membytes : last (pop_zeros membytes) ≠ Some 0%Z.
Proof.
  induction membytes as [|b rest IH]; [done|].
  simpl. destruct (pop_zeros rest) as [|b' rest'] eqn:Hp.
  - destruct (b =? 0)%Z eqn:Hb; [done|]. simpl. intros [=->]. done.
  - intros H. apply IH. by rewrite last_cons_cons in H.
Qed.

Lemma length_zero {A} (l : list A) : (length l =? 0) = true ↔ l = [].
Proof. destruct l; simpl; split; done. Qed.

Section Block.
Variable generate_string_initializer : list Z → string.
Variable basename : string → string.
Variable optimize_initializer : string → option string.
Variable pattern_search : string → option (string * string * string).
Variable cfg : MemSettings.

Local Abbreviation repl := (repl generate_string_initializer basename cfg).
Local Abbreviation sub_once :=
  (sub_once generate_string_initializer basename pattern_search cfg).
Local Abbreviation memory_initializer :=
  (memory_initializer generate_string_initializer basename optimize_initializer
     pattern_search cfg).

(** What [repl] does with the bytes that it has parsed. *)
Lemma repl_parsed memfile s membytes :
  s ≠ "" → parse_initializer s = Ret membytes →
  repl memfile s =
    if (length (pop_zeros membytes) =? 0) then Ret ("", [])
    else if negb (memory_init_file cfg)
    then Ret (inline_statement generate_string_initializer (pop_zeros membytes), [])
    else
      bytes ← chr_all (pop_zeros membytes);
      Ret (if negb (BINARYEN cfg) then file_statement basename memfile
           else wasm_statement basename memfile,
           WroteBlob memfile bytes ::
           (if Py.env_truthy (DEBUG cfg) then [CopiedToTemp memfile] else [])).
Proof.
  intros Hs Hp. unfold MemInit.repl. destruct s as [|c s]; [done|].
  cbn [String.length Nat.eqb]. rewrite Hp. simpl.
  destruct (length (pop_zeros membytes) =? 0); [done|].
  destruct (negb (memory_init_file cfg)); [done|].
  destruct (chr_all (pop_zeros membytes)); simpl; [|done..].
  by destruct (negb (BINARYEN cfg)).
Qed.

(** The events of [repl]: at most one, a blob, and only with the option. *)
Lemma repl_events memfile s text events :
  repl memfile s = Ret (text, events) →
  length (List.filter is_blob_write events) ≤ 1
  ∧ (∀ e, e ∈ events → is_blob_write e = true →
       memory_init_file cfg = true
       ∧ ∃ membytes, parse_initializer s = Ret membytes
                     ∧ e = WroteBlob memfile (pop_zeros membytes)
                     ∧ pop_zeros membytes ≠ []).
Proof.
  intros H. destruct s as [|c s].
  { unfold MemInit.repl in H. simpl in H. simplify_eq. split; [simpl; lia|].
    intros e He. by apply elem_of_nil in He. }
  destruct (parse_initializer (String c s)) as [membytes|e|] eqn:Hp.
  2,3: unfold MemInit.repl in H; cbn [String.length Nat.eqb] in H; by rewrite Hp in H.
  rewrite (repl_parsed memfile (String c s) membytes) in H by done.
  destruct (length (pop_zeros membytes) =? 0) eqn:Hl.
  { simplify_eq. split; [simpl; lia|]. intros e He. by apply elem_of_nil in He. }
  destruct (memory_init_file cfg) eqn:Hm; simpl in H.
  2:{ simplify_eq. split; [simpl; lia|]. intros e He. by apply elem_of_nil in He. }
  unfold chr_all in H. destruct (forallb _ _); simpl in H; [|done].
  simplify_eq. split.
  - destruct (Py.env_truthy (DEBUG cfg)); simpl; lia.
  - intros e He Hb. split; [done|]. exists membytes. split_and!; [done| |].
    + destruct (Py.env_truthy (DEBUG cfg)).
      * apply elem_of_cons in He as [->|He]; [done|].
        apply list_elem_of_singleton in He as ->. done.
      * apply list_elem_of_singleton in He as ->. done.
    + intros Hnil. rewrite Hnil in Hl. done.
Qed.
End Block.

(** C8, as amended. The blob is written only with MEM_INIT_METHOD > 0 and
    the option memory_init_file, at most once in the block, and it holds the
    bytes of the initializer with the zeros at the end taken away. When no
    byte is left, nothing takes the place of the initializer: the blob is not
    written and the replacement is the empty string, not the string literal.
    The string literal is what is written for an initializer that has bytes
    left when the option memory_init_file is off. *)
Theorem memory_initializer_blob
    (generate_string_initializer : list Z → string) (basename : string → string)
    (optimize_initializer : string → option string)
    (pattern_search : string → option (string * string * string))
    (cfg : MemSettings) (target final text : string) (r : MemResult) :
  memory_initializer generate_string_initializer basename optimize_initializer
    pattern_search cfg target final text = Ret r →
  length (List.filter is_blob_write (events r)) ≤ 1
  ∧ (∀ e, e ∈ events r → is_blob_write e = true →
       0 < MEM_INIT_METHOD cfg ∧ memory_init_file cfg = true
       ∧ ∃ before s after membytes,
           pattern_search text = Some (before, s, after)
           ∧ parse_initializer s = Ret membytes
           ∧ e = WroteBlob (target +:+ ".mem") (pop_zeros membytes)
           ∧ pop_zeros membytes ≠ []
           ∧ last (pop_zeros membytes) ≠ Some 0%Z
           ∧ ∃ k, membytes = pop_zeros membytes ++ replicate k 0%Z)
  ∧ (∀ memfile s membytes,
       s ≠ "" → parse_initializer s = Ret membytes →
       (pop_zeros membytes = [] →
          repl generate_string_initializer basename cfg memfile s = Ret ("", []))
       ∧ (pop_zeros membytes ≠ [] → memory_init_file cfg = false →
            repl generate_string_initializer basename cfg memfile s
            = Ret (inline_statement generate_string_initializer (pop_zeros membytes), []))).
Proof.
  intros H. unfold memory_initializer in H.
  assert (Hrepl : ∀ memfile s membytes,
       s ≠ "" → parse_initializer s = Ret membytes →
       (pop_zeros membytes = [] →
          repl generate_string_initializer basename cfg memfile s = Ret ("", []))
       ∧ (pop_zeros membytes ≠ [] → memory_init_file cfg = false →
            repl generate_string_initializer basename cfg memfile s
            = Ret (inline_statement generate_string_initializer (pop_zeros membytes), []))).
  { intros memfile s membytes Hs Hp. rewrite (repl_parsed _ _ _ _ _ _ Hs Hp). split.
    - by intros ->.
    - intros Hne ->. destruct (length (pop_zeros membytes) =? 0) eqn:Hl; [|done].
      by apply length_zero in Hl. }
  destruct (0 <? MEM_INIT_METHOD cfg) eqn:Hmem.
  - apply Nat.ltb_lt in Hmem. unfold sub_once in H.
    destruct (pattern_search text) as [[[before s] after]|] eqn:Hsearch.
    + destruct (repl generate_string_initializer basename cfg (target +:+ ".mem") s)
        as [[replacement evs]|e|] eqn:Hr; simpl in H; [|done..].
      simplify_eq. simpl.
      destruct (repl_events _ _ _ _ _ _ _ Hr) as [Hcount Hblob].
      rewrite List.filter_app. simpl. rewrite length_app. simpl.
      split_and!; [lia| |done].
      intros e He Hb. apply elem_of_cons in He as [->|He]; [done|].
      apply elem_of_app in He as [He|He].
      2:{ apply list_elem_of_singleton in He as ->. done. }
      destruct (Hblob e He Hb) as (Hm & membytes & Hp & -> & Hne).
      split_and!; [done..|]. exists before, s, after, membytes.
      split_and!; [done..|apply pop_zeros_last|apply pop_zeros_split].
    + simpl in H. simplify_eq. simpl. split_and!; [lia| |done].
      intros e He Hb. apply elem_of_cons in He as [->|He]; [done|].
      apply list_elem_of_singleton in He as ->. done.
  - assert (Hnone : ∀ r', (∀ e, e ∈ events r' → is_blob_write e = false) →
              length (List.filter is_blob_write (events r')) ≤ 1
              ∧ (∀ e, e ∈ events r' → is_blob_write e = true →
                   0 < MEM_INIT_METHOD cfg ∧ memory_init_file cfg = true
                   ∧ ∃ before s after membytes,
                       pattern_search text = Some (before, s, after)
                       ∧ parse_initializer s = Ret membytes
                       ∧ e = WroteBlob (target +:+ ".mem") (pop_zeros membytes)
                       ∧ pop_zeros membytes ≠ []
                       ∧ last (pop_zeros membytes) ≠ Some 0%Z
                       ∧ ∃ k, membytes = pop_zeros membytes ++ replicate k 0%Z)).
    { intros r' Hr'. split.
      - assert (List.filter is_blob_write (events r') = []) as ->; [|simpl; lia].
        induction (events r') as [|e l IH]; [done|]. simpl.
        rewrite (Hr' e) by left. apply IH. intros e' He'. apply Hr'. by right.
      - intros e He Hb. rewrite (Hr' e He) in Hb. done. }
    destruct (negb (MAIN_MODULE cfg) && negb (SIDE_MODULE cfg) && (debug_level cfg <? 4)).
    + destruct (optimize_initializer text); simplify_eq; (split_and!; [..|done]);
        apply Hnone; simpl; intros e He;
        first [by apply elem_of_nil in He | by apply list_elem_of_singleton in He as ->].
    + simplify_eq. (split_and!; [..|done]); apply Hnone; simpl; intros e He;
        by apply elem_of_nil in He.
Qed.

Lemma memory_initializer_blob_witness :
  length (List.filter is_blob_write
            [Deleted "a.out.js.mem"; WroteBlob "a.out.js.mem" [7%Z; 0%Z; 8%Z];
             WroteText "tmp.js.mem.js" ("var x = memoryInitializer = " +:+ dq +:+
                                        "a.out.js.mem" +:+ dq +:+ ";; y")]) ≤ 1.
Proof.
  pose proof (memory_initializer_blob ex_generate_string_initializer (λ f, f) (λ _, None)
                ex_pattern_search (ex_cfg true) "a.out.js" "tmp.js" "var x = [7,0,8,0,0]; y"
                {| memfile := Some "a.out.js.mem"; final := "tmp.js.mem.js";
                   events := [Deleted "a.out.js.mem";
                              WroteBlob "a.out.js.mem" [7%Z; 0%Z; 8%Z];
                              WroteText "tmp.js.mem.js"
                                ("var x = memoryInitializer = " +:+ dq +:+
                                 "a.out.js.mem" +:+ dq +:+ ";; y")] |}) as H.
  apply H. vm_compute. reflexivity.
Defined.

(** C8 fails as stated: an initializer of zeros only is replaced by the
    empty string, whether the option memory_init_file is on or off; the
    string literal is not written. *)
Lemma empty_initializer_is_dropped :
  ex_repl true "0,0,0" = Ret ("", [])
  ∧ ex_repl false "0,0,0" = Ret ("", [])
  ∧ ex_repl false "0,0,0"
    ≠ Ret (inline_statement ex_generate_string_initializer [], []).
Proof. split_and!; [vm_compute; reflexivity..|]. vm_compute. discriminate. Qed.

(** The two ways of an initializer that has bytes left. *)
Example initializer_with_bytes :
  ex_repl false "1,2,0" = Ret ("memoryInitializer = '1,2';", [])
  ∧ ex_repl true "1,2,0"
    = Ret ("memoryInitializer = " +:+ dq +:+ "a.out.js.mem" +:+ dq +:+ ";",
           [WroteBlob "a.out.js.mem" [1%Z; 2%Z]]).
Proof. split; vm_compute; reflexivity. Qed.

End MemInitFacts.

(** ** The link step *)

Module LinkFacts.
Import Link LinkSpec.

Lemma append_empty (s : string) : s +:+ "" = s.
Proof.
  induction s as [|c s IH]; [done|].
  change (String c s +:+ "") with (String c (s +:+ "")). by rewrite IH.
Qed.

Lemma link_model_single (obj : string) : link_model [obj] = obj.
Proof. unfold link_model. simpl. apply append_empty. Qed.

(** C9. With one input file, no extra file to link and a single unit that
    is not an archive, the link step does not call the linker: it moves the
    object of the unit to the place of the linked module when that object is
    a temporary file, and copies it when it is the input file itself (as it
    does, of the raw input, with EMCC_LEAVE_INPUTS_RAW). The linked module
    then holds what the object held, which is what linking the single object
    gives in the concatenation model of the specification. The place of the
    linked module, in the temporary directory, is not the input file. *)
Theorem single_unit_is_moved_not_linked
    (suffix : string → option string) (is_ar : string → bool)
    (in_temp : string → string)
    (Building_link : list string → string → bool → bool → FS → final_value * FS)
    (env : LinkEnv) (i j : nat) (input_file temp_file : string)
    (rest : list (nat * string)) (linker_inputs : list string) (fs0 : FS) (obj : string) :
  let unit := if LEAVE_INPUTS_RAW env then input_file else temp_file in
  let dest := if LEAVE_INPUTS_RAW env then in_temp input_file
              else in_temp (target_basename env +:+ ".bc") in
  is_ar temp_file = false →
  fs0 !! unit = Some obj →
  dest ≠ input_file →
  ∃ st,
    link_stage suffix is_ar in_temp Building_link env
      [(i, input_file)] ((j, temp_file) :: rest) [] linker_inputs fs0 = Ret st
    ∧ Forall (λ a, is_link a = false) (actions st)
    ∧ actions st = [if negb (LEAVE_INPUTS_RAW env) && negb (String.eqb temp_file input_file)
                    then Moved unit dest else Copied unit dest]
    ∧ final st = Path dest
    ∧ fs st !! dest = Some (link_model [obj]).
Proof.
  intros unit dest Har Hobj Hdest. subst unit dest.
  unfold link_stage, must_link, singleton_archive. simpl length.
  rewrite link_model_single.
  destruct (LEAVE_INPUTS_RAW env) eqn:Hraw; simpl.
  - unfold shutil_copyfile.
    destruct (String.eqb input_file (in_temp input_file)) eqn:He.
    { apply String.eqb_eq in He. by rewrite <- He in Hdest. }
    rewrite Hobj. simpl. eexists. split; [reflexivity|]. simpl.
    split_and!; [by repeat constructor|done..|by rewrite lookup_insert_eq].
  - rewrite Har, andb_false_r. simpl.
    destruct (String.eqb temp_file input_file) eqn:He; simpl.
    + apply String.eqb_eq in He as ->. unfold shutil_copyfile.
      destruct (String.eqb input_file (in_temp (target_basename env +:+ ".bc"))) eqn:He.
      { apply String.eqb_eq in He. by rewrite <- He in Hdest. }
      rewrite Hobj. simpl. eexists. split; [reflexivity|]. simpl.
      split_and!; [by repeat constructor|done..|by rewrite lookup_insert_eq].
    + unfold shutil_move. rewrite Hobj. simpl. eexists. split; [reflexivity|]. simpl.
      split_and!; [by repeat constructor|done..|by rewrite lookup_insert_eq].
Qed.

Lemma single_unit_is_moved_not_linked_witness :
  ∃ st,
    ex_stage = Ret st
    ∧ Forall (λ a, is_link a = false) (actions st)
    ∧ actions st = [Moved "/tmp/emscripten_temp/a_0.o" "/tmp/emscripten_temp/a.out.bc"]
    ∧ final st = Path "/tmp/emscripten_temp/a.out.bc"
    ∧ fs st !! "/tmp/emscripten_temp/a.out.bc" = Some (link_model ["BC:a"]).
Proof.
  apply (single_unit_is_moved_not_linked ex_suffix (λ _, false) ex_in_temp ex_link ex_env
           0 0 "a.c" "/tmp/emscripten_temp/a_0.o" [] ["/tmp/emscripten_temp/a_0.o"]
           ex_fs "BC:a").
  - reflexivity.
  - vm_compute. reflexivity.
  - discriminate.
Defined.

(** With a library to link as well, the linker is called. *)
Example two_files_are_linked :
  ∃ st, link_stage ex_suffix (λ _, false) ex_in_temp ex_link ex_env
          [(0, "a.c")] [(0, "/tmp/emscripten_temp/a_0.o")] ["/cache/libc.bc"]
          ["/tmp/emscripten_temp/a_0.o"] ex_fs = Ret st
        ∧ actions st = [Linked ["/tmp/emscripten_temp/a_0.o"; "/cache/libc.bc"]
                               "/tmp/emscripten_temp/a.out.bc" false true].
Proof. eexists. split; [vm_compute; reflexivity|reflexivity]. Qed.

End LinkFacts.

(** ** The script of the HTML harness *)

Module HtmlFacts.
Import Html HtmlSpec.

Lemma truthy_nl s : Py.truthy (nl +:+ s) = true.
Proof. done. Qed.

Lemma loaded_exactly_one s : loaded s → exactly_one s.
Proof.
  intros [[H1 H2]|[H1 H2]]; [left|right]; split; try done.
  - destruct (src s); [by eexists|done].
  - destruct (inline s); [by eexists|done].
Qed.

Lemma loaded_asserted s : loaded s → asserted s = true.
Proof.
  unfold asserted. intros [[H1 H2]|[H1 H2]]; rewrite H1, H2; done.
Qed.

(** [un_src] makes the script inline: a reference becomes the loader of that
    reference, an inline script is left as it is. *)
Lemma un_src_spec s :
  src (un_src s) = None
  ∧ (src s = None → un_src s = s)
  ∧ (∀ x, src s = Some x → un_src s = {| src := None; inline := Some (loader x) |})
  ∧ un_src (un_src s) = un_src s.
Proof.
  unfold un_src. destruct (src s) as [x|] eqn:Hs; simpl.
  - split_and!; [done..| |done]. by intros y [= <-].
  - rewrite Hs. split_and!; done.
Qed.

Lemma un_src_exactly_one s :
  exactly_one s → src (un_src s) = None ∧ is_Some (inline (un_src s)).
Proof.
  unfold un_src. intros [[[x H1] H2]|[H1 H2]]; rewrite H1; [|done].
  split; [done|by eexists].
Qed.

Lemma un_src_loaded s :
  loaded s → src (un_src s) = None ∧ truth (inline (un_src s)) = true.
Proof.
  unfold un_src. intros [[H1 H2]|[H1 H2]].
  - destruct (src s) as [x|]; [|done]. simpl. split; [done|apply truthy_nl].
  - rewrite H1. done.
Qed.

Lemma wrapped_exactly_one s text : src s = None → exactly_one (set_inline text s).
Proof. intros H. right. split; [done|by eexists]. Qed.

Lemma wrapped_loaded s text : src s = None → loaded (set_inline (nl +:+ text) s).
Proof. intros H. right. split; [done|apply truthy_nl]. Qed.

Section Steps.
Variable basename : string → string.
Variable worker_js_script : string → string.
Variable get_mods : list string.
Variable cfg : HtmlSettings.

Lemma step_start_exactly_one js_target target_basename :
  exactly_one (step_start basename worker_js_script get_mods cfg js_target target_basename
                 ScriptSource_init).1.
Proof.
  unfold step_start. destruct (proxy_to_worker cfg); simpl.
  - right. split; [done|by eexists].
  - left. split; [by eexists|done].
Qed.

Lemma step_emterpreter_exactly_one s :
  exactly_one s → exactly_one (step_emterpreter cfg s).
Proof.
  intros H. unfold step_emterpreter. destruct (Py.truthy _); [|done].
  apply wrapped_exactly_one. by apply un_src_exactly_one.
Qed.

Lemma step_meminit_exactly_one memfile s s' :
  exactly_one s → step_meminit basename cfg memfile s = Ret s' → exactly_one s'.
Proof.
  intros H. unfold step_meminit. destruct (memory_init_file cfg); [|by intros [= <-]].
  destruct memfile as [m|]; [|done].
  destruct (un_src_exactly_one s H) as [H1 H2].
  destruct (inline (un_src s)) as [text|] eqn:Hi; [|done].
  intros [= <-]. by apply wrapped_exactly_one.
Qed.

Lemma step_separate_asm_exactly_one asm_target asm_mods s s' :
  exactly_one s → step_separate_asm basename cfg asm_target asm_mods s = Ret s' →
  exactly_one s'.
Proof.
  intros H. unfold step_separate_asm. destruct (negb _ || _).
  - destruct (length asm_mods =? 0); [|done]. by intros [= <-].
  - destruct (length asm_mods =? 0); intros [= <-];
      apply wrapped_exactly_one; by apply un_src_exactly_one.
Qed.

Lemma step_wasm_exactly_one wasm_binary_target s :
  exactly_one s → exactly_one (step_wasm basename cfg wasm_binary_target s).
Proof.
  intros H. unfold step_wasm. destruct (_ && _); [|done].
  apply wrapped_exactly_one. by apply un_src_exactly_one.
Qed.

Lemma build_script_exactly_one shell js_target target_basename asm_target
    wasm_binary_target memfile script :
  build_script basename worker_js_script get_mods cfg shell js_target target_basename
    asm_target wasm_binary_target memfile = Ret script →
  exactly_one script.
Proof.
  unfold build_script. intros H.
  destruct (contains shell "{{{ SCRIPT }}}"); [|done]. simpl in H.
  pose proof (step_start_exactly_one js_target target_basename) as H0.
  destruct (step_start _ _ _ _ _ _ _) as [s0 asm_mods]. simpl in H0.
  apply step_emterpreter_exactly_one in H0.
  destruct (step_meminit basename cfg memfile (step_emterpreter cfg s0))
    as [s1|e|] eqn:H1; simpl in H; [|done..].
  apply (step_meminit_exactly_one _ _ _ H0) in H1.
  destruct (step_separate_asm basename cfg asm_target asm_mods s1)
    as [s2|e|] eqn:H2; simpl in H; [|done..].
  apply (step_separate_asm_exactly_one _ _ _ _ H1) in H2.
  simplify_eq. by apply step_wasm_exactly_one.
Qed.

(** The wrapping steps also keep the one field that is set from being the
    empty string, which is what [replacement] asserts. *)
Lemma step_emterpreter_loaded s : loaded s → loaded (step_emterpreter cfg s).
Proof.
  intros H. unfold step_emterpreter. destruct (Py.truthy _); [|done].
  apply wrapped_loaded. by apply un_src_loaded.
Qed.

Lemma step_meminit_loaded memfile s s' :
  loaded s → step_meminit basename cfg memfile s = Ret s' → loaded s'.
Proof.
  intros H. unfold step_meminit. destruct (memory_init_file cfg); [|by intros [= <-]].
  destruct memfile as [m|]; [|done].
  destruct (un_src_loaded s H) as [H1 H2].
  destruct (inline (un_src s)) as [text|] eqn:Hi; [|done].
  intros [= <-]. right. split; [done|]. apply truthy_nl.
Qed.

Lemma step_separate_asm_loaded asm_target asm_mods s s' :
  loaded s → step_separate_asm basename cfg asm_target asm_mods s = Ret s' → loaded s'.
Proof.
  intros H. unfold step_separate_asm. destruct (negb _ || _).
  - destruct (length asm_mods =? 0); [|done]. by intros [= <-].
  - destruct (length asm_mods =? 0); intros [= <-];
      apply wrapped_loaded; by apply un_src_loaded.
Qed.

Lemma step_wasm_loaded wasm_binary_target s :
  loaded s → loaded (step_wasm basename cfg wasm_binary_target s).
Proof.
  intros H. unfold step_wasm. destruct (_ && _); [|done].
  apply wrapped_loaded. by apply un_src_loaded.
Qed.

Lemma step_start_loaded js_target target_basename :
  basename js_target ≠ "" →
  loaded (step_start basename worker_js_script get_mods cfg js_target target_basename
            ScriptSource_init).1.
Proof.
  intros Hne. unfold step_start. destruct (proxy_to_worker cfg); simpl.
  - right. split; [done|]. apply truthy_nl.
  - left. split; [|done]. simpl. unfold Py.truthy.
    apply negb_true_iff, String.eqb_neq. done.
Qed.

(** When the name of the generated script is not empty, the assertion of
    [replacement] cannot fail. *)
Lemma build_script_loaded shell js_target target_basename asm_target
    wasm_binary_target memfile script :
  basename js_target ≠ "" →
  build_script basename worker_js_script get_mods cfg shell js_target target_basename
    asm_target wasm_binary_target memfile = Ret script →
  loaded script.
Proof.
  unfold build_script. intros Hne H.
  destruct (contains shell "{{{ SCRIPT }}}"); [|done]. simpl in H.
  pose proof (step_start_loaded js_target target_basename Hne) as H0.
  destruct (step_start _ _ _ _ _ _ _) as [s0 asm_mods]. simpl in H0.
  apply step_emterpreter_loaded in H0.
  destruct (step_meminit basename cfg memfile (step_emterpreter cfg s0))
    as [s1|e|] eqn:H1; simpl in H; [|done..].
  apply (step_meminit_loaded _ _ _ H0) in H1.
  destruct (step_separate_asm basename cfg asm_target asm_mods s1)
    as [s2|e|] eqn:H2; simpl in H; [|done..].
  apply (step_separate_asm_loaded _ _ _ _ H1) in H2.
  simplify_eq. by apply step_wasm_loaded.
Qed.

Lemma script_tag_is_produced urllib_quote shell js_target target_basename asm_target
    wasm_binary_target memfile script :
  basename js_target ≠ "" →
  build_script basename worker_js_script get_mods cfg shell js_target target_basename
    asm_target wasm_binary_target memfile = Ret script →
  ∃ tag, script_tag basename worker_js_script get_mods cfg urllib_quote shell js_target
           target_basename asm_target wasm_binary_target memfile = Ret tag.
Proof.
  intros Hne H. pose proof (build_script_loaded _ _ _ _ _ _ _ Hne H) as Hl.
  unfold script_tag. rewrite H. simpl. unfold replacement.
  fold (asserted script). rewrite (loaded_asserted _ Hl). simpl.
  destruct (truth (src script)); by eexists.
Qed.
End Steps.



(** Without any wrapping the script stays a reference. *)
Example plain_script_tag :
  script_tag ex_basename (λ _, "") [] (ex_cfg false) (λ x, x)
    "<html>{{{ SCRIPT }}}</html>" "out/a.js" "a" "out/a.asm.js" "out/a.wasm"
    (Some "out/a.html.mem")
  = Ret ("<script async type=" +:+ dq +:+ "text/javascript" +:+ dq +:+ " src=" +:+ dq
         +:+ "a.js" +:+ dq +:+ "></script>").
Proof. vm_compute. reflexivity. Qed.

End HtmlFacts.

(** ** More on the library resolver *)

Module ResolverMore.
Import SystemLibs SystemLibsFacts AddLibraryFacts ScanFacts CalculateFacts ResolverSpec.
Import LibBuild LinkLineSpec.

(** *** The registered libraries, whatever the settings *)

Lemma malloc_name_lib settings malloc :
  malloc_name settings = Ret malloc → ∃ rest, malloc = "lib" +:+ rest.
Proof.
  unfold malloc_name. intros H.
  destruct (String.eqb (MALLOC settings) "dlmalloc");
    [|destruct (String.eqb (MALLOC settings) "emmalloc"); [|done]];
    simpl in H;
    destruct (3 <=? DEBUG_LEVEL settings), (SUPPORT_ERRNO settings),
             (USE_PTHREADS settings), (EMSCRIPTEN_TRACING settings);
    simpl in H; simplify_eq; by eexists.
Qed.

Lemma registered_names_start_with_lib settings files malloc l :
  (∃ rest, malloc = "lib" +:+ rest) →
  l ∈ make_system_libs settings files malloc →
  Py.startswith (shortname l) "lib" = true.
Proof.
  intros [rest ->] Hl. unfold make_system_libs in Hl.
  destruct (USE_PTHREADS settings), (WASM_BACKEND settings), (WASM settings),
           (LEGACY_GL_EMULATION settings), (USE_WEBGL2 settings);
    simpl in Hl;
    repeat (apply elem_of_cons in Hl as [-> | Hl];
            [by (done || (unfold Py.startswith; simpl; destruct rest))|]);
    by apply elem_of_nil in Hl.
Qed.

Lemma registered_deps_closed settings files malloc l d :
  l ∈ make_system_libs settings files malloc → d ∈ deps l →
  d ∈ dom (system_libs_map (make_system_libs settings files malloc)).
Proof.
  intros Hl Hd. rewrite system_libs_map_dom.
  unfold make_system_libs in *.
  destruct (USE_PTHREADS settings), (WASM_BACKEND settings), (WASM settings);
    simpl in *;
    repeat (apply elem_of_cons in Hl as [-> | Hl]; [simpl in Hd; set_solver|]);
    by apply elem_of_nil in Hl.
Qed.

(** The scan of libraries whose dependencies are all registered ends. *)
Lemma scan_libs_done Cache_get settings system_libs always_include force_include
    only_forced symbolses st :
  (∀ l d, l ∈ system_libs → d ∈ deps l → d ∈ dom (system_libs_map system_libs)) →
  (∀ l, l ∈ system_libs → Py.startswith (shortname l) "lib" = true) →
  ∃ st', scan_libs Cache_get settings system_libs always_include force_include only_forced
           symbolses st = Done tt st'.
Proof.
  intros Hclosed Hnames.
  destruct (for_each_run_done (λ _, True)
              (scan_lib Cache_get settings system_libs always_include force_include
                        only_forced symbolses) system_libs) with (st := st)
    as (st' & Hst' & _); [|done|by exists st'].
  intros lib s Hlib _.
  destruct (scan_lib_cases Cache_get settings system_libs always_include force_include
              only_forced symbolses lib s) as [[Hn _]|[[He _]|(He & _)]].
  - by rewrite (Hnames lib Hlib) in Hn.
  - by eexists.
  - rewrite He.
    destruct (add_library_done Cache_get settings system_libs force_include
                (fuel system_libs) lib s) as [s' Hs']; [done..|apply pending_fuel|].
    by exists s'.
Qed.


End ResolverMore.

(** ** [add_back_deps]: the symbols that [deps_info] adds *)

Module BackDepsFacts.
Import SystemLibs LinkLineSpec BackDepsSpec.

Section BackDeps.
Variable deps_info : list (string * list string).
Hypothesis keys_distinct : NoDup deps_info.*1.
Variable start : gset string.

Lemma same_key ident ds ds' :
  (ident, ds) ∈ deps_info → (ident, ds') ∈ deps_info → ds = ds'.
Proof.
  intros H1 H2.
  apply list_elem_of_lookup in H1 as [i Hi]. apply list_elem_of_lookup in H2 as [j Hj].
  assert (i = j) as ->.
  { eapply NoDup_lookup; [exact keys_distinct|..];
      rewrite list_lookup_fmap; [rewrite Hi|rewrite Hj]; done. }
  congruence.
Qed.

Lemma add_deps_fold (ds : list string) (s : BackDeps) :
  let s' := foldl (λ st dep,
                     {| bd_undefs := {[dep]} ∪ bd_undefs st;
                        bd_added := bd_added st;
                        bd_exports := bd_exports st ++ ["_" +:+ dep];
                        bd_more := bd_more st |}) s ds in
  bd_undefs s' = list_to_set ds ∪ bd_undefs s
  ∧ bd_added s' = bd_added s ∧ bd_more s' = bd_more s.
Proof.
  revert s. induction ds as [|d ds IH]; intros s; simpl.
  - split_and!; [set_solver|done..].
  - destruct (IH {| bd_undefs := {[d]} ∪ bd_undefs s; bd_added := bd_added s;
                    bd_exports := bd_exports s ++ ["_" +:+ d]; bd_more := bd_more s |})
      as (-> & -> & ->).
    simpl. split_and!; [set_solver|done..].
Qed.

(** One entry of [deps_info]. *)
Lemma item_step st item W :
  item ∈ deps_info →
  let st' := add_back_deps_item st item in
  bd_undefs st ⊆ bd_undefs st'
  ∧ bd_added st ⊆ bd_added st'
  ∧ (deps_covered deps_info (bd_added st) (bd_undefs st ∪ W) →
     deps_covered deps_info (bd_added st') (bd_undefs st' ∪ W))
  ∧ ((∀ x, x ∈ bd_undefs st → needed deps_info start x) →
     (∀ x, x ∈ bd_undefs st' → needed deps_info start x))
  ∧ (bd_more st = true → bd_more st' = true)
  ∧ (bd_more st' = false →
     st' = st ∧ (item.1 ∈ bd_undefs st → item.1 ∈ bd_added st)).
Proof.
  destruct item as [ident ds]. intros Hitem. cbn zeta. unfold add_back_deps_item.
  destruct (bool_decide (ident ∈ bd_undefs st) && negb (bool_decide (ident ∈ bd_added st)))
    eqn:Hc.
  - apply andb_true_iff in Hc as [Hu Ha].
    apply bool_decide_eq_true in Hu. apply negb_true_iff, bool_decide_eq_false in Ha.
    match goal with
    | |- context [foldl ?f ?s0 ds] => destruct (add_deps_fold ds s0) as (-> & -> & ->)
    end.
    simpl. split_and!; [set_solver|set_solver| | |done|done].
    + intros Hcov i ds' dep Hi Hin Hdep.
      apply elem_of_union in Hin as [Hin|Hin].
      * apply elem_of_singleton in Hin as ->.
        assert (ds' = ds) as -> by by eapply same_key.
        apply elem_of_union_l, elem_of_union_l. by apply elem_of_list_to_set.
      * specialize (Hcov i ds' dep Hi Hin Hdep). set_solver.
    + intros Hs x Hx. apply elem_of_union in Hx as [Hx|Hx]; [|by apply Hs].
      apply elem_of_list_to_set in Hx.
      eapply needed_dep; [exact Hitem|by apply Hs|done].
  - split_and!; [done..|]. intros _. split; [done|].
    simpl. intros Hu. apply andb_false_iff in Hc as [Hc|Hc].
    + by apply bool_decide_eq_false in Hc.
    + apply negb_false_iff, bool_decide_eq_true in Hc. done.
Qed.

(** One pass over [deps_info.items()]. *)
Lemma pass_step l st W :
  (∀ item, item ∈ l → item ∈ deps_info) →
  let st' := foldl add_back_deps_item st l in
  bd_undefs st ⊆ bd_undefs st'
  ∧ bd_added st ⊆ bd_added st'
  ∧ (deps_covered deps_info (bd_added st) (bd_undefs st ∪ W) →
     deps_covered deps_info (bd_added st') (bd_undefs st' ∪ W))
  ∧ ((∀ x, x ∈ bd_undefs st → needed deps_info start x) →
     (∀ x, x ∈ bd_undefs st' → needed deps_info start x))
  ∧ (bd_more st = true → bd_more st' = true)
  ∧ (bd_more st' = false →
     st' = st ∧ ∀ item, item ∈ l → item.1 ∈ bd_undefs st → item.1 ∈ bd_added st).
Proof.
  revert st. induction l as [|item l IH]; intros st Hl; cbn zeta; simpl.
  - split_and!; [done..|]. intros _. split; [done|]. intros item Hi.
    by apply elem_of_nil in Hi.
  - destruct (item_step st item W) as (I1 & I2 & I3 & I4 & I5 & I6);
      [apply Hl; left|].
    destruct (IH (add_back_deps_item st item)) as (J1 & J2 & J3 & J4 & J5 & J6).
    { intros i Hi. apply Hl. by right. }
    cbn zeta in *.
    split_and!; [set_solver|set_solver|by auto|by auto|by auto|].
    intros Hm. destruct (J6 Hm) as [Heq Hq].
    rewrite Heq in Hm. destruct (I6 Hm) as [Heq' Hq'].
    split; [by rewrite Heq|].
    intros i Hi. apply elem_of_cons in Hi as [-> | Hi]; [done|].
    rewrite <- Heq'. by apply Hq.
Qed.

(** [add_back_deps(need)] *)
Lemma add_back_deps_closes fuel st st' W :
  add_back_deps fuel deps_info st = Ret st' →
  bd_undefs st ⊆ bd_undefs st'
  ∧ bd_added st ⊆ bd_added st'
  ∧ (deps_covered deps_info (bd_added st) (bd_undefs st ∪ W) →
     deps_covered deps_info (bd_added st') (bd_undefs st' ∪ W))
  ∧ ((∀ x, x ∈ bd_undefs st → needed deps_info start x) →
     (∀ x, x ∈ bd_undefs st' → needed deps_info start x))
  ∧ (∀ ident ds, (ident, ds) ∈ deps_info → ident ∈ bd_undefs st' → ident ∈ bd_added st').
Proof.
  revert st. induction fuel as [|fuel IH]; intros st H; [done|].
  cbn [add_back_deps] in H.
  match type of H with
  | context [foldl add_back_deps_item ?s0 deps_info] =>
      destruct (pass_step deps_info s0 W) as (P1 & P2 & P3 & P4 & _ & P6); [done|];
      destruct (bd_more (foldl add_back_deps_item s0 deps_info)) eqn:Hm
  end; cbn zeta in *; simpl in *.
  - destruct (IH _ H) as (I1 & I2 & I3 & I4 & I5).
    split_and!; [set_solver|set_solver|by auto|by auto|done].
  - simplify_eq. destruct (P6 eq_refl) as [Heq Hq]. rewrite Heq in *. simpl in *.
    split_and!; [done..|].
    intros ident ds Hi. apply (Hq (ident, ds) Hi).
Qed.

Lemma all_undefs_nil : all_undefs [] = ∅.
Proof. done. Qed.

Lemma all_undefs_cons s rest :
  all_undefs (s :: rest) = undefs s ∪ all_undefs rest.
Proof. done. Qed.

(** All the inputs, one after the other, with [added] shared. *)
Lemma back_deps_all_closes symbolses added exported W symbolses' added' exported' :
  deps_covered deps_info added W →
  (∀ x, x ∈ all_undefs symbolses → needed deps_info start x) →
  back_deps_all deps_info symbolses added exported = Ret (symbolses', added', exported') →
  Forall2 (λ s s', defs s' = defs s ∧ undefs s ⊆ undefs s') symbolses symbolses'
  ∧ added ⊆ added'
  ∧ deps_covered deps_info added' (all_undefs symbolses' ∪ W)
  ∧ (∀ ident ds, (ident, ds) ∈ deps_info → ident ∈ all_undefs symbolses' → ident ∈ added')
  ∧ (∀ x, x ∈ all_undefs symbolses' → needed deps_info start x).
Proof.
  revert added exported W symbolses' added' exported'.
  induction symbolses as [|s rest IH];
    intros added exported W symbolses' added' exported' Hcov Hsound H;
    cbn [back_deps_all] in H.
  - simplify_eq. split_and!; [done|done| | |].
    + intros i ds dep ? ? ?. apply elem_of_union_r. by eapply Hcov.
    + intros ident ds _ Hin. rewrite all_undefs_nil in Hin. by apply elem_of_empty in Hin.
    + intros x Hin. rewrite all_undefs_nil in Hin. by apply elem_of_empty in Hin.
  - destruct (add_back_deps _ deps_info _) as [bd|e|] eqn:Hbd; simpl in H; [|done..].
    destruct (back_deps_all deps_info rest (bd_added bd) (bd_exports bd))
      as [[[rest' a'] e']|e|] eqn:Hrest; simpl in H; [|done..].
    destruct (add_back_deps_closes _ _ _ W Hbd) as (B1 & B2 & B3 & B4 & B5).
    simpl in *.
    rewrite all_undefs_cons in Hsound.
    destruct (IH (bd_added bd) (bd_exports bd) (bd_undefs bd ∪ W) rest' a' e')
      as (I1 & I2 & I3 & I4 & I5); [| |exact Hrest|].
    { apply B3. intros i ds dep ? ? ?. apply elem_of_union_r. by eapply Hcov. }
    { intros x Hx. apply Hsound. set_solver. }
    simplify_eq.
    rewrite all_undefs_cons. simpl.
    split_and!.
    + constructor; [|done]. simpl. done.
    + set_solver.
    + intros i ds dep Hi Hin Hdep. specialize (I3 i ds dep Hi Hin Hdep). set_solver.
    + intros ident ds Hi Hin. apply elem_of_union in Hin as [Hin|Hin].
      * apply I2. by eapply B5.
      * by eapply I4.
    + intros x Hx. apply elem_of_union in Hx as [Hx|Hx]; [|by apply I5].
      apply B4; [|done]. intros y Hy. apply Hsound. set_solver.
Qed.
End BackDeps.

Lemma all_undefs_mono symbolses symbolses' :
  Forall2 (λ s s', defs s' = defs s ∧ undefs s ⊆ undefs s') symbolses symbolses' →
  all_undefs symbolses ⊆ all_undefs symbolses'.
Proof.
  induction 1 as [|s s' l l' [_ Hs] _ IH]; [done|].
  rewrite !all_undefs_cons. set_solver.
Qed.

(** X2. [deps_info] is followed to the end: once [add_back_deps] has run on
    every input (the keys of [deps_info] are those of a dictionary, so
    distinct), the symbols that the inputs leave undefined, taken together,
    are exactly the symbols that the inputs needed at the start and the
    dependencies that [deps_info] lists for a needed symbol, however long
    the chain.  The symbols that an input defines are left as they are. *)
Theorem back_deps_follow_deps_info
    (deps_info : list (string * list string)) (symbolses : list Symbols)
    (exported : list string) (symbolses' : list Symbols) (added' : gset string)
    (exported' : list string) :
  NoDup deps_info.*1 →
  back_deps_all deps_info symbolses ∅ exported = Ret (symbolses', added', exported') →
  Forall2 (λ s s', defs s' = defs s ∧ undefs s ⊆ undefs s') symbolses symbolses'
  ∧ (∀ x, x ∈ all_undefs symbolses' ↔ needed deps_info (all_undefs symbolses) x).
Proof.
  intros Hnd H.
  destruct (back_deps_all_closes deps_info Hnd (all_undefs symbolses)
              symbolses ∅ exported ∅ symbolses' added' exported')
    as (I1 & _ & I3 & I4 & I5); [|by constructor|done|].
  { intros i ds dep _ Hin. by apply elem_of_empty in Hin. }
  split; [done|]. intros x. split; [apply I5|].
  induction 1 as [x Hx|ident ds dep Hi _ IH Hdep].
  - by apply (all_undefs_mono _ _ I1).
  - specialize (I3 ident ds dep Hi (I4 ident ds Hi IH) Hdep). set_solver.
Qed.

Lemma back_deps_follow_deps_info_witness :
  ∃ symbolses' added' exported',
    back_deps_all ex_deps_info ex_symbolses ∅ [] = Ret (symbolses', added', exported')
    ∧ exported' = ["_b"; "_c"]
    ∧ (∀ x, x ∈ all_undefs symbolses' ↔ needed ex_deps_info (all_undefs ex_symbolses) x).
Proof.
  assert (H : ∃ r, back_deps_all ex_deps_info ex_symbolses ∅ [] = Ret r
                   ∧ r.2 = ["_b"; "_c"]).
  { eexists. split; vm_compute; reflexivity. }
  destruct H as [[[symbolses' added'] exported'] [H He]].
  exists symbolses', added', exported'. split_and!; [exact H|exact He|].
  apply (back_deps_follow_deps_info ex_deps_info ex_symbolses [] symbolses' added' exported');
    [|exact H].
  apply (bool_decide_unpack _). vm_compute. exact I.
Defined.

End BackDepsFacts.

(** ** The link line and the library builds *)

Module LinkLineFacts.
Import SystemLibs LibBuild LinkLineSpec.

(** Reading what one step of the loop appends. *)
Lemma whole_archive_step_read ret g name nwa :
  is_flag name = false →
  ∃ r, whole_archive_step (ret, g) (name, nwa) = (ret ++ r, nwa)
       ∧ (∀ k, read_groups g (r ++ k) = (name, nwa) :: read_groups nwa k)
       ∧ (∀ g0, foldl (λ g a, if String.eqb a "--whole-archive" then true
                              else if String.eqb a "--no-whole-archive" then false else g)
                      g0 r = if decide (r = [name]) then g0 else nwa)
       ∧ (r = [name] → g = nwa).
Proof.
  intros Hname. unfold is_flag in Hname. apply orb_false_iff in Hname as [H1 H2].
  unfold whole_archive_step. destruct nwa, g; simpl.
  - exists [name]. split_and!; [done| | |done].
    + intros k. simpl. by rewrite H1, H2.
    + intros g0. simpl. rewrite H1, H2. by case_decide.
  - exists ["--whole-archive"; name]. split_and!; [by rewrite <- app_assoc| | |done].
    + intros k. simpl. by rewrite H1, H2.
    + intros g0. simpl. rewrite H1, H2. by case_decide.
  - exists ["--no-whole-archive"; name]. split_and!; [by rewrite <- app_assoc| | |done].
    + intros k. simpl. by rewrite H1, H2.
    + intros g0. simpl. rewrite H1, H2. by case_decide.
  - exists [name]. split_and!; [done| | |done].
    + intros k. simpl. by rewrite H1, H2.
    + intros g0. simpl. rewrite H1, H2. by case_decide.
Qed.

Lemma whole_archive_loop_read libs ret g :
  Forall (λ lib, is_flag lib.1 = false) libs →
  ∃ r g', foldl whole_archive_step (ret, g) libs = (ret ++ r, g')
          ∧ (∀ k, read_groups g (r ++ k) = libs ++ read_groups g' k)
          ∧ (∀ k, ends_in_group_from g (r ++ k) = ends_in_group_from g' k).
Proof.
  revert ret g. induction libs as [|[name nwa] libs IH]; intros ret g Hall; cbn [foldl].
  - exists [], g. by rewrite app_nil_r.
  - apply Forall_cons in Hall as [Hname Hall]. simpl in Hname.
    destruct (whole_archive_step_read ret g name nwa Hname) as (r1 & -> & Hr1 & Hg1 & Heq).
    destruct (IH (ret ++ r1) nwa Hall) as (r2 & g' & -> & Hr2 & Hg2).
    exists (r1 ++ r2), g'. split_and!.
    + by rewrite app_assoc.
    + intros k. rewrite <- app_assoc, Hr1, Hr2. done.
    + intros k. rewrite <- app_assoc. unfold ends_in_group_from.
      rewrite foldl_app, Hg1. fold (ends_in_group_from (if decide (r1 = [name]) then g else nwa)
                                      (r2 ++ k)).
      destruct (decide (r1 = [name])) as [Hd|_]; [rewrite (Heq Hd)|]; apply Hg2.
Qed.

(** X3. The link line can be read back: when no library file is named like
    one of the two group flags, reading the line that [calculate] builds
    gives the libraries in their order, each inside a [--whole-archive]
    group exactly when it needs the whole archive, and the line does not
    end inside a group. *)
Theorem whole_archive_groups_read_back (libs : list (string * bool)) :
  Forall (λ lib, is_flag lib.1 = false) libs →
  read_groups false (wrap_whole_archive libs) = libs
  ∧ ends_in_group (wrap_whole_archive libs) = false.
Proof.
  intros Hall. unfold wrap_whole_archive.
  destruct (whole_archive_loop_read libs [] false Hall) as (r & g' & -> & Hr & Hg).
  simpl. unfold ends_in_group. fold (ends_in_group_from false).
  destruct g'.
  - rewrite Hr, Hg. simpl. by rewrite app_nil_r.
  - specialize (Hr []). specialize (Hg []). rewrite app_nil_r in Hr, Hg.
    rewrite Hr, Hg. simpl. by rewrite app_nil_r.
Qed.

Lemma whole_archive_groups_read_back_witness :
  read_groups false
    (wrap_whole_archive [("libc.bc", false); ("libc++.a", true); ("libc++abi.a", true);
                         ("libal.bc", false)])
  = [("libc.bc", false); ("libc++.a", true); ("libc++abi.a", true); ("libal.bc", false)]
  ∧ ends_in_group
      (wrap_whole_archive [("libc.bc", false); ("libc++.a", true); ("libc++abi.a", true);
                           ("libal.bc", false)]) = false.
Proof.
  apply (whole_archive_groups_read_back
           [("libc.bc", false); ("libc++.a", true); ("libc++abi.a", true);
            ("libal.bc", false)]).
  repeat constructor.
Defined.

End LinkLineFacts.

Module LibBuildFacts.
Import SystemLibs LibBuild LibBuildSpec.

(** X4. The malloc library: [malloc_decision] succeeds exactly for dlmalloc,
    and for emmalloc without pthreads and without tracing; the name of the
    library starts with "lib" and the name of the allocator; emmalloc has
    two builds only, with or without "_debug"; and asking for emmalloc with
    pthreads or with tracing ends the build with [exit_with_error]. *)
Theorem malloc_library_choice (settings : Settings) :
  (returns (malloc_name settings) ↔
     MALLOC settings = "dlmalloc"
     ∨ (MALLOC settings = "emmalloc" ∧ USE_PTHREADS settings = false
        ∧ EMSCRIPTEN_TRACING settings = false))
  ∧ (∀ name, malloc_name settings = Ret name →
       Py.startswith name ("lib" +:+ MALLOC settings) = true
       ∧ (MALLOC settings = "emmalloc" →
          name = if (3 <=? DEBUG_LEVEL settings)%nat
                 then "libemmalloc_debug" else "libemmalloc"))
  ∧ (MALLOC settings = "emmalloc" → USE_PTHREADS settings = true →
     malloc_name settings
     = Raise (ExitWithError "only dlmalloc is possible when using pthreads"))
  ∧ (MALLOC settings = "emmalloc" → USE_PTHREADS settings = false →
     EMSCRIPTEN_TRACING settings = true →
     malloc_name settings
     = Raise (ExitWithError "only dlmalloc is possible when using tracing"))
  ∧ (MALLOC settings ≠ "dlmalloc" → MALLOC settings ≠ "emmalloc" →
     ∃ msg, malloc_name settings = Raise (Exception msg)).
Proof.
  unfold malloc_name, returns.
  destruct (String.eqb_spec (MALLOC settings) "dlmalloc") as [Hd|Hd].
  - rewrite Hd.
    destruct (3 <=? DEBUG_LEVEL settings), (SUPPORT_ERRNO settings),
             (USE_PTHREADS settings), (EMSCRIPTEN_TRACING settings); simpl;
      (split_and!;
       [split; [by left|by eexists]
       |intros name [= <-]; split; [done|done]
       |done..]).
  - destruct (String.eqb_spec (MALLOC settings) "emmalloc") as [He|He].
    + rewrite He.
      destruct (3 <=? DEBUG_LEVEL settings), (SUPPORT_ERRNO settings),
               (USE_PTHREADS settings), (EMSCRIPTEN_TRACING settings); simpl;
        (split_and!;
         [split; [intros [? ?]; first [done|by right]
                 |intros [?|(_ & ? & ?)]; first [done|by eexists]]
         |intros name H; by simplify_eq
         |done..]).
    + simpl. split_and!.
      * split; [by intros [? ?]|]. by intros [?|[? _]].
      * done.
      * done.
      * done.
      * intros _ _. by eexists.
Qed.

(** X5. The names under which [calculate] registers its libraries pass the
    checks of the build functions: whatever the settings, the assertions of
    [threading_flags], [legacy_gl_emulation_flags] and [gl_version_flags]
    hold on the file name that [add_library] hands to [create_gl] and to
    [create_libc], and the flags follow the settings. *)
Theorem registered_names_pass_the_flag_checks
    (settings : Settings) (files : SymbolFiles) (malloc : string) (lib : Library) :
  lib ∈ make_system_libs settings files malloc →
  ∃ flags,
    create_checks settings lib = Ret flags
    ∧ (create lib = create_gl →
       flags = ["-Oz"; "-s"; "USE_WEBGL2=1"]
               ++ (if USE_PTHREADS settings then ["-s"; "USE_PTHREADS=1"] else [])
               ++ (if LEGACY_GL_EMULATION settings then ["-DLEGACY_GL_EMULATION=1"] else [])
               ++ (if USE_WEBGL2 settings then ["-DUSE_WEBGL2=1"] else []))
    ∧ (create lib = create_libc →
       flags = ["-Os"; "-fno-builtin"]
               ++ (if USE_PTHREADS settings then ["-s"; "USE_PTHREADS=1"] else [])).
Proof.
  intros Hl. unfold make_system_libs in Hl.
  unfold create_checks, create_gl_flags, create_libc_args, threading_flags,
    legacy_gl_emulation_flags, gl_version_flags, library_file_name, maybe_noexcept.
  destruct (USE_PTHREADS settings), (WASM_BACKEND settings), (WASM settings),
           (LEGACY_GL_EMULATION settings), (USE_WEBGL2 settings),
           (WASM_OBJECT_FILES settings);
    simpl in Hl;
    repeat (apply elem_of_cons in Hl as [-> | Hl];
            [simpl; eexists; split_and!; [reflexivity|done..]|]);
    by apply elem_of_nil in Hl.
Qed.

Lemma registered_names_pass_the_flag_checks_witness :
  ∃ flags,
    create_checks ex_settings ex_gl = Ret flags
    ∧ (create ex_gl = create_gl →
       flags = ["-Oz"; "-s"; "USE_WEBGL2=1"]
               ++ (if USE_PTHREADS ex_settings then ["-s"; "USE_PTHREADS=1"] else [])
               ++ (if LEGACY_GL_EMULATION ex_settings then ["-DLEGACY_GL_EMULATION=1"] else [])
               ++ (if USE_WEBGL2 ex_settings then ["-DUSE_WEBGL2=1"] else []))
    ∧ (create ex_gl = create_libc →
       flags = ["-Os"; "-fno-builtin"]
               ++ (if USE_PTHREADS ex_settings then ["-s"; "USE_PTHREADS=1"] else [])).
Proof.
  apply (registered_names_pass_the_flag_checks ex_settings ex_files "libdlmalloc_threadsafe").
  unfold make_system_libs, ex_gl. simpl.
  do 6 apply list_elem_of_further. apply list_elem_of_here.
Defined.

(** A name that does not follow the settings fails the check. *)
Example gl_name_without_mt :
  create_gl_flags ex_settings "libgl-emu.bc" = Raise (AssertionError "").
Proof. reflexivity. Qed.

End LibBuildFacts.

(** ** Response files written by [create_response_file] *)

Module ResponseWriteFacts.
Import Shlex ResponseWrite.

Lemma app_cons_s c (a b : string) : String c a +:+ b = String c (a +:+ b).
Proof. reflexivity. Qed.

Lemma app_nil_l_s (b : string) : "" +:+ b = b.
Proof. reflexivity. Qed.

Lemma app_assoc_s (a b c : string) : (a +:+ b) +:+ c = a +:+ (b +:+ c).
Proof. induction a as [|x a IH]; [done|]. rewrite !app_cons_s. by rewrite IH. Qed.

Lemma app_nil_s (a : string) : a +:+ "" = a.
Proof. induction a as [|x a IH]; [done|]. rewrite app_cons_s. by rewrite IH. Qed.

Ltac str_norm := rewrite ?app_assoc_s, ?app_cons_s, ?app_nil_l_s.

Lemma push_app (t s : string) (c : ascii) : push t c +:+ s = t +:+ String c s.
Proof. unfold push. by str_norm. Qed.

Lemma replace_char_app old new a b :
  replace_char old new (a +:+ b) = replace_char old new a +:+ replace_char old new b.
Proof.
  induction a as [|c a IH]; [done|].
  rewrite app_cons_s. cbn [replace_char]. by rewrite IH, app_assoc_s.
Qed.

(** The escaping, one character after the other. *)
Lemma escape_cons c p :
  escape (String c p)
  = (if Ascii.eqb c Shlex.bs then bs +:+ bs
     else if Ascii.eqb c Shlex.dq then bs +:+ dq else String c "") +:+ escape p.
Proof.
  unfold escape. cbn [replace_char]. rewrite replace_char_app. f_equal.
  destruct (Ascii.eqb_spec c Shlex.bs) as [->|Hb]; [done|].
  cbn [replace_char]. destruct (Ascii.eqb c Shlex.dq); by rewrite ?app_nil_s.
Qed.

(** Outside of the escape state the lexer does not read [escapedstate]. *)
Lemma escapedstate_unread input : ∀ state esc esc' quoted token,
  state ≠ Escape →
  tokens state esc quoted token input = tokens state esc' quoted token input.
Proof.
  induction input as [|c input IH]; intros state esc esc' quoted token Hs.
  - by destruct state.
  - destruct state as [| |q|]; [| | |done]; cbn [tokens].
    + destruct (is_whitespace c); [destruct (Py.truthy token || quoted); [done|by apply IH]|].
      destruct (is_escape c); [done|].
      destruct (is_quote c); by apply IH.
    + destruct (is_whitespace c); [destruct (Py.truthy token || quoted); [done|by apply IH]|].
      destruct (is_quote c); [by apply IH|].
      destruct (is_escape c); [done|]. by apply IH.
    + destruct (Ascii.eqb c q); [by apply IH|].
      destruct (is_escape c && is_escapedquote q); [done|]. by apply IH.
Qed.

Lemma quote_sets_quoted q esc quoted token input :
  tokens (Quote q) esc quoted token input = tokens (Quote q) esc true token input.
Proof. by destruct input. Qed.

(** Reading an escaped argument inside double quotes gives the argument. *)
Lemma tokens_escaped p : ∀ esc token rest,
  tokens (Quote Shlex.dq) esc true token (escape p +:+ String Shlex.dq rest)
  = tokens Word Blank true (token +:+ p) rest.
Proof.
  induction p as [|c p IH]; intros esc token rest.
  - rewrite app_nil_s. cbn [escape replace_char]. str_norm. cbn [tokens].
    rewrite Ascii.eqb_refl. by apply escapedstate_unread.
  - rewrite escape_cons.
    destruct (Ascii.eqb_spec c Shlex.bs) as [->|Hb].
    + unfold bs. str_norm. cbn [tokens].
      change (Ascii.eqb Shlex.bs Shlex.dq) with false.
      change (is_escape Shlex.bs && is_escapedquote Shlex.dq) with true.
      cbn [andb negb]. rewrite Ascii.eqb_refl. cbn [andb negb].
      rewrite IH. by rewrite push_app.
    + destruct (Ascii.eqb_spec c Shlex.dq) as [->|Hd].
      * unfold bs, dq. str_norm. cbn [tokens].
        change (Ascii.eqb Shlex.bs Shlex.dq) with false.
        change (is_escape Shlex.bs && is_escapedquote Shlex.dq) with true.
        cbn [andb negb]. rewrite Ascii.eqb_refl, andb_false_r.
        rewrite IH. by rewrite push_app.
      * str_norm. cbn [tokens].
        apply Ascii.eqb_neq in Hb, Hd. unfold is_escape. rewrite Hb, Hd. cbn [andb].
        rewrite IH. by rewrite push_app.
Qed.

Lemma join_cons2 sep (a b : string) l :
  Py.join sep (a :: b :: l) = a +:+ sep +:+ Py.join sep (b :: l).
Proof. done. Qed.

Lemma tokens_quoted_args args : ∀ a,
  tokens (Quote Shlex.dq) Blank true ""
    (Py.join (dq +:+ " " +:+ dq) (escape <$> a :: args) +:+ dq)
  = Ret (a :: args).
Proof.
  induction args as [|b args IH]; intros a.
  - cbn [fmap list_fmap Py.join]. unfold dq at 1. rewrite tokens_escaped. done.
  - rewrite !fmap_cons, join_cons2. unfold dq at 1 2. str_norm.
    rewrite tokens_escaped. str_norm. cbn [tokens].
    change (is_whitespace " ") with true. cbn [orb Py.truthy]. rewrite orb_true_r.
    cbn [tokens].
    change (is_whitespace Shlex.dq) with false.
    change (is_escape Shlex.dq) with false.
    change (is_quote Shlex.dq) with true. cbn match.
    rewrite quote_sets_quoted.
    rewrite <- fmap_cons, IH. done.
Qed.

(** X6. What [create_response_file] writes, [read_response_file] reads back:
    whatever the characters of the arguments (spaces, quotes, backslashes,
    new lines), reading the file that was written for a list of arguments
    gives that list.  The one exception is the empty list, which is read
    back as one empty argument.  The file is noted for removal, and no
    other file is touched. *)
Theorem response_file_round_trip
    (mkstemp : string → string) (args : list string) (directory : string)
    (fs : string → option string) (temp_files : list string) :
  let '(name, fs', temp_files') :=
    create_response_file mkstemp args directory fs temp_files in
  ResponseFile.read_response_file fs' Shlex.split ("@" +:+ name)
  = Ret (match args with [] => [""] | _ => args end)
  ∧ temp_files' = temp_files ++ [name]
  ∧ (∀ other, other ≠ name → fs' other = fs other).
Proof.
  unfold create_response_file. split_and!; [|done|].
  - unfold ResponseFile.read_response_file.
    assert (Py.startswith ("@" +:+ mkstemp directory) "@" = true) as ->.
    { unfold Py.startswith. simpl. by destruct (mkstemp directory). }
    rewrite app_cons_s, app_nil_l_s. cbn [Py.tail]. rewrite String.eqb_refl.
    unfold Shlex.split, contents. destruct args as [|a args].
    + reflexivity.
    + unfold dq at 1. str_norm. cbn [tokens].
      change (is_whitespace Shlex.dq) with false.
      change (is_escape Shlex.dq) with false.
      change (is_quote Shlex.dq) with true. cbn match.
      rewrite quote_sets_quoted.
      apply tokens_quoted_args.
  - intros other Hne. apply String.eqb_neq in Hne. by rewrite Hne.
Qed.

(** An argument with a space, a quote and a backslash. *)
Example response_file_with_quotes :
  contents ["-DNAME=" +:+ dq +:+ "a b" +:+ dq; "C:" +:+ bs +:+ "dir"]
  = dq +:+ "-DNAME=" +:+ bs +:+ dq +:+ "a b" +:+ bs +:+ dq +:+ dq +:+ " " +:+ dq
    +:+ "C:" +:+ bs +:+ bs +:+ "dir" +:+ dq
  ∧ Shlex.split (contents ["-DNAME=" +:+ dq +:+ "a b" +:+ dq; "C:" +:+ bs +:+ "dir"])
    = Ret ["-DNAME=" +:+ dq +:+ "a b" +:+ dq; "C:" +:+ bs +:+ "dir"].
Proof. split; vm_compute; reflexivity. Qed.

End ResponseWriteFacts.

(** ** The command line *)

Module DriverFacts.
Import Driver DriverSpec.

Ltac res_simpl := cbn [mbind res_bind mret res_ret assert].

Lemma drop_cons_inv {A} (l : list A) i x rest :
  drop i l = x :: rest → l !! i = Some x ∧ drop (S i) l = rest.
Proof.
  intros H. split.
  - rewrite <- (Nat.add_0_r i), <- lookup_drop, H. done.
  - replace (S i) with (i + 1) by lia. rewrite <- drop_drop, H. done.
Qed.

Lemma count_cons x a l :
  count x (a :: l) = (if String.eqb x a then 1 else 0) + count x l.
Proof. unfold count. simpl. by destruct (String.eqb x a). Qed.

Lemma setting_is_no_flag v :
  is_setting v = true → String.eqb "-s" v = false ∧ String.eqb "--tracing" v = false.
Proof.
  unfold is_setting. intros H. apply andb_true_iff in H as [H1 H2].
  split; apply String.eqb_neq; intros <-; done.
Qed.

(** The generator, from any place in the arguments. *)
Lemma filter_from_spec argv : ∀ els idx skip,
  drop idx argv = els →
  (skip = true → ∃ h t, els = h :: t ∧ is_setting h = true) →
  ∃ out,
    filter_emscripten_options_from 0 argv idx skip els = Ret out
    ∧ out `sublist_of` els
    ∧ count "--tracing" out = 0
    ∧ count "-s" out = count "-s" els.
Proof.
  induction els as [|el els IH]; intros idx skip Hdrop Hskip.
  - exists []. done.
  - apply drop_cons_inv in Hdrop as [Hel Hdrop].
    cbn [filter_emscripten_options_from]. destruct skip.
    + destruct (Hskip eq_refl) as (h & t & [= <- <-] & Hset).
      destruct (IH (S idx) false Hdrop) as (out & -> & Hsub & Ht & Hs); [done|].
      exists out. split_and!; [done|by apply sublist_cons|done|].
      rewrite count_cons. by destruct (setting_is_no_flag _ Hset) as [-> _].
    + cbn [Nat.eqb andb].
      destruct (String.eqb_spec el "-s") as [->|Hs].
      * unfold is_minus_s_for_emcc. rewrite Hel, String.eqb_refl. res_simpl.
        destruct (argv !! (idx + 1)) as [next|] eqn:Hnext.
        -- fold (is_setting next). destruct (is_setting next) eqn:Hset; res_simpl.
           ++ destruct (IH (S idx) true Hdrop) as (out & -> & Hsub & Ht & Hc).
              { intros _. destruct els as [|h t].
                - exfalso. apply (f_equal length) in Hdrop. rewrite length_drop in Hdrop.
                  apply lookup_lt_Some in Hnext. simpl in Hdrop. lia.
                - apply drop_cons_inv in Hdrop as [Hh _].
                  replace (idx + 1) with (S idx) in Hnext by lia.
                  exists h, t. split; [done|]. congruence. }
              res_simpl. exists ("-s" :: out).
              split_and!; [done|by apply sublist_skip|done|].
              rewrite !count_cons, Hc. done.
           ++ destruct (IH (S idx) false Hdrop) as (out & -> & Hsub & Ht & Hc); [done|].
              res_simpl. exists ("-s" :: out).
              split_and!; [done|by apply sublist_skip|done|].
              rewrite !count_cons, Hc. done.
        -- res_simpl.
           destruct (IH (S idx) false Hdrop) as (out & -> & Hsub & Ht & Hc); [done|].
           res_simpl. exists ("-s" :: out).
           split_and!; [done|by apply sublist_skip|done|].
           rewrite !count_cons, Hc. done.
      * res_simpl.
        destruct (IH (S idx) false Hdrop) as (out & -> & Hsub & Ht & Hc); [done|].
        res_simpl. destruct (String.eqb_spec el "--tracing") as [->|Htr].
        -- exists out. split_and!; [done|by apply sublist_cons|done|].
           rewrite count_cons. done.
        -- exists (el :: out). split_and!; [done|by apply sublist_skip| |].
           ++ rewrite count_cons. apply String.eqb_neq in Htr.
              rewrite String.eqb_sym, Htr. done.
           ++ rewrite !count_cons, Hc. apply String.eqb_neq in Hs.
              rewrite String.eqb_sym, Hs. done.
Qed.

Lemma filter_from_js use_js argv : ∀ els idx,
  use_js ≠ 0 → filter_emscripten_options_from use_js argv idx false els = Ret els.
Proof.
  intros els idx Hjs. apply Nat.eqb_neq in Hjs.
  revert idx. induction els as [|el els IH]; intros idx; [done|].
  cbn [filter_emscripten_options_from]. rewrite Hjs. cbn [andb]. res_simpl.
  rewrite IH. done.
Qed.


(** The value of a setting goes, the flag stays. *)
Example configure_arguments_native :
  filter_emscripten_options 0 ["a.c"; "-s"; "USE_SDL=2"; "--tracing"; "-s"; "-o"; "a.out"]
  = Ret ["a.c"; "-s"; "-s"; "-o"; "a.out"].
Proof. reflexivity. Qed.

(** *** The target *)

Lemma find_target_loop_skip argv m : ∀ k rest,
  (∀ i, k ≤ i < k + m → ∃ a, argv !! i = Some a ∧ is_plain a = true) →
  find_target_loop argv (seq k m ++ rest) = find_target_loop argv rest.
Proof.
  induction m as [|m IH]; intros k rest Hplain; [done|].
  cbn [seq app find_target_loop].
  destruct (Hplain k) as (a & -> & Ha); [lia|]. cbn [from_option id].
  unfold is_plain in Ha. apply andb_true_iff in Ha as [H1 H2].
  apply negb_true_iff in H1, H2. rewrite H1, H2.
  apply IH. intros i Hi. apply Hplain. lia.
Qed.

Lemma plain_prefix pre post i :
  Forall (λ a, is_plain a = true) pre → i < length pre →
  ∃ a, (pre ++ post) !! i = Some a ∧ is_plain a = true.
Proof.
  intros Hall Hi. destruct (lookup_lt_is_Some_2 pre i Hi) as [a Ha].
  exists a. split; [by apply lookup_app_l_Some|].
  eapply (proj1 (Forall_forall _ _) Hall). by eapply list_elem_of_lookup_2.
Qed.

(** X8. The scan for the output file.  The arguments before the first
    [-o] that are looked at are those that have an argument after them:
    [-o target] is taken out of the arguments and gives the target; an
    argument that starts with [-o=] and comes before ends the run with an
    exception; and when no such argument is met the arguments are left as
    they are, which is also the case of a [-o] or [-o=X] that comes last,
    since the last argument is not looked at. *)
Theorem output_target_scan (pre post tail : list string) (t x y : string) :
  Forall (λ a, is_plain a = true) pre →
  (length tail ≤ 1 → find_target (pre ++ tail) = Ret (None, pre ++ tail))
  ∧ find_target (pre ++ "-o" :: t :: post) = Ret (Some t, pre ++ post)
  ∧ (Py.startswith x "-o=" = true →
     find_target (pre ++ x :: y :: post)
     = Raise (Exception "Invalid syntax: do not use -o=X, use -o X")).
Proof.
  intros Hpre. unfold find_target. split_and!.
  - intros Htail. rewrite <- (app_nil_r (seq _ _)).
    rewrite find_target_loop_skip; [done|].
    intros i Hi. apply plain_prefix; [done|]. rewrite length_app in Hi. lia.
  - rewrite length_app. cbn [length].
    replace (length pre + S (S (length post)) - 1)
      with (length pre + S (length post)) by lia.
    rewrite seq_app, find_target_loop_skip.
    2:{ intros i Hi. apply plain_prefix; [done|lia]. }
    cbn [seq find_target_loop Nat.add].
    rewrite list_lookup_middle by done. cbn [from_option id].
    change (Py.startswith "-o" "-o=") with false. rewrite String.eqb_refl.
    repeat f_equal.
    + rewrite lookup_app_r by lia.
      replace (length pre + 1 - length pre) with 1 by lia. done.
    + by rewrite take_app_length.
    + rewrite drop_app_ge by lia.
      replace (length pre + 2 - length pre) with 2 by lia. done.
  - intros Hx. rewrite length_app. cbn [length].
    replace (length pre + S (S (length post)) - 1)
      with (length pre + S (length post)) by lia.
    rewrite seq_app, find_target_loop_skip.
    2:{ intros i Hi. apply plain_prefix; [done|lia]. }
    cbn [seq find_target_loop Nat.add].
    rewrite list_lookup_middle by done. cbn [from_option id]. by rewrite Hx.
Qed.

Lemma output_target_scan_witness :
  (1 ≤ 1 → find_target (["emcc"; "a.c"] ++ ["-o"]) = Ret (None, ["emcc"; "a.c"] ++ ["-o"]))
  ∧ find_target (["emcc"; "a.c"] ++ "-o" :: "a.html" :: ["-O2"])
    = Ret (Some "a.html", ["emcc"; "a.c"] ++ ["-O2"])
  ∧ (Py.startswith "-o=a.js" "-o=" = true →
     find_target (["emcc"; "a.c"] ++ "-o=a.js" :: "-O2" :: ["-O2"])
     = Raise (Exception "Invalid syntax: do not use -o=X, use -o X")).
Proof.
  apply (output_target_scan ["emcc"; "a.c"] ["-O2"] ["-o"] "a.html" "-o=a.js" "-O2").
  repeat constructor.
Defined.

(** *** The language mode *)

Lemma lmode_is_lang item :
  Py.startswith item "-x" = true →
  match (if (2 <? String.length item)%nat then Some (str_drop 2 item) else None) with
  | Some m => is_in m ["c++"; "c"]
  | None => false
  end = is_lang (str_drop 2 item).
Proof.
  intros H. by destruct item as [|a [|b [|c item]]].
Qed.

Lemma detect_from_spec args : ∀ check_next,
  detect_fixed_language_mode_from check_next args = true ↔
    (check_next = true ∧ ∃ item, head args = Some item ∧ is_lang item = true)
    ∨ (∃ i item, args !! i = Some item ∧ Py.startswith item "-x" = true
                 ∧ (is_lang (str_drop 2 item) = true
                    ∨ ∃ next, args !! S i = Some next ∧ is_lang next = true)).
Proof.
  induction args as [|item rest IH]; intros check_next.
  - cbn [detect_fixed_language_mode_from]. split; [done|].
    intros [(_ & item & H & _)|(i & item & H & _)]; done.
  - cbn [detect_fixed_language_mode_from]. fold (is_lang item).
    destruct (check_next && is_lang item) eqn:Hc.
    { apply andb_true_iff in Hc as [-> Hl]. split; [|done].
      intros _. left. split; [done|]. by exists item. }
    destruct (Py.startswith item "-x") eqn:Hx.
    + rewrite (lmode_is_lang _ Hx).
      destruct (is_lang (str_drop 2 item)) eqn:Hl.
      { split; [|done]. intros _. right. exists 0, item. split_and!; [done..|by left]. }
      rewrite IH. split.
      * intros [(_ & next & Hn & Hnl)|(i & it & Hi & Hix & Hil)].
        -- right. exists 0, item. split_and!; [done..|]. right. exists next.
           split; [|done]. by destruct rest; simplify_eq.
        -- right. by exists (S i), it.
      * intros [(-> & it & [= <-] & Hil)|(i & it & Hi & Hix & Hil)].
        { by rewrite Hil in Hc. }
        destruct i as [|i].
        -- simpl in Hi. simplify_eq. destruct Hil as [Hil|(next & Hn & Hnl)].
           { by rewrite Hil in Hl. }
           left. split; [done|]. exists next. split; [|done].
           simpl in Hn. by destruct rest; simplify_eq.
        -- right. by exists i, it.
    + rewrite IH. split.
      * intros [(? & _)|(i & it & Hi & Hix & Hil)]; [done|].
        right. by exists (S i), it.
      * intros [(-> & it & [= <-] & Hil)|(i & it & Hi & Hix & Hil)].
        { by rewrite Hil in Hc. }
        destruct i as [|i].
        -- simpl in Hi. simplify_eq. congruence.
        -- right. by exists i, it.
Qed.

(** X9. The language mode is fixed exactly when some argument starts with
    [-x] and either goes on with [c] or [c++], or is followed by the
    argument [c] or [c++].  The argument that follows is looked at whatever
    comes after [-x] in the first one: [-xassembler c] fixes the mode. *)
Theorem fixed_language_mode (args : list string) :
  detect_fixed_language_mode args = true ↔
    ∃ i item, args !! i = Some item ∧ Py.startswith item "-x" = true
              ∧ (is_lang (str_drop 2 item) = true
                 ∨ ∃ next, args !! S i = Some next ∧ is_lang next = true).
Proof.
  unfold detect_fixed_language_mode. rewrite detect_from_spec.
  split; [|by right]. by intros [[? _]|?].
Qed.

Example fixed_language_mode_quirk :
  detect_fixed_language_mode ["-xassembler"; "c"; "a.s"] = true
  ∧ detect_fixed_language_mode ["-x"; "c++"; "a.txt"] = true
  ∧ detect_fixed_language_mode ["-xc"; "a.txt"] = true
  ∧ detect_fixed_language_mode ["-x"; "objective-c"; "c"] = false.
Proof. done. Qed.

(** *** Loops over the indices of the arguments *)

Lemma for_each_seq {St} (P : nat → St → Prop) (f : St → nat → res St) m : ∀ k s,
  P k s →
  (∀ i s, k ≤ i < k + m → P i s → ∃ s', f s i = Ret s' ∧ P (S i) s') →
  ∃ s', for_each f s (seq k m) = Ret s' ∧ P (k + m) s'.
Proof.
  induction m as [|m IH]; intros k s Hs Hstep.
  - exists s. by rewrite Nat.add_0_r.
  - destruct (Hstep k s) as (s1 & Hf & Hs1); [lia|done|].
    destruct (IH (S k) s1 Hs1) as (s' & Hs' & HP).
    { intros i s2 Hi. apply Hstep. lia. }
    exists s'. cbn [seq for_each]. rewrite Hf. res_simpl.
    split; [done|]. by replace (k + S m) with (S k + m) by lia.
Qed.

Lemma for_each_seq_inv {St} (P : nat → St → Prop) (f : St → nat → res St) m : ∀ k s s',
  P k s →
  (∀ i s s', k ≤ i < k + m → P i s → f s i = Ret s' → P (S i) s') →
  for_each f s (seq k m) = Ret s' → P (k + m) s'.
Proof.
  induction m as [|m IH]; intros k s s' Hs Hstep H.
  - cbn in H. simplify_eq. by rewrite Nat.add_0_r.
  - cbn [seq for_each] in H. destruct (f s k) as [s1| |] eqn:Hf; [|done..].
    res_simpl. replace (k + S m) with (S k + m) by lia.
    apply (IH (S k) s1); [|intros i s2 s3 Hi; apply Hstep; lia|done].
    apply (Hstep k s); [lia|done..].
Qed.

(** *** Joining [-l], [-L], [-I] with the argument that follows *)

Lemma concat_args_join cur : ∀ i arg next,
  cur !! i = Some arg → cur !! S i = Some next →
  concat_args (<[S i := ""]> (<[i := arg +:+ next]> cur)) = concat_args cur.
Proof.
  induction cur as [|x cur IH]; intros i arg next Hi Hn; [done|].
  destruct i as [|i].
  - destruct cur as [|y rest]; simplify_eq/=.
    unfold concat_args. simpl.
    clear. induction arg as [|c arg IHa]; [done|].
    change (String c arg +:+ next) with (String c (arg +:+ next)).
    change (String c (arg +:+ next) +:+ ?z) with (String c ((arg +:+ next) +:+ z)).
    change (String c arg +:+ ?z) with (String c (arg +:+ z)). by rewrite IHa.
  - simpl in Hi, Hn. cbn [insert list_insert]. unfold concat_args. cbn [foldr].
    f_equal. by apply IH.
Qed.

Lemma join_flag_step_cases cur i cur' :
  join_flag_step cur i = Ret cur' →
  cur' = cur
  ∨ ∃ arg next, cur !! i = Some arg ∧ is_bare_flag arg = true ∧ cur !! S i = Some next
                ∧ cur' = <[S i := ""]> (<[i := arg +:+ next]> cur).
Proof.
  unfold join_flag_step. fold (is_bare_flag (default "" (cur !! i))).
  destruct (is_bare_flag (default "" (cur !! i))) eqn:Hb; [|intros [= <-]; by left].
  replace (i + 1) with (S i) by lia.
  destruct (cur !! S i) as [next|] eqn:Hn; [|done]. intros [= <-]. right.
  destruct (cur !! i) as [arg|] eqn:Hi; [|done]. by exists arg, next.
Qed.

(** X10. The loop that joins a bare [-l], [-L] or [-I] with the argument
    that follows it keeps the number of arguments and, read one after the
    other, their text: the value moves into the flag and leaves an empty
    argument behind.  The loop ends without an error when the last argument
    is not one of the three bare flags. *)
Theorem bare_flags_are_joined (l : list string) :
  (∀ l', join_flags l = Ret l' →
     length l' = length l ∧ concat_args l' = concat_args l)
  ∧ ((∀ a, last l = Some a → is_bare_flag a = false) → returns (join_flags l)).
Proof.
  unfold join_flags. split.
  - intros l' H.
    apply (for_each_seq_inv
             (λ _ cur, length cur = length l ∧ concat_args cur = concat_args l)
             join_flag_step (length l) 0 l l'); [done| |done].
    intros i cur cur' _ [Hlen Hcat] Hstep.
    apply join_flag_step_cases in Hstep
      as [->|(arg & next & Hi & _ & Hn & ->)]; [done|].
    split; [by rewrite !length_insert|]. by rewrite (concat_args_join _ _ _ _ Hi Hn).
  - intros Hlast.
    destruct (for_each_seq
                (λ i cur, length cur = length l
                          ∧ ∀ j, i ≤ j → cur !! j = l !! j ∨ cur !! j = Some "")
                join_flag_step (length l) 0 l) as (l' & Hl' & _);
      [split; [done|by left]| |by exists l'].
    intros i cur Hi [Hlen Hrest].
    assert (Hnext : is_bare_flag (default "" (cur !! i)) = true → is_Some (cur !! S i)).
    { intros Hb. apply lookup_lt_is_Some. rewrite Hlen.
      destruct (decide (S i < length l)) as [|Hge]; [done|]. exfalso.
      assert (i = pred (length l)) as -> by lia.
      destruct (Hrest (pred (length l))) as [Hc|Hc]; [done|..]; rewrite Hc in Hb.
      - rewrite <- last_lookup in Hb. destruct (last l) as [a|] eqn:Ha; [|done].
        simpl in Hb. by rewrite (Hlast a) in Hb.
      - done. }
    unfold join_flag_step. fold (is_bare_flag (default "" (cur !! i))).
    destruct (is_bare_flag (default "" (cur !! i))) eqn:Hb.
    + destruct (Hnext eq_refl) as [next Hn].
      replace (i + 1) with (S i) by lia. rewrite Hn. eexists. split; [done|].
      split; [by rewrite !length_insert|].
      intros j Hj. destruct (decide (j = S i)) as [->|Hne].
      * right. apply list_lookup_insert_eq. rewrite length_insert.
        by apply lookup_lt_Some in Hn.
      * rewrite !list_lookup_insert_ne by lia. apply Hrest. lia.
    + exists cur. split; [done|]. split; [done|]. intros j Hj. apply Hrest. lia.
Qed.

Example bare_flag_at_the_end :
  join_flags ["-I"; "inc"; "a.c"; "-l"; "m"] = Ret ["-Iinc"; ""; "a.c"; "-lm"; ""]
  ∧ join_flags ["a.c"; "-l"] = Raise IndexError
  ∧ join_flags ["a.c"; "-L"; "-l"] = Ret ["a.c"; "-L-l"; ""].
Proof. done. Qed.

(** *** The settings given with [-s] *)

Lemma setting_not_wasm_backend key :
  is_setting key = true → String.eqb key "WASM_BACKEND" = false ∧ key ≠ "".
Proof.
  intros H. split; [apply String.eqb_neq|]; intros ->; done.
Qed.

Lemma blanks_sublist cur l :
  Forall2 (λ c o : string, c = o ∨ c = "") cur l →
  List.filter (λ arg, negb (String.eqb arg "")) cur `sublist_of` l.
Proof.
  induction 1 as [|c o cur l [->| ->] _ IH]; [done|..]; cbn [List.filter].
  - destruct (negb (String.eqb o "")); [by apply sublist_skip|by apply sublist_cons].
  - by apply sublist_cons.
Qed.

Lemma blanks_insert cur l i :
  Forall2 (λ c o : string, c = o ∨ c = "") cur l →
  Forall2 (λ c o : string, c = o ∨ c = "") (<[i := ""]> cur) l.
Proof.
  intros H. revert i. induction H as [|c o cur l Hco Hrest IH]; intros i; [done|].
  destruct i as [|i]; cbn [insert list_insert]; constructor; auto.
Qed.

Lemma filter_nonempty (l : list string) :
  Forall (λ a, a ≠ "") (List.filter (λ arg, negb (String.eqb arg "")) l).
Proof.
  apply Forall_forall. intros a Ha. apply list_elem_of_In, filter_In in Ha as [_ Ha].
  apply negb_true_iff, String.eqb_neq in Ha. done.
Qed.


Example wasm_backend_setting_is_taken :
  collect_settings ["-O2"; "-s"; "WASM_BACKEND=1"; "-s"; "a.c"; "-s"; "WASM_BACKEND"] []
  = Ret (["-O2"; "-s"; "a.c"; "-s"; "WASM_BACKEND"], ["WASM_BACKEND=1"]).
Proof. done. Qed.

(** *** C or C++ *)

Lemma detect_use_cxx_spec args : ∀ use_cxx,
  detect_use_cxx use_cxx args
  = match List.find is_language_flag args with
    | Some flag => negb (String.eqb flag "-xc")
    | None => use_cxx && negb (existsb is_c_file args)
    end.
Proof.
  induction args as [|arg args IH]; intros use_cxx.
  - by rewrite andb_true_r.
  - cbn [detect_use_cxx List.find existsb]. unfold is_language_flag at 1, is_c_file at 1.
    destruct (String.eqb_spec arg "-xc") as [->|Hc]; [done|].
    destruct (String.eqb_spec arg "-xc++") as [->|Hcxx]; [done|].
    cbn [orb]. destruct (Py.startswith arg "-"); cbn [negb andb orb]; [apply IH|].
    destruct (Py.endswith_any arg C_OR_OBJC_ENDINGS); rewrite IH;
      destruct (List.find is_language_flag args); cbn [orb negb andb];
      rewrite ?andb_false_r; done.
Qed.

(** X12. The compiler is the C++ one unless the arguments say otherwise:
    the first of [-xc] and [-xc++] decides when there is one, whatever the
    files; without them, one C or Objective-C file among the arguments is
    enough for the C compiler to be taken for all the files. *)
Theorem compiler_choice (args : list string) :
  detect_use_cxx true args
  = match List.find is_language_flag args with
    | Some flag => negb (String.eqb flag "-xc")
    | None => negb (existsb is_c_file args)
    end.
Proof. by rewrite detect_use_cxx_spec. Qed.

Example one_c_file_among_cxx_files :
  detect_use_cxx true ["a.cpp"; "b.c"; "c.cpp"] = false
  ∧ detect_use_cxx true ["a.c"; "-xc++"; "b.c"] = true
  ∧ detect_use_cxx true ["/dev/null"] = false.
Proof. done. Qed.

End DriverFacts.

(** ** Checks on the settings *)

Module SplitMemoryFacts.
Import SplitMemory.

Lemma land_pred_pow2 (k : Z) : (0 ≤ k)%Z → Z.land (2 ^ k) (2 ^ k - 1) = 0%Z.
Proof.
  intros Hk. apply Z.bits_inj'. intros n Hn.
  rewrite Z.land_spec, Z.bits_0, Z.pow2_bits_eqb by done.
  replace (2 ^ k - 1)%Z with (Z.ones k) by (rewrite Z.ones_equiv; lia).
  rewrite Z.testbit_ones_nonneg by done.
  destruct (Z.eqb_spec k n) as [->|]; [|done]. simpl. apply Z.ltb_irrefl.
Qed.

Lemma land_pred_zero (x : Z) :
  x ≠ 0%Z → Z.land x (x - 1) = 0%Z → ∃ k, (0 ≤ k)%Z ∧ x = (2 ^ k)%Z.
Proof.
  intros Hx Hland.
  assert (Hpos : (0 < x)%Z).
  { destruct (Z.lt_trichotomy x 0) as [Hneg|[?|?]]; [|done..]. exfalso.
    assert (Z.land x (x - 1) < 0)%Z by (apply Z.land_neg; lia). lia. }
  exists (Z.log2 x). split; [apply Z.log2_nonneg|].
  destruct (Z.log2_spec x Hpos) as [Hlo Hhi].
  destruct (Z.eq_dec x (2 ^ Z.log2 x)%Z) as [|Hne]; [done|]. exfalso.
  assert (Hlog : Z.log2 (x - 1) = Z.log2 x).
  { apply Z.log2_unique; [apply Z.log2_nonneg|]. lia. }
  assert (Hbit : Z.testbit (Z.land x (x - 1)) (Z.log2 x) = true).
  { rewrite Z.land_spec, Z.bit_log2 by done.
    rewrite <- Hlog. rewrite Z.bit_log2; [done|].
    pose proof (Z.pow_pos_nonneg 2 (Z.log2 x)) as Hp.
    specialize (Hp eq_refl (Z.log2_nonneg x)). lia. }
  rewrite Hland, Z.bits_0 in Hbit. done.
Qed.

(** X13. When SPLIT_MEMORY is set, the build goes on exactly when it is a
    power of two that is larger than TOTAL_STACK and neither RELOCATABLE
    nor USE_PTHREADS is set (the test [x & (x-1) == 0] lets the powers of
    two through, and nothing else).  Afterwards ASM_JS is not 1, SAFE_HEAP
    is off, the JS optimizer is on and forced, and the closure compiler is
    off. *)
Theorem split_memory_is_a_power_of_two (s : Settings) (o : Options) :
  SPLIT_MEMORY s ≠ 0%Z →
  (returns (split_memory_block s o) ↔
     (TOTAL_STACK s < SPLIT_MEMORY s)%Z
     ∧ (∃ k, (0 ≤ k)%Z ∧ SPLIT_MEMORY s = (2 ^ k)%Z)
     ∧ RELOCATABLE s = 0%Z ∧ USE_PTHREADS s = 0%Z)
  ∧ (∀ s' o', split_memory_block s o = Ret (s', o') →
       ASM_JS s' ≠ 1%Z ∧ SAFE_HEAP s' = 0%Z
       ∧ opt_truthy id (js_opts o') = true ∧ force_js_opts o' = true
       ∧ opt_truthy truthy (use_closure_compiler o') = false
       ∧ SPLIT_MEMORY s' = SPLIT_MEMORY s ∧ TOTAL_STACK s' = TOTAL_STACK s).
Proof.
  intros Hx. unfold split_memory_block, returns.
  assert (truthy (SPLIT_MEMORY s) = true) as ->
    by (by apply negb_true_iff, Z.eqb_neq).
  destruct (Z.ltb_spec (TOTAL_STACK s) (SPLIT_MEMORY s)) as [Hst|Hst]; cbn [assert mbind res_bind];
    [|split; [split; [intros [? Hd]; discriminate Hd|intros (? & _); lia]|intros ? ? Hd; discriminate Hd]].
  destruct (Z.eqb_spec (Z.land (SPLIT_MEMORY s) (SPLIT_MEMORY s - 1)) 0) as [Hl|Hl];
    cbn [assert mbind res_bind].
  2:{ split; [|done]. split; [intros [? Hd]; discriminate Hd|].
      intros (_ & (k & Hk & Hp) & _). exfalso. apply Hl. rewrite Hp.
      by apply land_pred_pow2. }
  unfold truthy.
  destruct (Z.eqb_spec (SAFE_HEAP s) 0) as [Hs|Hs]; cbn [negb];
    (destruct (Z.eqb_spec (RELOCATABLE s) 0) as [Hr|Hr]; cbn [negb assert mbind res_bind];
     [|split; [split; [intros [? Hd]; discriminate Hd|intros (_ & _ & ? & _); lia]
              |intros ? ? Hd; discriminate Hd]]);
    (destruct (Z.eqb_spec (USE_PTHREADS s) 0) as [Hp|Hp]; cbn [negb assert mbind res_bind];
     [|split; [split; [intros [? Hd]; discriminate Hd|intros (_ & _ & _ & ?); lia]
              |intros ? ? Hd; discriminate Hd]]);
    (split;
     [split; [|by eexists];
      intros _; split_and!; [done|by apply land_pred_zero|done..]
     |intros s' o' H; simplify_eq; simpl;
      split_and!; [by destruct (Z.eqb_spec (ASM_JS s) 1)|done| |done| |done..];
      [by destruct (js_opts o) as [[]|]
      |destruct (use_closure_compiler o) as [c|]; [|done]; simpl;
       by destruct (Z.eqb_spec c 0) as [->|Hc]]]).
Qed.

Lemma split_memory_is_a_power_of_two_witness :
  (returns (split_memory_block ex_settings ex_options) ↔
     (TOTAL_STACK ex_settings < SPLIT_MEMORY ex_settings)%Z
     ∧ (∃ k, (0 ≤ k)%Z ∧ SPLIT_MEMORY ex_settings = (2 ^ k)%Z)
     ∧ RELOCATABLE ex_settings = 0%Z ∧ USE_PTHREADS ex_settings = 0%Z)
  ∧ (∃ s' o', split_memory_block ex_settings ex_options = Ret (s', o')
              ∧ ASM_JS s' = 2%Z ∧ SAFE_SPLIT_MEMORY s' = 1%Z).
Proof.
  split.
  - apply (split_memory_is_a_power_of_two ex_settings ex_options). discriminate.
  - eexists _, _. split_and!; reflexivity.
Defined.

Example split_memory_not_a_power_of_two :
  split_memory_block
    {| SPLIT_MEMORY := 12582912; TOTAL_STACK := 5242880; ASM_JS := 1; SAFE_HEAP := 0;
       SAFE_SPLIT_MEMORY := 0; RELOCATABLE := 0; USE_PTHREADS := 0 |} ex_options
  = Raise (AssertionError "SPLIT_MEMORY must be a power of 2").
Proof. reflexivity. Qed.

End SplitMemoryFacts.

(** ** Paths *)

Module PathsFacts.
Import Paths.

Lemma ascii_compare_refl c : Ascii.compare c c = Eq.
Proof.
  pose proof (Ascii.compare_antisym c c) as H. by destruct (Ascii.compare c c).
Qed.

Lemma prefix_nil s : String.prefix "" s = true.
Proof. by destruct s. Qed.

Lemma prefix_cons c d s1 s2 :
  String.prefix (String c s1) (String d s2) = Ascii.eqb c d && String.prefix s1 s2.
Proof.
  simpl. destruct (Ascii.ascii_dec c d) as [->|Hne].
  - by rewrite Ascii.eqb_refl.
  - apply Ascii.eqb_neq in Hne. by rewrite Hne.
Qed.

Lemma prefix_refl s : String.prefix s s = true.
Proof. induction s as [|c s IH]; [done|]. by rewrite prefix_cons, Ascii.eqb_refl. Qed.

Lemma prefix_not_greater a : ∀ b, String.prefix a b = true → String.compare a b ≠ Gt.
Proof.
  induction a as [|c a IH]; intros b H; [by destruct b|].
  destruct b as [|d b]; [done|]. rewrite prefix_cons in H.
  apply andb_true_iff in H as [Hc H]. apply Ascii.eqb_eq in Hc as ->.
  simpl. rewrite ascii_compare_refl. by apply IH.
Qed.

(** The loop on a string and a larger one: no index is out of range. *)
Lemma commonprefix_loop_lt s1 : ∀ s2,
  String.compare s1 s2 = Lt →
  ∃ p, commonprefix_loop s1 s2 = Ret p
       ∧ String.prefix p s1 = true ∧ String.prefix p s2 = true
       ∧ (String.prefix s1 s2 = true → p = s1).
Proof.
  induction s1 as [|c s1 IH]; intros s2 Hlt.
  - exists "". split_and!; [done|done|apply prefix_nil|done].
  - destruct s2 as [|d s2]; [done|]. simpl in Hlt. cbn [commonprefix_loop].
    destruct (Ascii.compare c d) eqn:Hcd; [| |done].
    + apply Ascii.compare_eq_iff in Hcd as ->. rewrite Ascii.eqb_refl.
      destruct (IH s2 Hlt) as (p & -> & Hp1 & Hp2 & Hp). cbn [mbind res_bind].
      exists (String d p). rewrite !prefix_cons, Ascii.eqb_refl. simpl.
      split_and!; [done..|]. intros H. f_equal. by apply Hp.
    + assert (Ascii.eqb c d = false) as Hne.
      { apply Ascii.eqb_neq. intros ->. by rewrite ascii_compare_refl in Hcd. }
      rewrite Hne. exists "". rewrite prefix_cons, Hne. done.
Qed.

Lemma commonprefix_loop_refl s : commonprefix_loop s s = Ret s.
Proof.
  induction s as [|c s IH]; [done|]. cbn [commonprefix_loop].
  by rewrite Ascii.eqb_refl, IH.
Qed.

Lemma in_directory_prefix realpath root child :
  in_directory realpath root child
  = Ret (String.prefix (realpath root) (realpath child)).
Proof.
  unfold in_directory, commonprefix2, py_min2, py_max2, String.ltb.
  generalize (realpath root) (realpath child). clear. intros r c.
  rewrite (String.compare_antisym r c).
  destruct (String.compare c r) eqn:Hcr; simpl.
  - apply String.compare_eq_iff in Hcr as ->.
    rewrite commonprefix_loop_refl. simpl. by rewrite String.eqb_refl, prefix_refl.
  - destruct (commonprefix_loop_lt c r Hcr) as (p & -> & Hp1 & Hp2 & Hp). simpl.
    f_equal. destruct (String.eqb_spec p r) as [->|Hne].
    + exfalso. apply prefix_not_greater in Hp1. rewrite String.compare_antisym, Hcr in Hp1.
      done.
    + symmetry. apply not_true_is_false. intros Hpre.
      apply prefix_not_greater in Hpre. rewrite String.compare_antisym, Hcr in Hpre. done.
  - assert (String.compare r c = Lt) as Hrc by (by rewrite String.compare_antisym, Hcr).
    destruct (commonprefix_loop_lt r c Hrc) as (p & -> & Hp1 & Hp2 & Hp). simpl.
    f_equal. destruct (String.eqb_spec p r) as [->|Hne]; [done|].
    symmetry. apply not_true_is_false. intros Hpre. by apply Hne, Hp.
Qed.


Example sibling_directory_passes :
  in_directory (λ p, p) "/usr/inc" "/usr/include/x.h" = Ret true
  ∧ in_directory (λ p, p) "/usr/include" "/usr/inc/x.h" = Ret false.
Proof. done. Qed.

End PathsFacts.

(** ** File names and libraries *)

Module InputsMore.
Import Inputs FileNameSpec ScanSpec LibrarySearchSpec ResponseWriteFacts.

(** *** [str.split] *)

Lemma split_nonempty c s : ∃ w ws, Py.split c s = w :: ws.
Proof.
  induction s as [|a s (w & ws & IH)]; [by eexists _, _|].
  cbn [Py.split]. destruct (Ascii.eqb a c); [by eexists _, _|].
  rewrite IH. by eexists _, _.
Qed.

Lemma split_app c a b :
  Py.split c (a +:+ String c b) = Py.split c a ++ Py.split c b.
Proof.
  induction a as [|x a IH].
  - rewrite app_nil_l_s. cbn [Py.split]. by rewrite Ascii.eqb_refl.
  - rewrite app_cons_s. cbn [Py.split]. destruct (Ascii.eqb x c).
    + by rewrite IH.
    + rewrite IH. by destruct (split_nonempty c a) as (w & ws & ->).
Qed.

Lemma split_none c s : has_char c s = false → Py.split c s = [s].
Proof.
  induction s as [|a s IH]; [done|]. cbn [has_char Py.split].
  intros H. apply orb_false_iff in H as [-> H]. by rewrite (IH H).
Qed.

Lemma split_parts c s w : w ∈ Py.split c s → has_char c w = false.
Proof.
  revert w. induction s as [|a s IH]; intros w Hw.
  - cbn in Hw. by apply list_elem_of_singleton in Hw as ->.
  - cbn [Py.split] in Hw. destruct (Ascii.eqb a c) eqn:Hac.
    + apply elem_of_cons in Hw as [->|Hw]; [done|by apply IH].
    + destruct (split_nonempty c s) as (w0 & ws & Hs). rewrite Hs in Hw, IH.
      apply elem_of_cons in Hw as [->|Hw].
      * cbn [has_char]. rewrite Hac. apply IH. left.
      * apply IH. by right.
Qed.

Lemma digits_no_dot d : all_digits d = true → has_char "." d = false.
Proof.
  induction d as [|a d IH]; [done|]. cbn [all_digits has_char].
  intros H. apply andb_true_iff in H as [Ha H]. rewrite (IH H), orb_false_r.
  apply Ascii.eqb_neq. intros ->. done.
Qed.

Lemma suffix_of_plain s : has_char "." s = false → filename_type_suffix s = "".
Proof. intros H. unfold filename_type_suffix. by rewrite (split_none _ _ H). Qed.

Lemma suffix_by_last_component_eq f s :
  has_char "." s = false →
  filename_type_suffix (f +:+ String "." s)
  = if isdigit s then filename_type_suffix f else s.
Proof.
  intros Hs. unfold filename_type_suffix.
  rewrite split_app, (split_none _ _ Hs).
  destruct (split_nonempty "." f) as (w & ws & ->).
  cbn [app drop]. rewrite drop_0, rev_app_distr. cbn [rev app find].
  by destruct (isdigit s).
Qed.

(** X15. [filename_type_suffix] looks at the last component of a file name
    after a dot: when this is a number (a Unix version number) the suffix is
    the one of the name without it, otherwise it is this component, also
    when it is empty. A name without a dot has the suffix [''], and so has a
    name whose components after the first dot are all numbers. *)
Theorem suffix_by_last_component (f s : string) :
  has_char "." s = false →
  filename_type_suffix s = ""
  ∧ filename_type_suffix (f +:+ "." +:+ s)
    = if isdigit s then filename_type_suffix f else s.
Proof.
  intros Hs. split; [by apply suffix_of_plain|].
  by apply suffix_by_last_component_eq.
Qed.

Lemma suffix_by_last_component_witness :
  filename_type_suffix "8" = ""
  ∧ filename_type_suffix ("libz.so.1.2" +:+ "." +:+ "8")
    = if isdigit "8" then filename_type_suffix "libz.so.1.2" else "8".
Proof. apply (suffix_by_last_component "libz.so.1.2" "8"). reflexivity. Defined.

Example suffix_of_a_versioned_library :
  filename_type_suffix "libz.so.1.2.8" = "so"
  ∧ filename_type_ending "libz.so.1.2.8" = ".so"
  ∧ filename_type_suffix "archive.1.2" = ""
  ∧ filename_type_suffix "a.tar.gz" = "gz"
  ∧ filename_type_suffix "dir.d/name" = "d/name".
Proof. by vm_compute. Qed.

(** *** The scan of the arguments *)

Section Scan.
Variable islink : string → bool.
Variable realpath : string → string.
Variable exists_ : string → bool.
Variable is_ar : string → bool.
Variable is_bitcode : string → bool.
Variable unsuffixed_basename : string → string.
Variable path_join : string → string → string.
Variable path_from_root : list string → string.
Variable opts : Options.

Notation find_input :=
  (find_input islink realpath exists_ is_ar is_bitcode unsuffixed_basename opts).
Notation find_inputs :=
  (find_inputs islink realpath exists_ is_ar is_bitcode unsuffixed_basename
               path_from_root opts).
Notation find_library := (find_library exists_ path_join).
Notation scan_step := (scan_step exists_).
Notation scanned := (scanned exists_).

Lemma find_input_step f i f' : find_input f i = Next f' → scan_step i f f'.
Proof.
  unfold Inputs.find_input, set_arg. intros H.
  repeat case_match; simplify_eq;
    first [ by apply scan_skip; [done|done|auto]
          | by eapply scan_lib
          | eapply scan_input; [done|done|done|];
            by match goal with H : negb (exists_ _) = false |- _ =>
                 apply negb_false_iff in H end ].
Qed.

Lemma scanned_step args k f f' :
  k < length args → scanned args k f → scan_step k f f' → scanned args (S k) f'.
Proof.
  intros Hk (Hlen & Hargs & Hin & Hlib & Hnd) Hstep.
  assert (Hset : ∀ j, <[k := ""]> (newargs f) !! j = args !! j
                      ∨ <[k := ""]> (newargs f) !! j = Some "").
  { intros j. destruct (decide (j = k)) as [->|Hne].
    - right. apply list_lookup_insert_eq. lia.
    - rewrite list_lookup_insert_ne by done. apply Hargs. }
  assert (Hkeep : ∀ j, newargs f !! j = Some ""
                       → <[k := ""]> (newargs f) !! j = Some "").
  { intros j Hj. destruct (decide (j = k)) as [->|Hne].
    - apply list_lookup_insert_eq. lia.
    - by rewrite list_lookup_insert_ne. }
  assert (Hfresh : k ∉ (input_files f).*1 ++ (libs f).*1).
  { intros Hel. apply elem_of_app in Hel as [Hel|Hel];
      apply list_elem_of_fmap in Hel as (x & -> & Hx).
    - eapply Forall_forall in Hin; [|done]. lia.
    - eapply Forall_forall in Hlib; [|done]. lia. }
  assert (Hin' : ∀ na : list string, (∀ j, newargs f !! j = Some "" → na !! j = Some "") →
            Forall (λ x, x.1 < S k ∧ na !! x.1 = Some "" ∧ exists_ x.2 = true)
                   (input_files f)).
  { intros na Hna. eapply Forall_impl; [done|]. intros x (? & ? & ?). auto with lia. }
  assert (Hlib' : ∀ na : list string, (∀ j, newargs f !! j = Some "" → na !! j = Some "") →
            Forall (λ x, x.1 < S k ∧ na !! x.1 = Some "") (libs f)).
  { intros na Hna. eapply Forall_impl; [done|]. intros x (? & ?). auto with lia. }
  assert (Hk' : <[k := ""]> (newargs f) !! k = Some "").
  { apply list_lookup_insert_eq. lia. }
  destruct Hstep as [Hi Hl Hn|file Hi Hl Hn Hex|lib Hi Hl Hn]; unfold ScanSpec.scanned;
    rewrite Hi, Hl.
  - destruct Hn as [-> | ->]; rewrite ?length_insert; auto 10.
  - rewrite Hn, length_insert. split_and!; [done|done| | |].
    + apply Forall_app. split; [auto|]. by repeat constructor.
    + auto.
    + rewrite fmap_app. cbn [fmap list_fmap fst].
      apply NoDup_app in Hnd as (Hn1 & Hn12 & Hn2).
      apply NoDup_app. split_and!.
      * apply NoDup_app. split_and!; [done| |apply NoDup_singleton].
        intros x Hx ->%list_elem_of_singleton. apply Hfresh, elem_of_app. by left.
      * intros x [Hx| ->%list_elem_of_singleton]%elem_of_app; [by apply Hn12|].
        intros Hx. apply Hfresh, elem_of_app. by right.
      * done.
  - rewrite Hn, length_insert. split_and!; [done|done| | |].
    + auto.
    + apply Forall_app. split; [auto|]. by repeat constructor.
    + rewrite fmap_app. cbn [fmap list_fmap fst]. rewrite app_assoc.
      apply NoDup_app. split_and!; [done| |apply NoDup_singleton].
      by intros x Hx ->%list_elem_of_singleton.
Qed.

Lemma for_range_scanned args n k f f' :
  k + n = length args → scanned args k f →
  for_range find_input f (seq k n) = Next f' → scanned args (k + n) f'.
Proof.
  revert k f. induction n as [|n IH]; intros k f Hkn Hf H.
  - cbn in H. simplify_eq. by rewrite Nat.add_0_r.
  - cbn [seq for_range] in H. destruct (find_input f k) as [f1|] eqn:H1; [|done].
    replace (k + S n) with (S k + n) by lia. apply (IH (S k) f1); [lia| |done].
    eapply scanned_step; [lia|done|]. by apply find_input_step.
Qed.

(** X16. When the scan of the arguments comes to its end, the argument list
    has kept its length and every argument is as it was or is blanked; every
    input file and every library carries the index of a blanked argument,
    no index is given twice (so an argument is an input file or a library,
    never both), and every input file exists. *)
Theorem scan_blanks_what_it_takes (args : list string) (f : Found) :
  find_inputs args = Next f →
  length (newargs f) = length args
  ∧ (∀ j, newargs f !! j = args !! j ∨ newargs f !! j = Some "")
  ∧ Forall (λ x, newargs f !! x.1 = Some "" ∧ exists_ x.2 = true) (input_files f)
  ∧ Forall (λ x, newargs f !! x.1 = Some "") (libs f)
  ∧ NoDup ((input_files f).*1 ++ (libs f).*1).
Proof.
  intros H. unfold Inputs.find_inputs in H.
  apply (for_range_scanned args (length args) 0) in H as (H1 & H2 & H3 & H4 & H5).
  - split_and!; [done|done| | |done].
    + eapply Forall_impl; [done|]. by intros x (_ & ? & ?).
    + eapply Forall_impl; [done|]. by intros x (_ & ?).
  - done.
  - split_and!; cbn; [done|by left|constructor|constructor|constructor].
Qed.

(** *** The search for a library *)

Lemma bind_singleton {A B} (g : A → B) (l : list A) : (l ≫= λ x, [g x]) = g <$> l.
Proof. induction l as [|x l IH]; [done|]. cbn. by f_equal. Qed.

Lemma head_filter_None {A} (P : A → bool) (l : list A) :
  head (filter (λ x, P x = true) l) = None ↔ Forall (λ x, P x = false) l.
Proof.
  induction l as [|x l IH]; [by split; [constructor|]|].
  rewrite filter_cons. destruct (decide (P x = true)) as [Hx|Hx].
  - split; [done|]. intros H. apply Forall_cons in H as [H _]. congruence.
  - rewrite IH. apply not_true_is_false in Hx. split.
    + by constructor.
    + by intros [_ ?]%Forall_cons.
Qed.

Lemma head_filter_first {A} (P : A → bool) (l1 l2 : list A) (x : A) :
  Forall (λ y, P y = false) l1 → P x = true →
  head (filter (λ y, P y = true) (l1 ++ x :: l2)) = Some x.
Proof.
  intros H1 Hx. induction H1 as [|y l1 Hy _ IH]; cbn [app].
  - rewrite filter_cons. by rewrite decide_True.
  - rewrite filter_cons. rewrite decide_False; [done|congruence].
Qed.

Lemma find_library_candidates lib_dirs lib :
  find_library lib_dirs lib =
  head (filter (λ path, exists_ path = true)
          (concat ((λ name, (λ d, path_join d name) <$> lib_dirs) <$> library_names lib))).
Proof.
  unfold Inputs.find_library. f_equal. f_equal.
  unfold LIB_PREFIXES, STATICLIB_ENDINGS, DYNAMICLIB_ENDINGS, library_names.
  cbn [app mbind list_bind fmap list_fmap concat].
  rewrite !bind_singleton, !app_nil_l_s, !app_nil_r, <-!app_assoc. done.
Qed.

(** X17. A library [-l<lib>] is looked for under six file names:
    [<lib>.a], [<lib>.dylib], [<lib>.so] and the same three after [lib].
    Nothing is found exactly when none of them exists in any directory of
    the search path. Otherwise the order of the names comes before the
    order of the directories: the file found is the first existing one
    under the first name that exists in some directory. *)
Theorem library_names_before_directories (lib_dirs : list string) (lib : string) :
  (find_library lib_dirs lib = None
   ↔ ∀ name dir, name ∈ library_names lib → dir ∈ lib_dirs →
                 exists_ (path_join dir name) = false)
  ∧ (∀ names1 name names2 dirs1 dir dirs2,
       library_names lib = names1 ++ name :: names2 →
       lib_dirs = dirs1 ++ dir :: dirs2 →
       (∀ n d, n ∈ names1 → d ∈ lib_dirs → exists_ (path_join d n) = false) →
       (∀ d, d ∈ dirs1 → exists_ (path_join d name) = false) →
       exists_ (path_join dir name) = true →
       find_library lib_dirs lib = Some (path_join dir name)).
Proof.
  rewrite find_library_candidates. split.
  - rewrite head_filter_None, Forall_concat, Forall_fmap. split.
    + intros H name dir Hname Hdir.
      eapply Forall_forall in H; [|exact Hname]. cbn in H.
      rewrite Forall_fmap in H. eapply Forall_forall in H; [|exact Hdir]. done.
    + intros H. apply Forall_forall. intros name Hname. cbn.
      rewrite Forall_fmap. apply Forall_forall. intros dir Hdir. cbn. by apply H.
  - intros names1 name names2 dirs1 dir dirs2 -> Hdirs Hnames Hbefore Hex.
    assert (Hblock : (λ d, path_join d name) <$> lib_dirs
                     = ((λ d, path_join d name) <$> dirs1)
                       ++ path_join dir name :: ((λ d, path_join d name) <$> dirs2)).
    { by rewrite Hdirs, fmap_app, fmap_cons. }
    rewrite fmap_app, concat_app, fmap_cons, concat_cons, Hblock.
    rewrite <-!app_assoc, app_assoc. cbn [app]. apply head_filter_first; [|done].
    apply Forall_app. split.
    + rewrite Forall_concat, Forall_fmap. apply Forall_forall. intros n Hn. cbn.
      rewrite Forall_fmap. apply Forall_forall. intros d Hd. cbn. by apply Hnames.
    + rewrite Forall_fmap. apply Forall_forall. intros d Hd. cbn. by apply Hbefore.
Qed.
End Scan.

(** A library of the plain name in the second directory is found, not the
    ones named [lib...] that the first directory or the second have. *)
Example static_library_in_a_later_directory :
  Inputs.find_library ex_exists InputsSpec.ex_path_join ["first"; "second"] "z"
  = Some "second/z.so"
  ∧ Inputs.find_library ex_exists InputsSpec.ex_path_join ["first"; "second"] "y" = None.
Proof. by vm_compute. Qed.

Lemma scan_blanks_what_it_takes_witness :
  length (newargs ex_found) = length ex_args
  ∧ (∀ j, newargs ex_found !! j = ex_args !! j ∨ newargs ex_found !! j = Some "")
  ∧ Forall (λ x, newargs ex_found !! x.1 = Some "" ∧ (λ _ : string, true) x.2 = true)
           (input_files ex_found)
  ∧ Forall (λ x, newargs ex_found !! x.1 = Some "") (libs ex_found)
  ∧ NoDup ((input_files ex_found).*1 ++ (libs ex_found).*1).
Proof.
  apply (scan_blanks_what_it_takes (λ _, false) (λ f, f) (λ _, true) (λ _, false)
           InputsSpec.ex_is_bitcode (λ f, f) (Py.join "/") InputsSpec.ex_opts
           ex_args ex_found).
  reflexivity.
Defined.

End InputsMore.

(** ** The chunks of the JS optimizer *)

Module ChunkFacts.
Import JSOpt ChunkSpec.

Section Chunks.
Variable use_native : string → bool → bool.
Variable source_map : bool.

Let native (p : string) : bool := use_native p source_map.
Let pre (i : nat) : list string := if (0 <? i)%nat then ["receiveJSON"] else [].
Let closed (i : nat) (run : list string) : list string := pre i ++ run ++ ["emitJSON"].
Let one (run : list string) : Prop :=
  run ≠ [] ∧ ∀ p q, p ∈ run → q ∈ run → native p = native q.
Let switches (runs : list (list string)) : Prop :=
  ∀ i g h p q, runs !! i = Some g → runs !! S i = Some h → p ∈ g → q ∈ h →
               native p ≠ native q.

(** The two lists of the loop after [passes]. *)
Let batched (passes : list string) (chunks : list (list string)) (curr : list string)
    : Prop :=
  (passes = [] ∧ chunks = [] ∧ curr = [])
  ∨ ∃ runs run,
      passes = concat runs ++ run ∧ Forall one runs ∧ one run
      ∧ switches (runs ++ [run])
      ∧ chunks = imap closed runs ∧ curr = pre (length runs) ++ run.

Lemma switches_same runs run p :
  one run → (∀ q, q ∈ run → native q = native p) →
  switches (runs ++ [run]) → switches (runs ++ [run ++ [p]]).
Proof.
  intros Hone Hp Hsw i g h x y Hg Hh Hx Hy.
  destruct (decide (S i < length runs)) as [Hlt|Hge].
  - rewrite lookup_app_l in Hg by lia. rewrite lookup_app_l in Hh by lia.
    apply (Hsw i g h x y); [by rewrite lookup_app_l by lia..|done|done].
  - assert (S i = length runs) as Hi.
    { apply lookup_lt_Some in Hh. rewrite length_app in Hh. cbn in Hh. lia. }
    rewrite lookup_app_l in Hg by lia.
    rewrite lookup_app_r, Hi, Nat.sub_diag in Hh by lia. cbn in Hh. simplify_eq.
    destruct Hone as [Hne Hall]. destruct run as [|r run]; [done|].
    assert (native y = native r) as ->.
    { apply elem_of_app in Hy as [Hy| ->%list_elem_of_singleton].
      - apply Hall; [done|left].
      - symmetry. apply Hp. left. }
    apply (Hsw i g (r :: run) x r); [by rewrite lookup_app_l by lia| |done|left].
    by rewrite lookup_app_r, Hi, Nat.sub_diag by lia.
Qed.

Lemma switches_next runs p :
  (∀ run q, last runs = Some run → q ∈ run → native q ≠ native p) →
  switches runs → switches (runs ++ [[p]]).
Proof.
  intros Hp Hsw i g h x y Hg Hh Hx Hy.
  destruct (decide (S i < length runs)) as [Hlt|Hge].
  - rewrite lookup_app_l in Hg by lia. rewrite lookup_app_l in Hh by lia.
    by apply (Hsw i g h x y).
  - assert (S i = length runs) as Hi.
    { apply lookup_lt_Some in Hh. rewrite length_app in Hh. cbn in Hh. lia. }
    rewrite lookup_app_l in Hg by lia.
    rewrite lookup_app_r, Hi, Nat.sub_diag in Hh by lia. cbn in Hh. simplify_eq.
    apply list_elem_of_singleton in Hy as ->. apply (Hp g); [|done].
    rewrite last_lookup. by replace (pred (length runs)) with i by lia.
Qed.

Lemma last_pre i run : run ≠ [] → last (pre i ++ run) = last run.
Proof.
  intros Hne. rewrite last_app. destruct (last run) eqn:Hl; [done|].
  by apply last_None in Hl.
Qed.

Lemma batched_step passes chunks curr p :
  batched passes chunks curr →
  batched (passes ++ [p])
    (if (length curr =? 0)%nat then chunks
     else if Bool.eqb (native p) (native (default "" (last curr))) then chunks
     else chunks ++ [curr ++ ["emitJSON"]])
    (if (length curr =? 0)%nat then curr ++ [p]
     else if Bool.eqb (native p) (native (default "" (last curr))) then curr ++ [p]
     else ["receiveJSON"; p]).
Proof.
  intros [(-> & -> & ->)|(runs & run & -> & Hruns & Hrun & Hsw & -> & ->)].
  - right. exists [], [p]. cbn. split_and!; [done|constructor| |..|done|done].
    + split; [done|]. by intros x y ->%list_elem_of_singleton ->%list_elem_of_singleton.
    + intros i g h x y Hg Hh. by destruct i.
  - right. assert (Hne : run ≠ []) by apply Hrun.
    assert (length (pre (length runs) ++ run) =? 0 = false) as ->.
    { apply Nat.eqb_neq. rewrite length_app. destruct run; [done|]. cbn. lia. }
    rewrite last_pre by done.
    destruct (last run) as [r|] eqn:Hlast; [|by apply last_None in Hlast].
    cbn [from_option id].
    assert (Hr : r ∈ run).
    { rewrite last_lookup in Hlast. by eapply list_elem_of_lookup_2. }
    destruct (Bool.eqb (native p) (native r)) eqn:Hpr.
    + apply eqb_prop in Hpr. exists runs, (run ++ [p]).
      split_and!; [by rewrite <-app_assoc|done| | |done|by rewrite <-app_assoc].
      * split; [by destruct run|].
        assert (∀ x, x ∈ run ++ [p] → native x = native r) as Hall.
        { intros x [Hx| ->%list_elem_of_singleton]%elem_of_app; [|done].
          by apply Hrun. }
        intros x y Hx Hy. by rewrite (Hall x), (Hall y).
      * apply switches_same; [done| |done]. intros q Hq. rewrite Hpr. by apply Hrun.
    + apply eqb_false_iff in Hpr. exists (runs ++ [run]), [p].
      split_and!.
      * by rewrite concat_app, <-!app_assoc; cbn; rewrite app_nil_r.
      * apply Forall_app. split; [done|by constructor].
      * split; [done|].
        by intros x y ->%list_elem_of_singleton ->%list_elem_of_singleton.
      * apply switches_next; [|done]. intros g q Hg Hq.
        rewrite last_snoc in Hg. simplify_eq.
        destruct Hrun as [_ Hall]. rewrite (Hall q r) by done. congruence.
      * rewrite imap_app. cbn [imap]. rewrite Nat.add_0_r.
        unfold closed at 3. by rewrite <-app_assoc.
      * rewrite length_app. cbn. unfold pre.
        by replace (0 <? length runs + 1) with true by (symmetry; apply Nat.ltb_lt; lia).
Qed.

Lemma fold_batched passes
    (step : list (list string) * list string → string → list (list string) * list string) :
  (∀ chunks curr p,
     step (chunks, curr) p
     = (if (length curr =? 0)%nat then chunks
        else if Bool.eqb (native p) (native (default "" (last curr))) then chunks
        else chunks ++ [curr ++ ["emitJSON"]],
        if (length curr =? 0)%nat then curr ++ [p]
        else if Bool.eqb (native p) (native (default "" (last curr))) then curr ++ [p]
        else ["receiveJSON"; p])) →
  ∃ chunks curr, foldl step ([], []) passes = (chunks, curr) ∧ batched passes chunks curr.
Proof.
  intros Hstep.
  induction passes as [|p passes (chunks & curr & Hfold & IH)] using rev_ind.
  - exists [], []. split; [done|by left].
  - rewrite foldl_app, Hfold. cbn [foldl]. rewrite Hstep.
    eexists _, _. split; [done|]. by apply batched_step.
Qed.

(** X18. [make_chunks] cuts the queue of passes into runs: the runs put
    end to end are the queue, no run is empty, the passes of a run all run
    in the same optimizer (native or not) and those of two runs that follow
    each other do not. The chunks are the runs, each but the first behind
    [receiveJSON] and each but the last before [emitJSON]; so a queue that
    one optimizer runs is one chunk without a marker. *)
Theorem passes_are_batched_by_optimizer (passes : list string) :
  ∃ runs,
    concat runs = passes
    ∧ Forall (λ run, run ≠ []
                     ∧ ∀ p q, p ∈ run → q ∈ run →
                              use_native p source_map = use_native q source_map) runs
    ∧ (∀ i g h p q, runs !! i = Some g → runs !! S i = Some h → p ∈ g → q ∈ h →
                    use_native p source_map ≠ use_native q source_map)
    ∧ make_chunks use_native source_map passes = imap (mark (length runs)) runs.
Proof.
  unfold make_chunks.
  match goal with |- context [foldl ?f _ _] =>
    destruct (fold_batched passes f) as (chunks & curr & Hfold & Hb)
  end.
  { intros chunks curr p. cbv beta iota zeta. unfold native.
    destruct (length curr =? 0); [done|]. by destruct (Bool.eqb _ _). }
  rewrite Hfold.
  destruct Hb as [(-> & -> & ->)|(runs & run & -> & Hruns & Hrun & Hsw & -> & ->)].
  - exists []. cbn. split_and!; [done|constructor| |done]. by intros [].
  - exists (runs ++ [run]). assert (Hne : run ≠ []) by apply Hrun.
    split_and!.
    + rewrite concat_app. cbn. by rewrite app_nil_r.
    + apply Forall_app. split; [done|by constructor].
    + done.
    + assert (0 <? length (pre (length runs) ++ run) = true) as ->.
      { apply Nat.ltb_lt. rewrite length_app. destruct run; [done|]. cbn. lia. }
      rewrite imap_app. cbn [imap]. rewrite Nat.add_0_r, length_app. cbn [length].
      f_equal.
      * apply imap_ext. intros i g Hi. apply lookup_lt_Some in Hi.
        unfold closed, mark, pre.
        by replace (S i <? length runs + 1) with true
          by (symmetry; apply Nat.ltb_lt; lia).
      * unfold mark, pre.
        replace (S (length runs) <? length runs + 1) with false
          by (symmetry; apply Nat.ltb_ge; lia).
        by rewrite app_nil_r.
Qed.
End Chunks.

End ChunkFacts.

(** ** From the input files to bitcode *)

Module CompileFacts.
Import Inputs Compile CompileSpec.

Lemma numbered_empty : numbered ∅.
Proof. split; intros *; by rewrite lookup_empty. Qed.

Section Names.
Variable unsuffixed : string → string.
Variable suffix : string → option string.

(** X19. [uniquename] keeps its table numbered: a name that is new gets
    the next number, no two names have the same number, and no entry is
    changed. The result carries the number of the name, and asking again
    for the same name gives the same result and leaves the table alone. *)
Theorem uniquename_numbers_the_names (name : string) (seen_names : gmap string string) :
  numbered seen_names →
  ∃ k seen_names',
    uniquename unsuffixed suffix name seen_names
    = (unsuffixed name +:+ "_" +:+ pretty k
         +:+ (if Py.env_truthy (suffix name) then "." +:+ default "" (suffix name) else ""),
       seen_names')
    ∧ numbered seen_names'
    ∧ seen_names ⊆ seen_names'
    ∧ seen_names' !! name = Some (pretty k)
    ∧ (seen_names !! name = None → k = size seen_names)
    ∧ uniquename unsuffixed suffix name seen_names'
      = uniquename unsuffixed suffix name seen_names.
Proof.
  intros [Hnum Hinj]. unfold uniquename.
  destruct (seen_names !! name) as [s|] eqn:Hname.
  - destruct (Hnum _ _ Hname) as (k & Hk & ->).
    exists k, seen_names. rewrite Hname. cbn [from_option id].
    split_and!; rewrite ?Hname; done.
  - exists (size seen_names), (<[name := pretty (size seen_names)]> seen_names).
    rewrite lookup_insert_eq. cbn [from_option id]. split_and!; try done.
    + split.
      * intros n s Hn. rewrite map_size_insert_None by done.
        apply lookup_insert_Some in Hn as [[_ <-]|[_ Hn]]; [eauto with lia|].
        destruct (Hnum _ _ Hn) as (k & ? & ->). eauto with lia.
      * intros n1 n2 s H1 H2.
        apply lookup_insert_Some in H1 as [[<- <-]|[Hne1 H1]];
          apply lookup_insert_Some in H2 as [[<- H2]|[Hne2 H2]]; try done.
        -- destruct (Hnum _ _ H2) as (k & Hk & Heq).
           apply (inj pretty) in Heq. lia.
        -- destruct (Hnum _ _ H1) as (k & Hk & Heq). rewrite Heq in H2.
           apply (inj pretty) in H2. lia.
        -- by eapply Hinj.
    + by apply insert_subseteq.
    + by rewrite lookup_insert_eq.
Qed.
End Names.

Lemma uniquename_numbers_the_names_witness :
  ∃ k seen_names',
    uniquename ex_unsuffixed ex_suffix "src/a.c" ∅
    = (ex_unsuffixed "src/a.c" +:+ "_" +:+ pretty k
         +:+ (if Py.env_truthy (ex_suffix "src/a.c")
              then "." +:+ default "" (ex_suffix "src/a.c") else ""),
       seen_names')
    ∧ numbered seen_names'
    ∧ ∅ ⊆ seen_names'
    ∧ seen_names' !! "src/a.c" = Some (pretty k)
    ∧ ((∅ : gmap string string) !! "src/a.c" = None → k = size (∅ : gmap string string))
    ∧ uniquename ex_unsuffixed ex_suffix "src/a.c" seen_names'
      = uniquename ex_unsuffixed ex_suffix "src/a.c" ∅.
Proof.
  apply (uniquename_numbers_the_names ex_unsuffixed ex_suffix "src/a.c" ∅).
  split; intros *; by rewrite lookup_empty.
Defined.

Section Loop.
Variable unsuffixed : string → string.
Variable suffix : string → option string.
Variable in_temp : string → string.
Variable is_ar : string → bool.
Variable isdir : string → bool.
Variable path_join : string → string → string.
Variable basename : string → string.
Variable process_args : list string → list string.
Variable frontend_ok : list string → bool.
Variable env : CompileEnv.

Notation bitcodeize_step :=
  (bitcodeize_step unsuffixed suffix in_temp is_ar isdir path_join basename
                   process_args frontend_ok env).
Notation compile_source_file :=
  (compile_source_file unsuffixed suffix in_temp isdir path_join basename
                       process_args frontend_ok env).
Notation bitcodeize :=
  (bitcodeize unsuffixed suffix in_temp is_ar isdir path_join basename
              process_args frontend_ok env).

Notation kept := (kept env is_ar).
Notation lined_up := (lined_up is_ar).

Lemma compile_source_file_cases n i input_file st :
  (∃ st' output_file, compile_source_file n i input_file st = Ret st'
                      ∧ temp_files st' = temp_files st ++ [(i, output_file)])
  ∨ ∃ msg, compile_source_file n i input_file st = Raise (ExitWithError msg).
Proof.
  unfold Compile.compile_source_file.
  destruct (get_bitcode_file _ _ _ _ _ _ _ _ _ _) as [output_file seen].
  destruct (negb _); [by right; eexists|]. left. by eexists _, _.
Qed.

Lemma bitcodeize_step_cases n st x :
  (∃ st', bitcodeize_step n st x = Ret st'
          ∧ ((kept x = true ∧ ∃ t, temp_files st' = temp_files st ++ [t] ∧ lined_up x t)
             ∨ (kept x = false ∧ temp_files st' = temp_files st)))
  ∨ ∃ msg, bitcodeize_step n st x = Raise (ExitWithError msg).
Proof.
  destruct x as [i input_file].
  unfold Compile.bitcodeize_step, CompileSpec.kept, CompileSpec.lined_up,
    assembly_only, used_as_it_is.
  cbn [fst snd].
  destruct (Py.endswith_any (filename_type_ending input_file) SOURCE_ENDINGS) eqn:Hsrc.
  { destruct (compile_source_file_cases n i input_file st)
      as [(st' & o & -> & Ht)|[msg ->]]; [|by right; eexists].
    left. exists st'. split; [done|]. left. cbn. rewrite andb_false_r.
    split; [done|]. by exists (i, o). }
  cbn [negb andb].
  destruct (Py.endswith_any (filename_type_ending input_file) BITCODE_ENDINGS) eqn:Hbc.
  { left. eexists. split; [done|]. left. cbn. rewrite andb_false_r.
    split; [done|]. by exists (i, input_file). }
  cbn [orb].
  destruct (Py.endswith_any (filename_type_ending input_file) DYNAMICLIB_ENDINGS
            || is_ar input_file) eqn:Hlib.
  { left. eexists. split; [done|]. left. cbn. rewrite andb_false_r.
    split; [done|]. by exists (i, input_file). }
  cbn [negb andb].
  destruct (Py.endswith_any (filename_type_ending input_file) ASSEMBLY_ENDINGS) eqn:Hll.
  { destruct (Py.env_truthy (LEAVE_INPUTS_RAW env)); cbn [negb andb].
    - left. eexists. split; [done|]. by right.
    - destruct (temp_name _ _ _ _ _ _) as [temp_file seen].
      left. eexists. split; [done|]. left. split; [done|]. by exists (i, temp_file). }
  rewrite andb_false_r.
  destruct (has_fixed_language_mode env); [|by right; eexists].
  destruct (compile_source_file_cases n i input_file st)
    as [(st' & o & -> & Ht)|[msg ->]]; [|by right; eexists].
  left. exists st'. split; [done|]. left. split; [done|]. by exists (i, o).
Qed.

Lemma bitcodeize_loop n input_files st :
  (∃ st' new, for_each (bitcodeize_step n) st input_files = Ret st'
              ∧ temp_files st' = temp_files st ++ new
              ∧ Forall2 lined_up (List.filter kept input_files) new)
  ∨ ∃ msg, for_each (bitcodeize_step n) st input_files = Raise (ExitWithError msg).
Proof.
  revert st. induction input_files as [|x l IH]; intros st.
  - left. exists st, []. cbn. by rewrite app_nil_r.
  - cbn [for_each List.filter].
    destruct (bitcodeize_step_cases n st x) as [(st1 & -> & Hst1)|[msg ->]];
      [|by right; eexists].
    cbn [mbind res_bind].
    destruct (IH st1) as [(st' & new & -> & Ht & Hnew)|[msg ->]]; [|by right; eexists].
    left. destruct Hst1 as [(-> & t & Ht1 & Hx)|(-> & Ht1)].
    + exists st', (t :: new). split; [done|]. rewrite Ht, Ht1, <-app_assoc.
      split; [done|]. by constructor.
    + exists st', new. by rewrite Ht, Ht1.
Qed.

Lemma filter_kept input_files :
  Py.env_truthy (LEAVE_INPUTS_RAW env) = false → List.filter kept input_files = input_files.
Proof.
  intros Hraw. induction input_files as [|x l IH]; [done|].
  cbn [List.filter]. unfold CompileSpec.kept at 1. rewrite Hraw. cbn. by rewrite IH.
Qed.

(** X20. The loop over the input files ends in one of two ways: with the
    error exit of a failed compile or of an unknown suffix, or with one temp
    file for each input file, in the same order and under the same index;
    the input files that need no compiling (bitcode, dynamic libraries,
    archives) are their own temp files. Only under [EMCC_LEAVE_INPUTS_RAW]
    some inputs have no temp file: the assembly files. So the assertion
    that follows the loop, that the two lists have the same length, never
    fails. *)
Theorem temp_files_line_up (WASM_BACKEND : bool) (input_files : list (nat * string)) :
  (∃ st, bitcodeize WASM_BACKEND input_files = Ret st
         ∧ Forall2 lined_up (List.filter kept input_files) (temp_files st)
         ∧ (Py.env_truthy (LEAVE_INPUTS_RAW env) = false →
            List.filter kept input_files = input_files))
  ∨ ∃ msg, bitcodeize WASM_BACKEND input_files = Raise (ExitWithError msg).
Proof.
  unfold Compile.bitcodeize.
  destruct (bitcodeize_loop (length input_files) input_files init)
    as [(st & new & -> & Ht & Hnew)|[msg ->]]; [|by right; eexists].
  cbn [mbind res_bind]. cbn in Ht. subst new. left. exists st.
  assert (Hall := filter_kept input_files).
  destruct (Py.env_truthy (LEAVE_INPUTS_RAW env)) eqn:Hraw; cbn [negb andb]; [done|].
  destruct WASM_BACKEND; cbn [negb]; [done|].
  assert (length (temp_files st) =? length input_files = true) as ->.
  { apply Nat.eqb_eq. apply Forall2_length in Hnew. by rewrite Hall in Hnew. }
  done.
Qed.
End Loop.

(** Two sources of the same name get two temp files; under
    [EMCC_LEAVE_INPUTS_RAW] an assembly file gets none. *)
Example compile_two_sources_of_one_name :
  (∃ st, ex_bitcodeize None [(0, "a/x.c"); (1, "b/x.c"); (2, "y.o")] = Ret st
         ∧ temp_files st = [(0, "/tmp/x_0.o"); (1, "/tmp/x_1.o"); (2, "y.o")])
  ∧ (∃ st, ex_bitcodeize (Some "1") [(0, "x.ll"); (1, "y.o")] = Ret st
           ∧ temp_files st = [(1, "y.o")]).
Proof. split; eexists; split; vm_compute; reflexivity. Qed.

End CompileFacts.

(** ** The settings of the command line *)

Module SettingsFacts.
Import Driver SettingsApply SettingsSpec FileNameSpec ResponseWriteFacts InputsMore.

Lemma has_char_count c s : has_char c s = false ↔ count_char c s = 0.
Proof.
  induction s as [|a s IH]; [done|]. cbn [has_char count_char].
  destruct (Ascii.eqb a c); cbn; [done|]. exact IH.
Qed.

Lemma split_length c s : length (Py.split c s) = S (count_char c s).
Proof.
  induction s as [|a s IH]; [done|]. cbn [Py.split count_char].
  destruct (Ascii.eqb a c).
  - cbn. by rewrite IH.
  - destruct (split_nonempty c s) as (w & ws & Hs). rewrite Hs in *. cbn in *. lia.
Qed.

Lemma split_join c s : Py.join (String c "") (Py.split c s) = s.
Proof.
  induction s as [|a s IH]; [done|]. cbn [Py.split].
  destruct (split_nonempty c s) as (w & ws & Hs). rewrite Hs in *.
  destruct (Ascii.eqb a c) eqn:Hac.
  - apply Ascii.eqb_eq in Hac as ->. rewrite join_cons2, IH. by str_norm.
  - destruct ws as [|w' ws].
    + cbn [Py.join] in *. by rewrite IH.
    + rewrite join_cons2 in *. rewrite <-IH. by str_norm.
Qed.

Lemma split_two c s key value :
  Py.split c s = [key; value] →
  s = key +:+ String c value ∧ has_char c key = false ∧ has_char c value = false.
Proof.
  intros Hs. split_and!.
  - rewrite <-(split_join c s), Hs. cbn [Py.join]. by str_norm.
  - apply (split_parts c s). rewrite Hs. left.
  - apply (split_parts c s). rewrite Hs. right. left.
Qed.

Lemma split_key_value c key value :
  has_char c key = false → has_char c value = false →
  Py.split c (key +:+ String c value) = [key; value].
Proof. intros Hk Hv. by rewrite split_app, !split_none. Qed.

Section Statement.
Variable expand_byte_size_suffixes : string → option string.
Variable read_file : string → option string.

Notation setting_statement := (setting_statement expand_byte_size_suffixes read_file).

(** X21. A setting is cut at its [=]: with no [=] or with more than one,
    also inside the value, the loop stops on the ValueError of the
    assignment to [key, value], and only then. A statement that is executed
    comes from a change with one [=], and assigns to the setting of its
    key. A value that does not start with [@], of a setting that is no
    amount of memory, is written with its backslashes doubled; an empty
    value stops the loop on an IndexError. *)
Theorem setting_is_cut_at_its_only_equals (change : string) :
  (setting_statement change = inl UnpackError ↔ count_char "=" change ≠ 1)
  ∧ (∀ text, setting_statement change = inr text →
       ∃ key value text',
         change = key +:+ "=" +:+ value
         ∧ has_char "=" key = false ∧ has_char "=" value = false
         ∧ text = "shared.Settings." +:+ key +:+ " = " +:+ text')
  ∧ (∀ key value,
       change = key +:+ "=" +:+ value →
       has_char "=" key = false → has_char "=" value = false →
       is_in key MEMORY_SETTINGS = false →
       Py.startswith value "@" = false →
       setting_statement change
       = if Py.truthy value
         then inr ("shared.Settings." +:+ key +:+ " = "
                   +:+ ResponseWrite.replace_char Shlex.bs
                         (ResponseWrite.bs +:+ ResponseWrite.bs) value)
         else inl EmptyValue).
Proof.
  split_and!.
  - unfold SettingsApply.setting_statement.
    pose proof (split_length "=" change) as Hlen.
    destruct (Py.split "=" change) as [|key [|value [|x l]]] eqn:Hs; cbn in Hlen.
    + lia.
    + split; [lia|done].
    + split; [|lia]. intros H. exfalso. revert H.
      destruct (if is_in key MEMORY_SETTINGS then _ else _) as [[|c rest]|]; try done.
      destruct (Ascii.eqb c "@"); [|done].
      destruct (negb _); [|done]. by destruct (read_file rest).
    + split; [lia|done].
  - intros text. unfold SettingsApply.setting_statement.
    destruct (Py.split "=" change) as [|key [|value [|x l]]] eqn:Hs; try done.
    apply split_two in Hs as (-> & Hk & Hv). intros H.
    exists key, value.
    destruct (if is_in key MEMORY_SETTINGS then _ else _) as [[|c rest]|]; try done.
    destruct (Ascii.eqb c "@"); [|by simplify_eq; eexists].
    destruct (negb _); [|by simplify_eq; eexists].
    destruct (read_file rest); [|done]. by simplify_eq; eexists.
  - intros key value -> Hk Hv Hmem Hat. unfold SettingsApply.setting_statement.
    change (key +:+ "=" +:+ value) with (key +:+ String "=" value).
    rewrite split_key_value by done. rewrite Hmem.
    destruct value as [|c rest]; [done|].
    assert (Ascii.eqb c "@" = false) as ->; [|done].
    unfold Py.startswith in Hat. cbn in Hat.
    destruct (Ascii.eqb c "@") eqn:Hc; [|done].
    apply Ascii.eqb_eq in Hc as ->. by destruct rest.
Qed.
End Statement.

(** A value with an [=] in it, and a value that is empty. *)
Example setting_with_two_equals :
  setting_statement (λ _, None) (λ _, None) "EXPORT_NAME='a=b'" = inl UnpackError
  ∧ setting_statement (λ _, None) (λ _, None) "EXPORT_NAME=" = inl EmptyValue
  ∧ setting_statement (λ _, None) (λ _, None) "EXPORT_NAME='Mod'"
    = inr "shared.Settings.EXPORT_NAME = 'Mod'".
Proof. by vm_compute. Qed.

(** *** Strict mode *)

Lemma startswith_app p v : Py.startswith (p +:+ v) p = true.
Proof.
  unfold Py.startswith. induction p as [|a p IH].
  - rewrite app_nil_l_s. by destruct v.
  - rewrite app_cons_s. cbn. by destruct (ascii_dec a a).
Qed.

Lemma last_change_found before x after setting :
  Py.startswith x (setting +:+ "=") = true →
  Forall (λ y, Py.startswith y (setting +:+ "=") = false) after →
  get_last_setting_change (before ++ x :: after) setting = Some x.
Proof.
  intros Hx Hafter. unfold get_last_setting_change.
  rewrite List.filter_app. cbn [List.filter]. rewrite Hx.
  assert (List.filter (λ y, Py.startswith y (setting +:+ "=")) after = []) as ->.
  { induction Hafter as [|y l Hy _ IH]; [done|]. cbn. by rewrite Hy. }
  rewrite fmap_app. cbn [fmap list_fmap]. by rewrite app_assoc, last_snoc.
Qed.

Lemma last_change_none l setting :
  Forall (λ y, Py.startswith y (setting +:+ "=") = false) l →
  get_last_setting_change l setting = None.
Proof.
  intros Hl. unfold get_last_setting_change.
  assert (List.filter (λ y, Py.startswith y (setting +:+ "=")) l = []) as ->; [|done].
  induction Hl as [|y l Hy _ IH]; [done|]. cbn. by rewrite Hy.
Qed.

(** X22. The last [STRICT=] among the settings of the command line
    decides on strict mode, whatever [EMCC_STRICT] says in the environment and
    whatever the settings before it say: its value is read as a number
    (anything else is a ValueError), and a number other than 0 turns on the
    two error settings. *)
Theorem last_strict_setting_wins (EMCC_STRICT : option string)
    (before after : list string) (v : string) (s : StrictSettings) :
  Forall (λ x, Py.startswith x "STRICT=" = false) after →
  Forall (λ x, Py.startswith x "ERROR_ON_MISSING_LIBRARIES=" = false) (before ++ after) →
  strict_block EMCC_STRICT (before ++ ("STRICT=" +:+ v) :: after) s
  = (n ← MemInit.py_int v;
     Ret {| STRICT := n;
            ERROR_ON_UNDEFINED_SYMBOLS :=
              if (n =? 0)%Z then ERROR_ON_UNDEFINED_SYMBOLS s else 1%Z;
            ERROR_ON_MISSING_LIBRARIES :=
              if (n =? 0)%Z then ERROR_ON_MISSING_LIBRARIES s else 1%Z |}).
Proof.
  intros Hafter Hmissing. unfold strict_block, last_value.
  rewrite (last_change_found before ("STRICT=" +:+ v) after "STRICT");
    [|apply (startswith_app "STRICT=")|exact Hafter].
  rewrite (last_change_none _ "ERROR_ON_MISSING_LIBRARIES").
  2:{ apply Forall_app in Hmissing as [H1 H2]. apply Forall_app. split; [done|].
      by constructor. }
  change (Py.truthy ("STRICT=" +:+ v)) with true. cbv iota.
  change (str_drop (String.length ("STRICT" +:+ "=")) ("STRICT=" +:+ v)) with v.
  destruct (MemInit.py_int v) as [n| |]; [|done..].
  cbn [mbind res_bind]. by destruct (n =? 0)%Z.
Qed.

Lemma last_strict_setting_wins_witness :
  strict_block (Some "1") (["STRICT=1"; "ASSERTIONS=1"] ++ ("STRICT=" +:+ "0") :: ["WASM=1"])
               ex_strict
  = (n ← MemInit.py_int "0";
     Ret {| STRICT := n;
            ERROR_ON_UNDEFINED_SYMBOLS :=
              if (n =? 0)%Z then ERROR_ON_UNDEFINED_SYMBOLS ex_strict else 1%Z;
            ERROR_ON_MISSING_LIBRARIES :=
              if (n =? 0)%Z then ERROR_ON_MISSING_LIBRARIES ex_strict else 1%Z |}).
Proof.
  apply (last_strict_setting_wins (Some "1") ["STRICT=1"; "ASSERTIONS=1"] ["WASM=1"] "0"
           ex_strict).
  - repeat constructor.
  - repeat constructor.
Defined.

End SettingsFacts.

(** ** The port of binaryen *)

Module BinaryenFacts.
Import BinaryenPort ResponseWriteFacts.

Lemma truthy_app a b : Py.truthy b = true → Py.truthy (a +:+ b) = true.
Proof. destruct b; [done|]. intros _. by destruct a. Qed.

Lemma join2_truthy path b :
  Py.truthy b = true → Py.truthy (join2 path b) = true.
Proof.
  intros Hb. unfold join2. destruct (Py.startswith b "/"); [done|].
  destruct (_ || _); [by apply truthy_app|]. apply truthy_app. by apply truthy_app.
Qed.

(** X23. The port of binaryen is needed at most once: a call of [get] that
    fetches the port sets [shared.BINARYEN_ROOT] to a path that is not empty,
    so that a call after it returns no file, does nothing and leaves the
    path as it is. A call that returns no file has done nothing and has not
    changed the path; it fetches only when [WASM] is set and no path was. *)
Theorem binaryen_is_fetched_once (WASM : Z) (ports_dir : string)
    (cache_file : string → string) (BINARYEN_ROOT : string) :
  ∃ files root events,
    get WASM ports_dir cache_file BINARYEN_ROOT = (files, root, events)
    ∧ get WASM ports_dir cache_file root = ([], root, [])
    ∧ ((files = [] ∧ events = [] ∧ root = BINARYEN_ROOT)
       ∨ (WASM ≠ 0%Z ∧ BINARYEN_ROOT = ""
          ∧ files = [cache_file "binaryen_tag_version_82.txt"]
          ∧ root = os_path_join ports_dir ["binaryen"; "binaryen-version_82"]
          ∧ ∃ url subdir, events = [FetchProject "binaryen" url subdir;
                                    CacheGet "binaryen_tag_version_82.txt"])).
Proof.
  unfold get, needed, SplitMemory.truthy.
  destruct (WASM =? 0)%Z eqn:HW; cbn [negb].
  { eexists _, _, _. split; [done|]. split; [done|]. by left. }
  destruct (Py.truthy BINARYEN_ROOT) eqn:Hroot; cbn [negb].
  { eexists _, _, _. split; [done|]. rewrite Hroot. split; [done|]. by left. }
  eexists _, _, _. split; [done|].
  assert (Py.truthy (os_path_join ports_dir ["binaryen"; "binaryen-" +:+ TAG]) = true)
    as Hset by (by apply join2_truthy).
  rewrite Hset. split; [done|]. right. split_and!.
  - by apply Z.eqb_neq.
  - unfold Py.truthy in Hroot. apply negb_false_iff in Hroot.
    by apply String.eqb_eq in Hroot.
  - done.
  - done.
  - by eexists _, _.
Qed.

End BinaryenFacts.

(** ** [distill_asm.py] *)

Module DistillFacts.
Import DistillAsm FileNameSpec ResponseWriteFacts.

Lemma find_absent c s : has_char c s = false → find c s = (-1)%Z.
Proof.
  induction s as [|a s IH]; [done|]. cbn [has_char find].
  intros H. apply orb_false_iff in H as [-> H]. by rewrite (IH H).
Qed.

Lemma find_first c before after :
  has_char c before = false →
  find c (before +:+ String c after) = Z.of_nat (String.length before).
Proof.
  induction before as [|a s IH]; cbn [has_char].
  - intros _. rewrite app_nil_l_s. cbn [find]. by rewrite Ascii.eqb_refl.
  - intros H. apply orb_false_iff in H as [Ha H]. rewrite app_cons_s. cbn [find].
    rewrite Ha, (IH H). cbn [String.length].
    destruct (Z.ltb_spec (Z.of_nat (String.length s)) 0); lia.
Qed.

Lemma str_drop_app before after :
  Driver.str_drop (String.length before) (before +:+ after) = after.
Proof.
  induction before as [|a s IH]; [by rewrite app_nil_l_s; destruct after|].
  rewrite app_cons_s. cbn. exact IH.
Qed.

Lemma length_app_s a b : String.length (a +:+ b) = String.length a + String.length b.
Proof.
  induction a as [|x a IH]; [by rewrite app_nil_l_s|].
  rewrite app_cons_s. cbn. by rewrite IH.
Qed.

(** X24. With [just-func] the script writes the module from behind its
    first [=] on, that is without [var asm =], and a [;]; a module with no
    [=] in it is written as a whole. *)
Theorem just_func_strips_the_assignment (prog infile outfile before after : string) :
  has_char "=" before = false →
  distill (λ _, before +:+ "=" +:+ after) [prog; infile; outfile; "just-func"]
  = Ret (outfile, after +:+ ";")
  ∧ distill (λ _, before) [prog; infile; outfile; "just-func"]
    = Ret (outfile, before +:+ ";").
Proof.
  intros Hb. unfold distill. cbn [lookup list_lookup length Nat.leb from_option id].
  change (String.eqb "just-func" "swap-in") with false.
  change (String.eqb "just-func" "just-func") with true. cbv iota. split.
  - change (before +:+ "=" +:+ after) with (before +:+ String "=" after).
    rewrite (find_first _ _ _ Hb).
    replace (Z.to_nat (Z.of_nat (String.length before) + 1))
      with (String.length (before +:+ "=")).
    + replace (before +:+ String "=" after) with ((before +:+ "=") +:+ after)
        by (by rewrite app_assoc_s).
      by rewrite str_drop_app.
    + rewrite length_app_s. cbn. lia.
  - rewrite (find_absent _ _ Hb). cbn. by destruct before.
Qed.

Lemma just_func_strips_the_assignment_witness :
  distill (λ _, "var asm " +:+ "=" +:+ " (function() {})") ["distill_asm.py"; "a.js"; "b.js"; "just-func"]
  = Ret ("b.js", " (function() {})" +:+ ";")
  ∧ distill (λ _, "var asm ") ["distill_asm.py"; "a.js"; "b.js"; "just-func"]
    = Ret ("b.js", "var asm " +:+ ";").
Proof.
  apply (just_func_strips_the_assignment "distill_asm.py" "a.js" "b.js" "var asm "
           " (function() {})").
  reflexivity.
Defined.

End DistillFacts.

(** ** The two suffixes of the target *)

Module TargetFacts.
Import Inputs Target FileNameSpec ResponseWriteFacts InputsMore.

Lemma split_last_part c s :
  has_char c s = true →
  ∃ f t, s = f +:+ String c t ∧ has_char c t = false ∧ last (Py.split c s) = Some t.
Proof.
  intros H.
  assert (∃ f t, s = f +:+ String c t ∧ has_char c t = false) as (f & t & -> & Ht).
  { induction s as [|a s IH]; [done|]. cbn [has_char] in H.
    destruct (has_char c s) eqn:Hs.
    - destruct (IH eq_refl) as (f & t & -> & Ht).
      exists (String a f), t. by rewrite app_cons_s.
    - rewrite orb_false_r in H. apply Ascii.eqb_eq in H as ->.
      exists "", s. by rewrite app_nil_l_s. }
  exists f, t. split; [done|]. split; [done|].
  by rewrite split_app, (split_none _ _ Ht), last_snoc.
Qed.

Lemma suffix_is_no_number filename : isdigit (filename_type_suffix filename) = false.
Proof.
  unfold filename_type_suffix.
  destruct (find _ _) as [i|] eqn:Hfind; [|done].
  apply find_some in Hfind as [_ Hi]. cbn [from_option id].
  by apply negb_true_iff in Hi.
Qed.

(** X25. The suffix of the target that decides on the kind of the output
    is the text behind the last dot of the target; the suffix that decides on
    dynamic linking is [filename_type_suffix] of the target. The two are the
    same exactly when the text behind the last dot is not a number: for a
    target such as [out.js.1] they are [1] and [js]. *)
Theorem two_suffixes_of_the_target (target : string) :
  final_suffix target = filename_type_suffix target
  ↔ isdigit (final_suffix target) = false.
Proof.
  unfold final_suffix. destruct (has_char "." target) eqn:Hdot.
  - destruct (split_last_part "." target Hdot) as (f & t & -> & Ht & ->).
    cbn [from_option id].
    rewrite (suffix_by_last_component_eq f t Ht).
    destruct (isdigit t) eqn:Hd; [|done].
    split; [|done]. intros Heq. rewrite Heq in Hd.
    by rewrite suffix_is_no_number in Hd.
  - by rewrite (suffix_of_plain _ Hdot).
Qed.

Example target_with_a_version_number :
  final_suffix "out.js.1" = "1" ∧ filename_type_suffix "out.js.1" = "js"
  ∧ final_suffix "out.html" = "html" ∧ filename_type_suffix "out.html" = "html"
  ∧ final_suffix "a.out" = "out" ∧ final_suffix "out" = "".
Proof. by vm_compute. Qed.

End TargetFacts.

(** ** Stopping at bitcode *)

Module BitcodeStopFacts.
Import Inputs Compile CompileSpec BitcodeStop BitcodeStopSpec.

Section Stop.
Variable unsuffixed : string → string.
Variable unsuffixed_basename : string → string.
Variable exists_ : string → bool.
Variable read_file : string → string.
Variable dirname : string → string.
Variable basename : string → string.
Variable path_join : string → string → string.
Variable str_replace : string → string → string → string.
Variable is_ar : string → bool.
Variable env : CompileEnv.

Notation bitcode_stop :=
  (bitcode_stop unsuffixed unsuffixed_basename exists_ read_file dirname basename
                path_join str_replace env).
Notation move_output := (move_output unsuffixed_basename env).

Notation moved := (moved unsuffixed_basename env).

Lemma move_output_at done_x done_t x l temp_files events :
  length done_x = length done_t →
  move_output (done_x ++ x :: l) (done_t ++ temp_files) events (length done_x)
  = match temp_files with
    | t :: _ => Ret (events ++ [moved x t])
    | [] => Raise IndexError
    end.
Proof.
  intros Hlen. unfold BitcodeStop.move_output.
  rewrite (lookup_app_r done_t) by lia. rewrite (lookup_app_r done_x) by lia.
  rewrite <-Hlen, Nat.sub_diag.
  destruct temp_files as [|[it t] temp_files]; [done|]. by destruct x.
Qed.

Lemma move_outputs input_files temp_files done_x done_t events :
  length done_x = length done_t →
  for_each (move_output (done_x ++ input_files) (done_t ++ temp_files)) events
           (seq (length done_x) (length input_files))
  = if (length input_files <=? length temp_files)%nat
    then Ret (events ++ zip_with moved input_files (take (length input_files) temp_files))
    else Raise IndexError.
Proof.
  revert temp_files done_x done_t events.
  induction input_files as [|x l IH]; intros temp_files done_x done_t events Hlen.
  - cbn. by rewrite app_nil_r.
  - cbn [length seq for_each]. rewrite move_output_at by done.
    destruct temp_files as [|t temp_files]; [done|].
    cbn [mbind res_bind].
    specialize (IH temp_files (done_x ++ [x]) (done_t ++ [t])).
    rewrite !length_app in IH. cbn [length] in IH.
    rewrite <-!app_assoc in IH. cbn [app] in IH.
    replace (S (length done_x)) with (length done_x + 1) by lia.
    rewrite IH by lia. cbn [length Nat.leb take zip_with].
    destruct (length l <=? length temp_files); [|done].
    by rewrite <-app_assoc.
Qed.

(** X26. Without [-o], a build that stops at bitcode gives every temp
    file to [safe_move], with the base name of its input file and the final
    ending as the destination, in the order of the input files. For the
    temp files of a loop that has lined them up with the input files, the
    assertion on the two lengths holds; and an input file that is used as
    it is (an object file, say) is itself the source of its move. *)
Theorem outputs_are_moved_to_the_base_names
    (n_original : nat) (linker_inputs : list string)
    (input_files temp_files : list (nat * string)) :
  is_in (final_suffix env) EXECUTABLE_SUFFIXES = false →
  Py.env_truthy (specified_target env) = false →
  Forall2 (lined_up is_ar) input_files temp_files →
  bitcode_stop n_original linker_inputs input_files temp_files
  = Ret (Some (zip_with moved input_files temp_files))
  ∧ ∀ i x, input_files !! i = Some x → used_as_it_is is_ar x.2 = true →
           zip_with moved input_files temp_files !! i
           = Some (SafeMove x.2 (unsuffixed_basename x.2 +:+ final_ending env)).
Proof.
  intros Hfinal Htarget Hlined. unfold BitcodeStop.bitcode_stop.
  rewrite Hfinal, Htarget. cbn [negb].
  pose proof (Forall2_length _ _ _ Hlined) as Hlen.
  rewrite <-Hlen, Nat.eqb_refl. cbn [assert mbind res_bind].
  split.
  - pose proof (move_outputs input_files temp_files [] [] [] eq_refl) as Hmove.
    cbn [app length] in Hmove. rewrite Hmove, <-Hlen, Nat.leb_refl.
    cbn [mbind res_bind app]. by rewrite Hlen, firstn_all.
  - intros i x Hx Hused.
    destruct (Forall2_lookup_l _ _ _ _ _ Hlined Hx) as (t & Ht & _ & Heq).
    rewrite lookup_zip_with, Hx. cbn. rewrite Ht. cbn.
    unfold BitcodeStopSpec.moved. by rewrite (Heq Hused).
Qed.

(** X27. With [-o] and one input file, a build that stops at bitcode
    copies an input file that is used as it is to the target, and does not
    give it to [safe_move]: the input file stays where it is. A temp file of
    another name is given to [safe_move]. *)
Theorem single_input_is_copied_not_moved
    (n_original : nat) (linker_inputs : list string) (x t : nat * string)
    (target : string) :
  is_in (final_suffix env) EXECUTABLE_SUFFIXES = false →
  specified_target env = Some target → Py.truthy target = true →
  lined_up is_ar x t →
  ∃ events,
    bitcode_stop n_original linker_inputs [x] [t] = Ret (Some events)
    ∧ head events = Some (if String.eqb t.2 x.2 then CopyFile x.2 target
                          else SafeMove t.2 target)
    ∧ (used_as_it_is is_ar x.2 = true → head events = Some (CopyFile x.2 target))
    ∧ Forall (λ e, ∀ dst, e ≠ SafeMove x.2 dst) events.
Proof.
  intros Hfinal Htarget Htruthy [_ Hused]. unfold BitcodeStop.bitcode_stop.
  rewrite Hfinal, Htarget. cbn [negb Py.env_truthy from_option id].
  rewrite Htruthy. cbn [negb length Nat.eqb lookup list_lookup].
  destruct x as [ix x], t as [it t]. cbn [snd] in *.
  destruct (String.eqb_spec t x) as [->|Hne]; cbn [negb].
  - destruct (exists_ _); eexists; (split; [done|]);
      (split; [done|]); (split; [done|]); by repeat constructor.
  - destruct (exists_ _); eexists; (split; [done|]);
      (split; [done|]);
      (split; [by intros Hu; destruct Hne; apply Hused|]);
      repeat constructor; intros dst; congruence.
Qed.
End Stop.

Lemma outputs_are_moved_to_the_base_names_witness :
  ex_stop None "o" [(0, "main.c"); (1, "lib/util.o")] [(0, "main.o"); (1, "lib/util.o")]
  = Ret (Some (zip_with (BitcodeStopSpec.moved ex_unsuffixed_basename (ex_env None "o"))
                 [(0, "main.c"); (1, "lib/util.o")] [(0, "main.o"); (1, "lib/util.o")]))
  ∧ ∀ i x, [(0, "main.c"); (1, "lib/util.o")] !! i = Some x →
           used_as_it_is (λ _, false) x.2 = true →
           zip_with (BitcodeStopSpec.moved ex_unsuffixed_basename (ex_env None "o"))
             [(0, "main.c"); (1, "lib/util.o")] [(0, "main.o"); (1, "lib/util.o")] !! i
           = Some (SafeMove x.2 (ex_unsuffixed_basename x.2
                                 +:+ final_ending (ex_env None "o"))).
Proof.
  apply (outputs_are_moved_to_the_base_names ex_unsuffixed ex_unsuffixed_basename
           (λ _, false) (λ _, "") (λ name, name) ex_basename InputsSpec.ex_path_join
           (λ text _ _, text) (λ _, false) (ex_env None "o") 2 ["main.o"; "lib/util.o"]
           [(0, "main.c"); (1, "lib/util.o")] [(0, "main.o"); (1, "lib/util.o")]).
  - reflexivity.
  - reflexivity.
  - repeat constructor; cbn; intros; discriminate.
Defined.

Lemma single_input_is_copied_not_moved_witness :
  ∃ events,
    ex_stop (Some "out.bc") "bc" [(0, "lib/util.o")] [(0, "lib/util.o")] = Ret (Some events)
    ∧ head events = Some (if String.eqb "lib/util.o" "lib/util.o"
                          then CopyFile "lib/util.o" "out.bc"
                          else SafeMove "lib/util.o" "out.bc")
    ∧ (used_as_it_is (λ _, false) "lib/util.o" = true
       → head events = Some (CopyFile "lib/util.o" "out.bc"))
    ∧ Forall (λ e, ∀ dst, e ≠ SafeMove "lib/util.o" dst) events.
Proof.
  apply (single_input_is_copied_not_moved ex_unsuffixed ex_unsuffixed_basename
           (λ _, false) (λ _, "") (λ name, name) ex_basename InputsSpec.ex_path_join
           (λ text _ _, text) (λ _, false) (ex_env (Some "out.bc") "bc") 1 ["lib/util.o"]
           (0, "lib/util.o") (0, "lib/util.o") "out.bc").
  - reflexivity.
  - reflexivity.
  - reflexivity.
  - split; [reflexivity|]. intros _. reflexivity.
Defined.

(** With [-c] and no [-o], the object file among the inputs is given to
    [safe_move] with its base name in the working directory as the
    destination. *)
Example object_file_with_dash_c :
  ∃ st, ex_compile None "o" [(0, "main.c"); (1, "lib/util.o")] = Ret st
        ∧ temp_files st = [(0, "main.o"); (1, "lib/util.o")]
        ∧ ex_stop None "o" [(0, "main.c"); (1, "lib/util.o")] (temp_files st)
          = Ret (Some [SafeMove "main.o" "main.o"; SafeMove "lib/util.o" "util.o"]).
Proof. eexists. split; [vm_compute; reflexivity|]. split; vm_compute; reflexivity. Qed.

End BitcodeStopFacts.
